(** * RTDS_Buffers: channel client, fault injector, DG controller, stability check

    A shallow embedding of the communication-and-control core of the
    repository, and the properties its specification states about it.

    - [Py]        Python values shared by the modules: numbers, exceptions,
                  insertion-ordered dictionaries.
    - [Gtnet]     Comms/gtnet_channel.py  (GtnetChannel).
    - [Disrupt]   Comms/comms_disruptions.py  (ChannelDisruptor).
    - [DG]        DG_controller.py  (LowPass, RateLimiter, DGController).
    - [Stability] run_islanding_dg_load_test.py  (_max_step, _stable_window_ok).
    - [Socket]    Comms/gtnet_channel.py  (_recv_exact).
    - [CommandHelpers]  Comms/command_helpers.py.
    - [Bus]       Comms/data_bus.py  (DataBus).
    - [GtnetInv], [DisruptRun], [DGRun]  predicates and call sequences used
                  to state invariants of the three classes.

    Numbers.  In the comms layer a Python [float] is an IEEE-754 binary64
    datum ([spec_float] with prec = 53, emax = 1024): the code there only
    stores, coerces and compares values, and NaN, the infinities and the
    signed zeros behave as in Python.  The controller and the stability
    check do arithmetic; there a float is an exact rational, which leaves
    rounding, NaN and the infinities out of the model (the controller
    itself rejects non-finite measurements in [_get_filtered]). *)

From Stdlib Require Import ZArith QArith Qabs Lqa Lia Bool List String.
From Stdlib Require Import SpecFloat.
From stdpp Require Import gmap strings list fin_maps.

Import ListNotations.
Local Open Scope string_scope.
Local Open Scope Z_scope.

(* ===================================================================== *)
(** * Part I: the model                                                   *)
(* ===================================================================== *)

Module Py.

(** Exceptions the modelled code can raise. *)
Inductive exn : Type :=
| KeyError
| ValueError
| TypeError
| OverflowError
| IndexError
| ZeroDivisionError
| StructError
| ConnectionError.

(** Outcome of a call that may raise. *)
Inductive result (A : Type) : Type :=
| Ok (a : A)
| Raise (e : exn).

Arguments Ok {A} a.
Arguments Raise {A} e.

Definition bind {A B} (r : result A) (k : A -> result B) : result B :=
  match r with
  | Ok a => k a
  | Raise e => Raise e
  end.

Definition is_ok {A} (r : result A) : bool :=
  match r with Ok _ => true | Raise _ => false end.

(** binary64 *)
Definition prec : Z := 53.
Definition emax : Z := 1024.

Definition f_zero : spec_float := S754_zero false.
Definition f_one : spec_float := Eval cbv in SFone 53 1024.
Definition f_of_Z (z : Z) : spec_float := binary_normalize prec emax z 0 false.
Definition f_lt (a b : spec_float) : bool := SFltb a b.
Definition f_le (a b : spec_float) : bool := SFleb a b.
Definition f_add (a b : spec_float) : spec_float := SFadd prec emax a b.
Definition f_sub (a b : spec_float) : spec_float := SFsub prec emax a b.

Definition is_nan (f : spec_float) : bool :=
  match f with S754_nan => true | _ => false end.

(** [Number = Union[int, float]] *)
Inductive number : Type :=
| NInt (z : Z)
| NFloat (f : spec_float).

(** [int(v)]: identity on ints, truncation toward zero on finite floats,
    [OverflowError] on an infinity, [ValueError] on NaN. *)
Definition py_int (v : number) : result Z :=
  match v with
  | NInt z => Ok z
  | NFloat (S754_zero _) => Ok 0
  | NFloat (S754_finite s m e) => Ok (cond_Zopp s (Z.shiftl (Zpos m) e))
  | NFloat (S754_infinity _) => Raise OverflowError
  | NFloat S754_nan => Raise ValueError
  end.

(** [int(x)] where [x] may be [None]: [TypeError] on [None]. *)
Definition py_int_opt (x : option number) : result Z :=
  match x with
  | Some v => py_int v
  | None => Raise TypeError
  end.

(** [float(v)]: identity on floats, round-to-nearest-even on ints,
    [OverflowError] when the int is beyond the binary64 range. *)
Definition py_float (v : number) : result spec_float :=
  match v with
  | NFloat f => Ok f
  | NInt z =>
      match f_of_Z z with
      | S754_infinity _ => Raise OverflowError
      | f => Ok f
      end
  end.

(** Exact comparison of an int with a float, as Python does it. *)
Definition int_float_eqb (x : Z) (f : spec_float) : bool :=
  match f with
  | S754_zero _ => x =? 0
  | S754_finite s m e =>
      if 0 <=? e then x =? cond_Zopp s (Z.shiftl (Zpos m) e)
      else Z.shiftl x (- e) =? cond_Zopp s (Zpos m)
  | S754_infinity _ | S754_nan => false
  end.

(** [a == b] and [a != b] on numbers. *)
Definition py_eq (a b : number) : bool :=
  match a, b with
  | NInt x, NInt y => x =? y
  | NFloat f, NFloat g => SFeqb f g
  | NInt x, NFloat f => int_float_eqb x f
  | NFloat f, NInt x => int_float_eqb x f
  end.

Definition py_ne (a b : number) : bool := negb (py_eq a b).

(** A [dict] with string keys: insertion-ordered, keys unique. *)
Definition pydict (V : Type) : Type := list (string * V).

Fixpoint dict_get {V} (d : pydict V) (k : string) : option V :=
  match d with
  | [] => None
  | (k', v) :: r => if String.eqb k' k then Some v else dict_get r k
  end.

(** [d[k] = v]: overwrite in place when present, append otherwise. *)
Fixpoint dict_set {V} (d : pydict V) (k : string) (v : V) : pydict V :=
  match d with
  | [] => [(k, v)]
  | (k', v') :: r =>
      if String.eqb k' k then (k', v) :: r else (k', v') :: dict_set r k v
  end.

(** [dict(items)] *)
Definition dict_of_items {V} (items : list (string * V)) : pydict V :=
  fold_left (fun d kv => dict_set d (fst kv) (snd kv)) items [].

(** [zip(a, b)] *)
Fixpoint zip {A B} (a : list A) (b : list B) : list (A * B) :=
  match a, b with
  | x :: a', y :: b' => (x, y) :: zip a' b'
  | _, _ => []
  end.

(** [xs.index(k)] *)
Fixpoint index (k : string) (xs : list string) : result nat :=
  match xs with
  | [] => Raise ValueError
  | x :: r => if String.eqb x k then Ok 0%nat
              else bind (index k r) (fun i => Ok (S i))
  end.

(** [xs[i]] *)
Definition getitem {A} (xs : list A) (i : nat) : result A :=
  match nth_error xs i with
  | Some a => Ok a
  | None => Raise IndexError
  end.

(** Truthiness of an [Optional[str]]: [None] and the empty string are false. *)
Definition truthy_name (n : option string) : bool :=
  match n with
  | None => false
  | Some s => negb (String.eqb s EmptyString)
  end.

End Py.

Import Py.

(* --------------------------------------------------------------------- *)
(** ** Comms/gtnet_channel.py                                             *)
(* --------------------------------------------------------------------- *)

Module Gtnet.

(** [ChannelSpec].  The endpoint, the timeouts and the backoff delays only
    parameterise the socket calls, whose outcomes are inputs of the model. *)
Record ChannelSpec : Type := {
  name : string;
  cmd_types : list string;                (* "int" or "float" *)
  meas_names : list string;
  meas_fmt : string;
  cmd_names : list string;
  cmd_fmt : string;
  ready_to_send_name : option string;
  require_ready_to_send : bool;
  reconnect : bool
}.

Record ChannelStats : Type := {
  connected : bool;
  last_connect_time : spec_float;
  last_disconnect_time : spec_float;
  rx_frames : Z;
  tx_frames : Z;
  rx_errors : Z;
  tx_errors : Z;
  reconnects : Z;
  last_rx_time : spec_float;
  last_tx_time : spec_float
}.

Definition ChannelStats_init : ChannelStats :=
  {| connected := false;
     last_connect_time := f_zero; last_disconnect_time := f_zero;
     rx_frames := 0; tx_frames := 0; rx_errors := 0; tx_errors := 0;
     reconnects := 0;
     last_rx_time := f_zero; last_tx_time := f_zero |}.

Section Channel.

(** Wire frames, and [struct.Struct(fmt).pack] / [.unpack]; [None] stands
    for the exception the library raises on a value it cannot encode. *)
Context {payload : Type}.
Variable pack : string -> list number -> option payload.
Variable unpack : string -> payload -> option (list number).

(** A [GtnetChannel].  [sock_open] is [self._sock is not None]; [last_tx]
    is the local of [_tx_loop]; [wire] lists the frames written by
    [sendall], [delivered] the frames handed to the [on_meas] listener. *)
Record Channel : Type := {
  spec : ChannelSpec;
  tx_keepalive_s : option spec_float;
  sock_open : bool;
  latest_meas : pydict number;
  cmd_state : gmap string number;
  dirty : bool;
  stats : ChannelStats;
  last_tx : spec_float;
  wire : list payload;
  delivered : list (pydict number)
}.

Definition set_cmd_state (c : Channel) (cs : gmap string number) : Channel :=
  {| spec := spec c; tx_keepalive_s := tx_keepalive_s c;
     sock_open := sock_open c; latest_meas := latest_meas c;
     cmd_state := cs; dirty := dirty c; stats := stats c;
     last_tx := last_tx c; wire := wire c; delivered := delivered c |}.

Definition set_dirty (c : Channel) (d : bool) : Channel :=
  {| spec := spec c; tx_keepalive_s := tx_keepalive_s c;
     sock_open := sock_open c; latest_meas := latest_meas c;
     cmd_state := cmd_state c; dirty := d; stats := stats c;
     last_tx := last_tx c; wire := wire c; delivered := delivered c |}.

(** [__init__]: every command starts at [0] or [0.0]; nothing is dirty. *)
Definition init_cmd_state (sp : ChannelSpec) : gmap string number :=
  fold_left
    (fun cs nt =>
       <[fst nt := if String.eqb (snd nt) "int" then NInt 0 else NFloat f_zero]> cs)
    (zip (cmd_names sp) (cmd_types sp)) ∅.

Definition init (sp : ChannelSpec) (keepalive : option spec_float) : Channel :=
  {| spec := sp; tx_keepalive_s := keepalive;
     sock_open := false; latest_meas := [];
     cmd_state := init_cmd_state sp; dirty := false;
     stats := ChannelStats_init;
     last_tx := f_zero; wire := []; delivered := [] |}.

Definition get_latest_meas (c : Channel) : pydict number := latest_meas c.
Definition get_cmd_state (c : Channel) : gmap string number := cmd_state c.

(** The coercion of one update in [set_cmd]:
    [idx = list(cmd_names).index(k); typ = cmd_types[idx];
     nv = int(v) if typ == "int" else float(v)]. *)
Definition coerce (sp : ChannelSpec) (k : string) (v : number) : result number :=
  bind (index k (cmd_names sp)) (fun idx =>
  bind (getitem (cmd_types sp) idx) (fun typ =>
  if String.eqb typ "int" then bind (py_int v) (fun z => Ok (NInt z))
  else bind (py_float v) (fun f => Ok (NFloat f)))).

(** The loop of [set_cmd] over [updates.items()].  It returns the exception
    that left the loop, if any, with the command state and the [changed]
    local as they stand at that point. *)
Fixpoint set_cmd_loop (sp : ChannelSpec) (updates : list (string * number))
    (cs : gmap string number) (changed : bool)
    : option exn * gmap string number * bool :=
  match updates with
  | [] => (None, cs, changed)
  | (k, v) :: rest =>
      match cs !! k with
      | None => (Some KeyError, cs, changed)
      | Some old =>
          match coerce sp k v with
          | Raise e => (Some e, cs, changed)
          | Ok nv =>
              if py_ne old nv
              then set_cmd_loop sp rest (<[k := nv]> cs) true
              else set_cmd_loop sp rest cs changed
          end
      end
  end.

(** [set_cmd(updates)]: the assignment [self._dirty = True] follows the
    loop, so an exception leaves [_dirty] as it was. *)
Definition set_cmd (updates : list (string * number)) (c : Channel)
    : result unit * Channel :=
  match set_cmd_loop (spec c) updates (cmd_state c) false with
  | (Some e, cs, _) => (Raise e, set_cmd_state c cs)
  | (None, cs, changed) =>
      (Ok tt, if changed then set_dirty (set_cmd_state c cs) true
              else set_cmd_state c cs)
  end.

Definition set_cmd_word (nm : string) (value : number) (c : Channel)
    : result unit * Channel :=
  set_cmd [(nm, value)] c.

(** No value of an update is NaN. *)
Definition no_nan (u : list (string * number)) : Prop :=
  Forall (fun kv => snd kv <> NFloat S754_nan) u.

(** Every update compares equal to the value the command state holds. *)
Definition settled (sp : ChannelSpec) (u : list (string * number))
    (cs : gmap string number) : Prop :=
  Forall (fun kv => exists old nv,
            cs !! fst kv = Some old /\ coerce sp (fst kv) (snd kv) = Ok nv /\
            py_ne old nv = false) u.

(** [_handle_disconnect]: note the time, close the socket, and mark the
    channel dirty so that the first send after reconnecting pushes the
    current command state. *)
Definition _handle_disconnect (now : spec_float) (c : Channel) : Channel :=
  let st := stats c in
  {| spec := spec c; tx_keepalive_s := tx_keepalive_s c;
     sock_open := false;
     latest_meas := latest_meas c; cmd_state := cmd_state c;
     dirty := true;
     stats := {| connected := false;
                 last_connect_time := last_connect_time st;
                 last_disconnect_time := now;
                 rx_frames := rx_frames st; tx_frames := tx_frames st;
                 rx_errors := rx_errors st; tx_errors := tx_errors st;
                 reconnects := reconnects st;
                 last_rx_time := last_rx_time st;
                 last_tx_time := last_tx_time st |};
     last_tx := last_tx c; wire := wire c; delivered := delivered c |}.

(** [_ensure_connected].  With a socket open it returns at once.  Otherwise
    it blocks in the backoff loop; [conn] is how that loop ends: [Some t]
    when [_connect] succeeded at time [t], [None] when it gave up (stop
    requested, or [reconnect] off), in which case the caller's loop breaks. *)
Definition _ensure_connected (conn : option spec_float) (c : Channel)
    : option Channel :=
  if sock_open c then Some c
  else match conn with
       | None => None
       | Some t =>
           let st := stats c in
           Some {| spec := spec c; tx_keepalive_s := tx_keepalive_s c;
                   sock_open := true;
                   latest_meas := latest_meas c; cmd_state := cmd_state c;
                   dirty := dirty c;
                   stats := {| connected := true;
                               last_connect_time := t;
                               last_disconnect_time := last_disconnect_time st;
                               rx_frames := rx_frames st; tx_frames := tx_frames st;
                               rx_errors := rx_errors st; tx_errors := tx_errors st;
                               reconnects := reconnects st + 1;
                               last_rx_time := last_rx_time st;
                               last_tx_time := last_tx_time st |};
                   last_tx := last_tx c; wire := wire c;
                   delivered := delivered c |}
       end.

(** [_ok_to_send]: optional gating on the ReadyToSend telemetry word. *)
Definition _ok_to_send (c : Channel) : bool :=
  if negb (truthy_name (ready_to_send_name (spec c)))
     || negb (require_ready_to_send (spec c))
  then true
  else
    let meas := get_latest_meas c in
    let rts := match ready_to_send_name (spec c) with
               | Some n => dict_get meas n
               | None => None
               end in
    match py_int_opt rts with
    | Ok z => z =? 1
    | Raise _ => false
    end.

(** [[self._cmd_state[name] for name in self.spec.cmd_names]] *)
Fixpoint cmd_values (cs : gmap string number) (names : list string)
    : result (list number) :=
  match names with
  | [] => Ok []
  | n :: r =>
      match cs !! n with
      | None => Raise KeyError
      | Some v => bind (cmd_values cs r) (fun vs => Ok (v :: vs))
      end
  end.

Definition _build_cmd_payload (c : Channel) : result payload :=
  bind (cmd_values (cmd_state c) (cmd_names (spec c))) (fun vals =>
  match pack (cmd_fmt (spec c)) vals with
  | Some p => Ok p
  | None => Raise StructError
  end).

(** What one pass of [_tx_loop] meets outside the channel. *)
Record TxEnv : Type := {
  tx_conn : option spec_float;    (* outcome of the connect loop, if entered *)
  tx_now : spec_float;            (* [now = time.time()] *)
  tx_send_ok : bool;              (* [sendall] returns rather than raises *)
  tx_err_now : spec_float         (* [time.time()] in [_handle_disconnect] *)
}.

Definition tx_sent (now : spec_float) (p : payload) (c : Channel) : Channel :=
  let st := stats c in
  {| spec := spec c; tx_keepalive_s := tx_keepalive_s c;
     sock_open := sock_open c;
     latest_meas := latest_meas c; cmd_state := cmd_state c;
     dirty := false;
     stats := {| connected := connected st;
                 last_connect_time := last_connect_time st;
                 last_disconnect_time := last_disconnect_time st;
                 rx_frames := rx_frames st; tx_frames := tx_frames st + 1;
                 rx_errors := rx_errors st; tx_errors := tx_errors st;
                 reconnects := reconnects st;
                 last_rx_time := last_rx_time st;
                 last_tx_time := now |};
     last_tx := now; wire := wire c ++ [p]; delivered := delivered c |}.

Definition tx_failed (err_now : spec_float) (c : Channel) : Channel :=
  let st := stats c in
  _handle_disconnect err_now
    {| spec := spec c; tx_keepalive_s := tx_keepalive_s c;
       sock_open := sock_open c;
       latest_meas := latest_meas c; cmd_state := cmd_state c;
       dirty := dirty c;
       stats := {| connected := connected st;
                   last_connect_time := last_connect_time st;
                   last_disconnect_time := last_disconnect_time st;
                   rx_frames := rx_frames st; tx_frames := tx_frames st;
                   rx_errors := rx_errors st; tx_errors := tx_errors st + 1;
                   reconnects := reconnects st;
                   last_rx_time := last_rx_time st;
                   last_tx_time := last_tx_time st |};
       last_tx := last_tx c; wire := wire c; delivered := delivered c |}.

(** One pass of the body of [_tx_loop]; [None] is the loop's [break]. *)
Definition _tx_loop_body (env : TxEnv) (c : Channel) : option Channel :=
  match _ensure_connected (tx_conn env) c with
  | None => None
  | Some c1 =>
      let now := tx_now env in
      let should_keepalive :=
        match tx_keepalive_s c1 with
        | None => false
        | Some ka => f_le ka (f_sub now (last_tx c1))
        end in
      let should_send := dirty c1 || should_keepalive in
      if should_send && _ok_to_send c1 then
        match _build_cmd_payload c1 with
        | Ok p =>
            if sock_open c1 && tx_send_ok env
            then Some (tx_sent now p c1)
            else Some (tx_failed (tx_err_now env) c1)
        | Raise _ => Some (tx_failed (tx_err_now env) c1)
        end
      else Some c1
  end.

(** What one pass of [_rx_loop] meets outside the channel. *)
Record RxEnv : Type := {
  rx_conn : option spec_float;
  rx_recv : option payload;       (* [_recv_exact]; [None]: it raised *)
  rx_now : spec_float;
  rx_has_listener : bool;         (* [self.on_meas] is set *)
  rx_err_now : spec_float
}.

Definition rx_stored (now : spec_float) (listener : bool)
    (meas : pydict number) (c : Channel) : Channel :=
  let st := stats c in
  {| spec := spec c; tx_keepalive_s := tx_keepalive_s c;
     sock_open := sock_open c;
     latest_meas := meas; cmd_state := cmd_state c;
     dirty := dirty c;
     stats := {| connected := connected st;
                 last_connect_time := last_connect_time st;
                 last_disconnect_time := last_disconnect_time st;
                 rx_frames := rx_frames st + 1; tx_frames := tx_frames st;
                 rx_errors := rx_errors st; tx_errors := tx_errors st;
                 reconnects := reconnects st;
                 last_rx_time := now;
                 last_tx_time := last_tx_time st |};
     last_tx := last_tx c; wire := wire c;
     delivered := if listener then delivered c ++ [meas] else delivered c |}.

Definition rx_failed (err_now : spec_float) (c : Channel) : Channel :=
  let st := stats c in
  _handle_disconnect err_now
    {| spec := spec c; tx_keepalive_s := tx_keepalive_s c;
       sock_open := sock_open c;
       latest_meas := latest_meas c; cmd_state := cmd_state c;
       dirty := dirty c;
       stats := {| connected := connected st;
                   last_connect_time := last_connect_time st;
                   last_disconnect_time := last_disconnect_time st;
                   rx_frames := rx_frames st; tx_frames := tx_frames st;
                   rx_errors := rx_errors st + 1; tx_errors := tx_errors st;
                   reconnects := reconnects st;
                   last_rx_time := last_rx_time st;
                   last_tx_time := last_tx_time st |};
       last_tx := last_tx c; wire := wire c; delivered := delivered c |}.

(** One pass of the body of [_rx_loop].  A listener's own exception is
    caught inside the loop and changes nothing in the channel. *)
Definition _rx_loop_body (env : RxEnv) (c : Channel) : option Channel :=
  match _ensure_connected (rx_conn env) c with
  | None => None
  | Some c1 =>
      match rx_recv env with
      | None => Some (rx_failed (rx_err_now env) c1)
      | Some frame =>
          match unpack (meas_fmt (spec c1)) frame with
          | None => Some (rx_failed (rx_err_now env) c1)
          | Some values =>
              let meas := dict_of_items (zip (meas_names (spec c1)) values) in
              Some (rx_stored (rx_now env) (rx_has_listener env) meas c1)
          end
      end
  end.

(** The channel as a transition system: caller threads call [set_cmd], the
    two workers run passes of their loops.  Each call or pass is one step
    (the interleaving is taken at that granularity). *)
Inductive Event : Type :=
| EvSetCmd (updates : list (string * number))
| EvRx (env : RxEnv)
| EvTx (env : TxEnv).

Definition step (e : Event) (c : Channel) : Channel :=
  match e with
  | EvSetCmd u => snd (set_cmd u c)
  | EvRx env => match _rx_loop_body env c with Some c' => c' | None => c end
  | EvTx env => match _tx_loop_body env c with Some c' => c' | None => c end
  end.

Definition run (evs : list Event) (c : Channel) : Channel :=
  fold_left (fun c e => step e c) evs c.

End Channel.

End Gtnet.

(* --------------------------------------------------------------------- *)
(** ** Comms/comms_disruptions.py                                         *)
(* --------------------------------------------------------------------- *)

Module Disrupt.

(** [lo if x < lo else hi if x > hi else x] *)
Definition _clamp (x lo hi : spec_float) : spec_float :=
  if f_lt x lo then lo else if f_lt hi x then hi else x.

(** The builtin [max(a, b)] on floats: [b] when [b > a], else [a]. *)
Definition f_max (a b : spec_float) : spec_float :=
  if f_lt a b then b else a.

Module DataDegradationConfig.
Record t : Type := {
  enabled : bool;
  drop_prob : spec_float;
  freeze : bool;
  fixed_delay_s : spec_float;
  jitter_s : spec_float;
  add_noise : bool;
  noise_std : spec_float;
  keys : option (gset string)
}.
(** [DataDegradationConfig(enabled=False)] *)
Definition default : t :=
  {| enabled := false; drop_prob := f_zero; freeze := false;
     fixed_delay_s := f_zero; jitter_s := f_zero;
     add_noise := false; noise_std := f_zero; keys := None |}.
End DataDegradationConfig.

Module AutonomyDegradationConfig.
Record t : Type := {
  enabled : bool;
  block_all : bool;
  drop_prob : spec_float;
  fixed_delay_s : spec_float;
  jitter_s : spec_float
}.
(** [AutonomyDegradationConfig(enabled=False)] *)
Definition default : t :=
  {| enabled := false; block_all := false; drop_prob := f_zero;
     fixed_delay_s := f_zero; jitter_s := f_zero |}.
End AutonomyDegradationConfig.

Module D := DataDegradationConfig.
Module A := AutonomyDegradationConfig.

(** Lines handed to the injected logger. *)
Inductive LogEntry : Type :=
| LogDataCfg (ch : string)
| LogAutoCfg (ch : string)
| LogCleared (ch : string)
| LogClearedAll
| LogDroppedMeas (ch : string)
| LogBlockedCmd (ch : string)
| LogDroppedCmd (ch : string).

Section Disruptor.

(** The channel objects passed through [emit_cmd], and [random.Random]:
    its state and the three draws the class uses. *)
Context {chan : Type} {rng : Type}.
Variable rng_random : rng -> spec_float * rng.
Variable rng_gauss : spec_float -> spec_float -> rng -> spec_float * rng.
Variable rng_uniform : spec_float -> spec_float -> rng -> spec_float * rng.

Definition meas_call : Type := (string * pydict number)%type.
Definition cmd_call : Type := (chan * string * pydict number * string)%type.

(** A [ChannelDisruptor].  The two sinks are injected callables: the model
    records their calls in [meas_sunk] and [cmd_sunk].  A delayed delivery
    is a thread started with its sleep time; [meas_pending] and
    [cmd_pending] list the threads started. *)
Record ChannelDisruptor : Type := {
  _rng : rng;
  _data_cfg : gmap string D.t;
  _auto_cfg : gmap string A.t;
  _last_meas : gmap string (pydict number);
  meas_sunk : list meas_call;
  cmd_sunk : list cmd_call;
  meas_pending : list (spec_float * meas_call);
  cmd_pending : list (spec_float * cmd_call);
  log : list LogEntry
}.

Definition init (g : rng) : ChannelDisruptor :=
  {| _rng := g; _data_cfg := ∅; _auto_cfg := ∅; _last_meas := ∅;
     meas_sunk := []; cmd_sunk := [];
     meas_pending := []; cmd_pending := []; log := [] |}.

Definition set_data_degraded (channel_name : string) (cfg : D.t)
    (d : ChannelDisruptor) : ChannelDisruptor :=
  let cfg' :=
    {| D.enabled := D.enabled cfg;
       D.drop_prob := _clamp (D.drop_prob cfg) f_zero f_one;
       D.freeze := D.freeze cfg;
       D.fixed_delay_s := f_max f_zero (D.fixed_delay_s cfg);
       D.jitter_s := f_max f_zero (D.jitter_s cfg);
       D.add_noise := D.add_noise cfg;
       D.noise_std := f_max f_zero (D.noise_std cfg);
       D.keys := D.keys cfg |} in
  {| _rng := _rng d;
     _data_cfg := <[channel_name := cfg']> (_data_cfg d);
     _auto_cfg := _auto_cfg d; _last_meas := _last_meas d;
     meas_sunk := meas_sunk d; cmd_sunk := cmd_sunk d;
     meas_pending := meas_pending d; cmd_pending := cmd_pending d;
     log := log d ++ [LogDataCfg channel_name] |}.

Definition set_autonomy_degraded (channel_name : string) (cfg : A.t)
    (d : ChannelDisruptor) : ChannelDisruptor :=
  let cfg' :=
    {| A.enabled := A.enabled cfg;
       A.block_all := A.block_all cfg;
       A.drop_prob := _clamp (A.drop_prob cfg) f_zero f_one;
       A.fixed_delay_s := f_max f_zero (A.fixed_delay_s cfg);
       A.jitter_s := f_max f_zero (A.jitter_s cfg) |} in
  {| _rng := _rng d;
     _data_cfg := _data_cfg d;
     _auto_cfg := <[channel_name := cfg']> (_auto_cfg d);
     _last_meas := _last_meas d;
     meas_sunk := meas_sunk d; cmd_sunk := cmd_sunk d;
     meas_pending := meas_pending d; cmd_pending := cmd_pending d;
     log := log d ++ [LogAutoCfg channel_name] |}.

Definition clear_channel (channel_name : string) (d : ChannelDisruptor)
    : ChannelDisruptor :=
  {| _rng := _rng d;
     _data_cfg := delete channel_name (_data_cfg d);
     _auto_cfg := delete channel_name (_auto_cfg d);
     _last_meas := _last_meas d;
     meas_sunk := meas_sunk d; cmd_sunk := cmd_sunk d;
     meas_pending := meas_pending d; cmd_pending := cmd_pending d;
     log := log d ++ [LogCleared channel_name] |}.

Definition clear_all (d : ChannelDisruptor) : ChannelDisruptor :=
  {| _rng := _rng d;
     _data_cfg := ∅; _auto_cfg := ∅;
     _last_meas := _last_meas d;
     meas_sunk := meas_sunk d; cmd_sunk := cmd_sunk d;
     meas_pending := meas_pending d; cmd_pending := cmd_pending d;
     log := log d ++ [LogClearedAll] |}.

(** Setters for the parts [on_meas] and [emit_cmd] touch. *)
Definition with_rng (g : rng) (d : ChannelDisruptor) : ChannelDisruptor :=
  {| _rng := g; _data_cfg := _data_cfg d; _auto_cfg := _auto_cfg d;
     _last_meas := _last_meas d;
     meas_sunk := meas_sunk d; cmd_sunk := cmd_sunk d;
     meas_pending := meas_pending d; cmd_pending := cmd_pending d;
     log := log d |}.

Definition with_last_meas (ch : string) (m : pydict number)
    (d : ChannelDisruptor) : ChannelDisruptor :=
  {| _rng := _rng d; _data_cfg := _data_cfg d; _auto_cfg := _auto_cfg d;
     _last_meas := <[ch := m]> (_last_meas d);
     meas_sunk := meas_sunk d; cmd_sunk := cmd_sunk d;
     meas_pending := meas_pending d; cmd_pending := cmd_pending d;
     log := log d |}.

Definition _meas_sink (ch : string) (m : pydict number)
    (d : ChannelDisruptor) : ChannelDisruptor :=
  {| _rng := _rng d; _data_cfg := _data_cfg d; _auto_cfg := _auto_cfg d;
     _last_meas := _last_meas d;
     meas_sunk := meas_sunk d ++ [(ch, m)]; cmd_sunk := cmd_sunk d;
     meas_pending := meas_pending d; cmd_pending := cmd_pending d;
     log := log d |}.

Definition _cmd_sink (call : cmd_call) (d : ChannelDisruptor)
    : ChannelDisruptor :=
  {| _rng := _rng d; _data_cfg := _data_cfg d; _auto_cfg := _auto_cfg d;
     _last_meas := _last_meas d;
     meas_sunk := meas_sunk d; cmd_sunk := cmd_sunk d ++ [call];
     meas_pending := meas_pending d; cmd_pending := cmd_pending d;
     log := log d |}.

Definition start_meas_thread (delay : spec_float) (call : meas_call)
    (d : ChannelDisruptor) : ChannelDisruptor :=
  {| _rng := _rng d; _data_cfg := _data_cfg d; _auto_cfg := _auto_cfg d;
     _last_meas := _last_meas d;
     meas_sunk := meas_sunk d; cmd_sunk := cmd_sunk d;
     meas_pending := meas_pending d ++ [(delay, call)];
     cmd_pending := cmd_pending d;
     log := log d |}.

Definition start_cmd_thread (delay : spec_float) (call : cmd_call)
    (d : ChannelDisruptor) : ChannelDisruptor :=
  {| _rng := _rng d; _data_cfg := _data_cfg d; _auto_cfg := _auto_cfg d;
     _last_meas := _last_meas d;
     meas_sunk := meas_sunk d; cmd_sunk := cmd_sunk d;
     meas_pending := meas_pending d;
     cmd_pending := cmd_pending d ++ [(delay, call)];
     log := log d |}.

Definition _log (e : LogEntry) (d : ChannelDisruptor) : ChannelDisruptor :=
  {| _rng := _rng d; _data_cfg := _data_cfg d; _auto_cfg := _auto_cfg d;
     _last_meas := _last_meas d;
     meas_sunk := meas_sunk d; cmd_sunk := cmd_sunk d;
     meas_pending := meas_pending d; cmd_pending := cmd_pending d;
     log := log d ++ [e] |}.

(** The noise loop of [on_meas] over [list(out.items())]:
    [out[k] = float(v) + self._rng.gauss(0.0, cfg.noise_std)] for the
    selected keys. *)
Fixpoint noise_loop (sel : option (gset string)) (std : spec_float)
    (items : list (string * number)) (out : pydict number) (g : rng)
    : result (pydict number) * rng :=
  match items with
  | [] => (Ok out, g)
  | (k, v) :: r =>
      if match sel with
         | Some ks => negb (bool_decide (k ∈ ks))
         | None => false
         end
      then noise_loop sel std r out g
      else
        match py_float v with
        | Raise e => (Raise e, g)
        | Ok f =>
            let '(n, g') := rng_gauss f_zero std g in
            noise_loop sel std r (dict_set out k (NFloat (f_add f n))) g'
        end
  end.

(** [delay = fixed; if jitter > 0.0: delay += uniform(-jitter, jitter);
     delay = max(0.0, delay)] *)
Definition draw_delay (fixed jitter : spec_float) (g : rng)
    : spec_float * rng :=
  if f_lt f_zero jitter then
    let '(u, g') := rng_uniform (SFopp jitter) jitter g in
    (f_max f_zero (f_add fixed u), g')
  else (fixed, g).

(** [on_meas(channel_name, meas)] *)
Definition on_meas (channel_name : string) (meas : pydict number)
    (d : ChannelDisruptor) : result unit * ChannelDisruptor :=
  let cfg := default D.default (_data_cfg d !! channel_name) in
  (* keep last seen *)
  let d := with_last_meas channel_name meas d in
  if negb (D.enabled cfg) then (Ok tt, _meas_sink channel_name meas d)
  else if D.freeze cfg then
    match _last_meas d !! channel_name with
    | Some frozen => (Ok tt, _meas_sink channel_name frozen d)
    | None => (Ok tt, d)
    end
  else
    let '(dropped, g1) :=
      if f_lt f_zero (D.drop_prob cfg) then
        let '(r, g') := rng_random (_rng d) in (f_lt r (D.drop_prob cfg), g')
      else (false, _rng d) in
    if dropped then (Ok tt, _log (LogDroppedMeas channel_name) (with_rng g1 d))
    else
      let '(noisy, g2) :=
        if D.add_noise cfg && f_lt f_zero (D.noise_std cfg)
        then noise_loop (D.keys cfg) (D.noise_std cfg) meas meas g1
        else (Ok meas, g1) in
      match noisy with
      | Raise e => (Raise e, with_rng g2 d)
      | Ok out =>
          let '(delay, g3) :=
            draw_delay (D.fixed_delay_s cfg) (D.jitter_s cfg) g2 in
          if f_le delay f_zero
          then (Ok tt, _meas_sink channel_name out (with_rng g3 d))
          else (Ok tt, start_meas_thread delay (channel_name, out)
                         (with_rng g3 d))
      end.

(** [emit_cmd(channel_obj, channel_name, updates, note)] *)
Definition emit_cmd (channel_obj : chan) (channel_name : string)
    (updates : pydict number) (note : string)
    (d : ChannelDisruptor) : ChannelDisruptor :=
  let cfg := default A.default (_auto_cfg d !! channel_name) in
  if negb (A.enabled cfg)
  then _cmd_sink (channel_obj, channel_name, updates, note) d
  else if A.block_all cfg
  then _log (LogBlockedCmd channel_name) d
  else
    let '(dropped, g1) :=
      if f_lt f_zero (A.drop_prob cfg) then
        let '(r, g') := rng_random (_rng d) in (f_lt r (A.drop_prob cfg), g')
      else (false, _rng d) in
    if dropped then _log (LogDroppedCmd channel_name) (with_rng g1 d)
    else
      let '(delay, g2) :=
        draw_delay (A.fixed_delay_s cfg) (A.jitter_s cfg) g1 in
      if f_le delay f_zero
      then _cmd_sink (channel_obj, channel_name, updates, note) (with_rng g2 d)
      else start_cmd_thread delay (channel_obj, channel_name, updates, note)
             (with_rng g2 d).

(** Any number of calls, the configuration left alone in between. *)
Definition on_meas_all (channel_name : string) (frames : list (pydict number))
    (d : ChannelDisruptor) : ChannelDisruptor :=
  fold_left (fun d m => snd (on_meas channel_name m d)) frames d.

Definition emit_cmd_all (channel_obj : chan) (channel_name : string)
    (attempts : list (pydict number * string))
    (d : ChannelDisruptor) : ChannelDisruptor :=
  fold_left (fun d a => emit_cmd channel_obj channel_name (fst a) (snd a) d)
            attempts d.

End Disruptor.

End Disrupt.

(* --------------------------------------------------------------------- *)
(** ** Floats as exact rationals (controller and sequencer)               *)
(* --------------------------------------------------------------------- *)

Module PyQ.

Local Open Scope Q_scope.

(** Comparisons of floats. *)
Definition q_lt (a b : Q) : bool := if Qlt_le_dec a b then true else false.
Definition q_gt (a b : Q) : bool := q_lt b a.
Definition q_le (a b : Q) : bool := negb (q_lt b a).
Definition q_ge (a b : Q) : bool := negb (q_lt a b).
Definition q_eq (a b : Q) : bool := Qeq_bool a b.

(** The builtins [min(a, b)] and [max(a, b)]: the first argument unless
    the second is strictly smaller (larger). *)
Definition py_min (a b : Q) : Q := if q_lt b a then b else a.
Definition py_max (a b : Q) : Q := if q_gt b a then b else a.

(** [a / b] *)
Definition py_div (a b : Q) : result Q :=
  if Qeq_dec b 0 then Raise ZeroDivisionError else Ok (a / b).

End PyQ.

Import PyQ.

(* --------------------------------------------------------------------- *)
(** ** DG_controller.py                                                   *)
(* --------------------------------------------------------------------- *)

Module DG.

Local Open Scope Q_scope.

Definition clamp (x lo hi : Q) : Q := py_max lo (py_min hi x).

Definition sign (x : Q) : Q :=
  if q_gt x 0 then 1 else if q_lt x 0 then - (1) else 0.

(** First-order low-pass filter. *)
Module LowPass.
Record t : Type := { tau : Q; y : option Q }.

Definition step (x dt : Q) (f : t) : result Q * t :=
  match y f with
  | None => (Ok x, {| tau := tau f; y := Some x |})
  | Some y0 =>
      if q_le (tau f) 0 then (Ok x, {| tau := tau f; y := Some x |})
      else
        match py_div dt (tau f + dt) with
        | Raise e => (Raise e, f)
        | Ok a =>
            let y1 := (1 - a) * y0 + a * x in
            (Ok y1, {| tau := tau f; y := Some y1 |})
        end
  end.
End LowPass.

(** Limits rate of change of a signal. *)
Module RateLimiter.
Record t : Type := { up : Q; down : Q; y : option Q }.

Definition step (x dt : Q) (r : t) : Q * t :=
  match y r with
  | None => (x, {| up := up r; down := down r; y := Some x |})
  | Some y0 =>
      let dy := x - y0 in
      let max_up := up r * dt in
      let max_dn := down r * dt in
      let dy :=
        if q_gt dy max_up then max_up
        else if q_lt dy (- max_dn) then - max_dn
        else dy in
      let y1 := y0 + dy in
      (y1, {| up := up r; down := down r; y := Some y1 |})
  end.
End RateLimiter.

(** A float measurement as it arrives: finite, or NaN / an infinity. *)
Inductive pyfloat : Type :=
| Fin (q : Q)
| NonFinite.

Record DGMeasurements : Type := {
  NewDataSeq : option Z;
  ReadyToSend : option Z;
  SocketOverflow : option Z;
  InvalidMsg : option Z;
  PGEN : option pyfloat;
  QGEN : option pyfloat;
  PMACH : option pyfloat;
  QMACH : option pyfloat;
  SMACH : option pyfloat;
  GENRMSPU : option pyfloat;
  OVERLOADED : option Z;
  BRKGEN : option Z;
  WPU : option pyfloat
}.

Record DGCommands : Type := {
  REM_BLOCKGEN : Z;
  REM_Wref : Q;
  REM_PREF : Q;
  REM_RESETGEN : Z
}.

Record DGControllerConfig : Type := {
  Wref_base : Q;
  Pref_base : Q;
  Wref_min : Q;
  Wref_max : Q;
  Pref_min : Q;
  Pref_max : Q;
  WPU_target : Q;
  WPU_deadband : Q;
  SMACH_limit : Q;
  SMACH_margin : Q;
  Vmin_pu : Q;
  Vsoft_pu : Q;
  k_pref_wpu : Q;
  k_wref_wpu : Q;
  meas_lpf_tau : Q;
  wref_rate_up : Q;
  wref_rate_down : Q;
  pref_rate_up : Q;
  pref_rate_down : Q;
  max_stale_s : Q;
  overload_soft_drop : Q;
  overload_hard_after_s : Q;
  reset_pulse_s : Q
}.

(** The defaults of the dataclass. *)
Definition DGControllerConfig_default : DGControllerConfig :=
  {| Wref_base := 1; Pref_base := 0;
     Wref_min := 98 # 100; Wref_max := 102 # 100;
     Pref_min := - (1); Pref_max := 1;
     WPU_target := 1; WPU_deadband := 15 # 10000;
     SMACH_limit := 150 # 100; SMACH_margin := 5 # 100;
     Vmin_pu := 92 # 100; Vsoft_pu := 96 # 100;
     k_pref_wpu := 2; k_wref_wpu := 2 # 10;
     meas_lpf_tau := 15 # 100;
     wref_rate_up := 1 # 100; wref_rate_down := 2 # 100;
     pref_rate_up := 20 # 100; pref_rate_down := 30 # 100;
     max_stale_s := 50 # 100;
     overload_soft_drop := 30 # 100; overload_hard_after_s := 1;
     reset_pulse_s := 10 # 100 |}.

Record DGController : Type := {
  cfg : DGControllerConfig;
  _f_wpu : LowPass.t;
  _f_smach : LowPass.t;
  _f_vpu : LowPass.t;
  _rl_wref : RateLimiter.t;
  _rl_pref : RateLimiter.t;
  _last_meas_ts : option Q;
  _last_cmd : DGCommands;
  _overload_start_ts : option Q;
  _reset_until_ts : Q;
  enabled : bool;
  remote_block_override : option Z
}.

(** [DGController(cfg)] *)
Definition init (c : DGControllerConfig) : DGController :=
  {| cfg := c;
     _f_wpu := {| LowPass.tau := meas_lpf_tau c; LowPass.y := None |};
     _f_smach := {| LowPass.tau := meas_lpf_tau c; LowPass.y := None |};
     _f_vpu := {| LowPass.tau := meas_lpf_tau c; LowPass.y := None |};
     _rl_wref := {| RateLimiter.up := wref_rate_up c;
                    RateLimiter.down := wref_rate_down c;
                    RateLimiter.y := Some (Wref_base c) |};
     _rl_pref := {| RateLimiter.up := pref_rate_up c;
                    RateLimiter.down := pref_rate_down c;
                    RateLimiter.y := Some (Pref_base c) |};
     _last_meas_ts := None;
     _last_cmd := {| REM_BLOCKGEN := 1%Z; REM_Wref := Wref_base c;
                     REM_PREF := Pref_base c; REM_RESETGEN := 0%Z |};
     _overload_start_ts := None;
     _reset_until_ts := 0;
     enabled := true;
     remote_block_override := None |}.

(** Field updates. *)
Definition set_f_wpu (f : LowPass.t) (s : DGController) : DGController :=
  {| cfg := cfg s; _f_wpu := f; _f_smach := _f_smach s; _f_vpu := _f_vpu s;
     _rl_wref := _rl_wref s; _rl_pref := _rl_pref s;
     _last_meas_ts := _last_meas_ts s; _last_cmd := _last_cmd s;
     _overload_start_ts := _overload_start_ts s;
     _reset_until_ts := _reset_until_ts s; enabled := enabled s;
     remote_block_override := remote_block_override s |}.

Definition set_f_smach (f : LowPass.t) (s : DGController) : DGController :=
  {| cfg := cfg s; _f_wpu := _f_wpu s; _f_smach := f; _f_vpu := _f_vpu s;
     _rl_wref := _rl_wref s; _rl_pref := _rl_pref s;
     _last_meas_ts := _last_meas_ts s; _last_cmd := _last_cmd s;
     _overload_start_ts := _overload_start_ts s;
     _reset_until_ts := _reset_until_ts s; enabled := enabled s;
     remote_block_override := remote_block_override s |}.

Definition set_f_vpu (f : LowPass.t) (s : DGController) : DGController :=
  {| cfg := cfg s; _f_wpu := _f_wpu s; _f_smach := _f_smach s; _f_vpu := f;
     _rl_wref := _rl_wref s; _rl_pref := _rl_pref s;
     _last_meas_ts := _last_meas_ts s; _last_cmd := _last_cmd s;
     _overload_start_ts := _overload_start_ts s;
     _reset_until_ts := _reset_until_ts s; enabled := enabled s;
     remote_block_override := remote_block_override s |}.

Definition set_rl (w p : RateLimiter.t) (s : DGController) : DGController :=
  {| cfg := cfg s; _f_wpu := _f_wpu s; _f_smach := _f_smach s;
     _f_vpu := _f_vpu s;
     _rl_wref := w; _rl_pref := p;
     _last_meas_ts := _last_meas_ts s; _last_cmd := _last_cmd s;
     _overload_start_ts := _overload_start_ts s;
     _reset_until_ts := _reset_until_ts s; enabled := enabled s;
     remote_block_override := remote_block_override s |}.

Definition set_last_meas_ts (t : option Q) (s : DGController) : DGController :=
  {| cfg := cfg s; _f_wpu := _f_wpu s; _f_smach := _f_smach s;
     _f_vpu := _f_vpu s;
     _rl_wref := _rl_wref s; _rl_pref := _rl_pref s;
     _last_meas_ts := t; _last_cmd := _last_cmd s;
     _overload_start_ts := _overload_start_ts s;
     _reset_until_ts := _reset_until_ts s; enabled := enabled s;
     remote_block_override := remote_block_override s |}.

Definition set_last_cmd (c : DGCommands) (s : DGController) : DGController :=
  {| cfg := cfg s; _f_wpu := _f_wpu s; _f_smach := _f_smach s;
     _f_vpu := _f_vpu s;
     _rl_wref := _rl_wref s; _rl_pref := _rl_pref s;
     _last_meas_ts := _last_meas_ts s; _last_cmd := c;
     _overload_start_ts := _overload_start_ts s;
     _reset_until_ts := _reset_until_ts s; enabled := enabled s;
     remote_block_override := remote_block_override s |}.

Definition set_overload_start_ts (t : option Q) (s : DGController)
    : DGController :=
  {| cfg := cfg s; _f_wpu := _f_wpu s; _f_smach := _f_smach s;
     _f_vpu := _f_vpu s;
     _rl_wref := _rl_wref s; _rl_pref := _rl_pref s;
     _last_meas_ts := _last_meas_ts s; _last_cmd := _last_cmd s;
     _overload_start_ts := t;
     _reset_until_ts := _reset_until_ts s; enabled := enabled s;
     remote_block_override := remote_block_override s |}.

Definition set_reset_until_ts (t : Q) (s : DGController) : DGController :=
  {| cfg := cfg s; _f_wpu := _f_wpu s; _f_smach := _f_smach s;
     _f_vpu := _f_vpu s;
     _rl_wref := _rl_wref s; _rl_pref := _rl_pref s;
     _last_meas_ts := _last_meas_ts s; _last_cmd := _last_cmd s;
     _overload_start_ts := _overload_start_ts s;
     _reset_until_ts := t; enabled := enabled s;
     remote_block_override := remote_block_override s |}.

(** [request_reset(now)] *)
Definition request_reset (now : Q) (s : DGController) : DGController :=
  set_reset_until_ts
    (py_max (_reset_until_ts s) (now + reset_pulse_s (cfg s))) s.

Definition is_some {A} (o : option A) : bool :=
  match o with Some _ => true | None => false end.

Definition _measurements_present (meas : DGMeasurements) : bool :=
  is_some (SMACH meas) || is_some (WPU meas) || is_some (OVERLOADED meas).

Definition _is_stale (now : Q) (s : DGController) : bool :=
  match _last_meas_ts s with
  | None => false
  | Some ts => q_gt (now - ts) (max_stale_s (cfg s))
  end.

(** [_get_filtered(filt, x, dt)]: a missing or non-finite sample leaves the
    filter alone. *)
Definition _get_filtered (filt : LowPass.t) (x : option pyfloat) (dt : Q)
    : result (option Q) * LowPass.t :=
  match x with
  | None => (Ok None, filt)
  | Some NonFinite => (Ok None, filt)
  | Some (Fin q) =>
      match LowPass.step q dt filt with
      | (Ok v, f') => (Ok (Some v), f')
      | (Raise e, f') => (Raise e, f')
      end
  end.

Definition _pref_from_smach (c : DGControllerConfig) (smach : Q) : result Q :=
  let limit := SMACH_limit c in
  let margin := SMACH_margin c in
  let soft := limit - margin in
  if q_ge smach limit then
    (* Strong pull-down *)
    let exceed := smach - limit in
    Ok (- (5 # 10) - 2 * exceed)
  else if q_ge smach soft then
    (* Gentle pull-down as you approach the limit *)
    bind (py_div (smach - soft) (py_max margin (1 # 1000000)))
         (fun closeness => Ok (- (2 # 10) * closeness))
  else Ok 0.

Definition _pref_from_wpu (c : DGControllerConfig) (wpu : Q) : Q :=
  let e := WPU_target c - wpu in
  if q_lt (Qabs e) (WPU_deadband c) then 0
  else k_pref_wpu c * e.

Definition _wref_from_wpu (c : DGControllerConfig) (wpu : Q) : Q :=
  let e := WPU_target c - wpu in
  if q_lt (Qabs e) (WPU_deadband c) then 0
  else k_wref_wpu c * e.

Definition _apply_voltage_guard (c : DGControllerConfig) (pref_cmd vpu : Q)
    : result Q :=
  if q_lt vpu (Vmin_pu c) then
    (* hard clamp: don't increase Pref beyond base *)
    Ok (py_min pref_cmd (Pref_base c))
  else if q_lt vpu (Vsoft_pu c) then
    (* soften positive Pref *)
    if q_gt pref_cmd (Pref_base c) then
      let extra := pref_cmd - Pref_base c in
      bind (py_div (vpu - Vmin_pu c) (Vsoft_pu c - Vmin_pu c)) (fun r =>
      let scale := clamp r 0 1 in
      Ok (Pref_base c + extra * scale))
    else Ok pref_cmd
  else Ok pref_cmd.

(** [_handle_overload_logic(overloaded, pref_cmd, now)]:
    returns [(block_cmd, reset_cmd, pref_cmd)]. *)
Definition _handle_overload_logic (overloaded : option Z) (pref_cmd now : Q)
    (s : DGController) : (Z * Z * Q) * DGController :=
  let block_cmd := 1%Z in
  let reset_cmd := if q_lt now (_reset_until_ts s) then 1%Z else 0%Z in
  match overloaded with
  | None => ((block_cmd, reset_cmd, pref_cmd), s)
  | Some ov =>
      if negb (ov =? 0)%Z then
        let start := match _overload_start_ts s with
                     | None => now
                     | Some t => t
                     end in
        let s1 := set_overload_start_ts (Some start) s in
        let pref_cmd := pref_cmd - Qabs (overload_soft_drop (cfg s1)) in
        if q_ge (now - start) (overload_hard_after_s (cfg s1))
        then
          let s2 := request_reset now s1 in
          let reset_cmd :=
            if q_lt now (_reset_until_ts s2) then 1%Z else reset_cmd in
          ((0%Z, reset_cmd, pref_cmd), s2)
        else ((block_cmd, reset_cmd, pref_cmd), s1)
      else ((block_cmd, reset_cmd, pref_cmd), set_overload_start_ts None s)
  end.

(** [_hold_last(dt)]; [clock] is [time.time()]. *)
Definition _hold_last (dt clock : Q) (s : DGController)
    : DGCommands * DGController :=
  let lc := _last_cmd s in
  let w := {| RateLimiter.up := RateLimiter.up (_rl_wref s);
              RateLimiter.down := RateLimiter.down (_rl_wref s);
              RateLimiter.y := Some (REM_Wref lc) |} in
  let p := {| RateLimiter.up := RateLimiter.up (_rl_pref s);
              RateLimiter.down := RateLimiter.down (_rl_pref s);
              RateLimiter.y := Some (REM_PREF lc) |} in
  let s1 := set_rl w p s in
  let lc' :=
    if q_ge clock (_reset_until_ts s1)
    then {| REM_BLOCKGEN := REM_BLOCKGEN lc; REM_Wref := REM_Wref lc;
            REM_PREF := REM_PREF lc; REM_RESETGEN := 0%Z |}
    else lc in
  (lc', set_last_cmd lc' s1).

(** [_hold_safe_base(dt)] *)
Definition _hold_safe_base (dt clock : Q) (s : DGController)
    : DGCommands * DGController :=
  let '(wref_out, w) := RateLimiter.step (Wref_base (cfg s)) dt (_rl_wref s) in
  let '(pref_out, p) := RateLimiter.step (Pref_base (cfg s)) dt (_rl_pref s) in
  let s1 := set_rl w p s in
  let reset_cmd := if q_lt clock (_reset_until_ts s1) then 1%Z else 0%Z in
  let out := {| REM_BLOCKGEN := 1%Z; REM_Wref := wref_out;
                REM_PREF := pref_out; REM_RESETGEN := reset_cmd |} in
  (out, set_last_cmd out s1).

(** State-and-exception monad for [update]: the controller object is
    threaded through, and an exception leaves it as mutated so far. *)
Definition M (A : Type) : Type := DGController -> result A * DGController.

Definition ret {A} (a : A) : M A := fun s => (Ok a, s).

Definition mbind {A B} (m : M A) (k : A -> M B) : M B :=
  fun s => match m s with
           | (Ok a, s') => k a s'
           | (Raise e, s') => (Raise e, s')
           end.

Definition lift {A} (r : result A) : M A := fun s => (r, s).
Definition gets {A} (f : DGController -> A) : M A := fun s => (Ok (f s), s).
Definition modify (f : DGController -> DGController) : M unit :=
  fun s => (Ok tt, f s).
Definition total {A} (f : DGController -> A * DGController) : M A :=
  fun s => let '(a, s') := f s in (Ok a, s').

Notation "'let*' x <- m 'in' k" := (mbind m (fun x => k))
  (at level 10, x name, m at level 100, k at level 200).
Notation "'let*' '_' <- m 'in' k" := (mbind m (fun _ => k))
  (at level 10, m at level 100, k at level 200).

Definition filter_wpu (x : option pyfloat) (dt : Q) : M (option Q) :=
  fun s => let '(r, f) := _get_filtered (_f_wpu s) x dt in (r, set_f_wpu f s).
Definition filter_smach (x : option pyfloat) (dt : Q) : M (option Q) :=
  fun s => let '(r, f) := _get_filtered (_f_smach s) x dt in (r, set_f_smach f s).
Definition filter_vpu (x : option pyfloat) (dt : Q) : M (option Q) :=
  fun s => let '(r, f) := _get_filtered (_f_vpu s) x dt in (r, set_f_vpu f s).

(** [update(meas, dt, now)]: one control step.  [clock] is what
    [time.time()] returns during the call. *)
Definition update (meas : DGMeasurements) (dt : Q) (now : option Q)
    (clock : Q) : M DGCommands :=
  let now := match now with Some t => t | None => clock end in
  let* en <- gets enabled in
  (* If disabled, hold safe base *)
  if negb en then total (_hold_safe_base dt clock)
  else
    (* Data freshness *)
    let* _ <- (if _measurements_present meas
     then modify (set_last_meas_ts (Some now)) else ret tt) in
    let* stale <- gets (_is_stale now) in
    if stale then total (_hold_last dt clock)
    else
      (* Filter key signals *)
      let* wpu <- filter_wpu (WPU meas) dt in
      let* smach <- filter_smach (SMACH meas) dt in
      let* vpu <- filter_vpu (GENRMSPU meas) dt in
      let* c <- gets cfg in
      (* Start from base setpoints *)
      let wref_cmd := Wref_base c in
      let pref_cmd := Pref_base c in
      (* 1) Soft envelope protection based on loading *)
      let* pref_cmd <- match smach with
                  | Some sm =>
                      lift (bind (_pref_from_smach c sm)
                                 (fun d => Ok (pref_cmd + d)))
                  | None => ret pref_cmd
                  end in
      (* 2) Frequency/speed support *)
      let '(pref_cmd, wref_cmd) :=
        match wpu with
        | Some w => (pref_cmd + _pref_from_wpu c w,
                     wref_cmd + _wref_from_wpu c w)
        | None => (pref_cmd, wref_cmd)
        end in
      (* 3) Voltage guardrail *)
      let* pref_cmd <- match vpu with
                  | Some v => lift (_apply_voltage_guard c pref_cmd v)
                  | None => ret pref_cmd
                  end in
      (* 4) Overload latch handling *)
      let* r <- total (_handle_overload_logic (OVERLOADED meas) pref_cmd now) in
      let '(block_cmd, reset_cmd, pref_cmd) := r in
      (* 5) External override for block *)
      let* override <- gets remote_block_override in
      let block_cmd := match override with
                       | Some b => b
                       | None => block_cmd
                       end in
      (* Saturate + rate limit outputs *)
      let wref_cmd := clamp wref_cmd (Wref_min c) (Wref_max c) in
      let pref_cmd := clamp pref_cmd (Pref_min c) (Pref_max c) in
      let* rw <- gets _rl_wref in
      let* rp <- gets _rl_pref in
      let '(wref_out, w) := RateLimiter.step wref_cmd dt rw in
      let '(pref_out, p) := RateLimiter.step pref_cmd dt rp in
      let out := {| REM_BLOCKGEN := block_cmd; REM_Wref := wref_out;
                    REM_PREF := pref_out; REM_RESETGEN := reset_cmd |} in
      let* _ <- modify (fun s => set_last_cmd out (set_rl w p s)) in
      ret out.

End DG.

(* --------------------------------------------------------------------- *)
(** ** run_islanding_dg_load_test.py: stability checks                    *)
(* --------------------------------------------------------------------- *)

Module Stability.

Local Open Scope Q_scope.

(** A sample value: an [int] (flags, breaker positions) or a [float]. *)
Inductive value : Type :=
| VInt (z : Z)
| VFloat (q : Q).

Definition to_Q (v : value) : Q :=
  match v with
  | VInt z => inject_Z z
  | VFloat q => q
  end.

(** [isinstance(v, int)] *)
Definition is_int (v : value) : bool :=
  match v with VInt _ => true | VFloat _ => false end.

(** [s.get(name)] on a sample, a dict whose values may be [None]. *)
Definition sample_get (s : gmap string (option value)) (nm : string)
    : option value :=
  match s !! nm with
  | Some (Some v) => Some v
  | _ => None
  end.

(** One entry of [limits]: the keys "span", "step" and "required". *)
Record limit_cfg : Type := {
  span : option Q;
  step : option Q;
  required : bool
}.

Fixpoint max_step_loop (prev : Q) (rest : list Q) (m : Q) : Q :=
  match rest with
  | [] => m
  | v :: r =>
      let dv := Qabs (v - prev) in
      max_step_loop v r (if q_gt dv m then dv else m)
  end.

(** [_max_step(values)] *)
Definition _max_step (values : list Q) : Q :=
  match values with
  | [] => 0
  | v :: r => max_step_loop v r 0
  end.

(** The builtins [max(xs)] and [min(xs)] on a non-empty list. *)
Definition list_max (x : Q) (xs : list Q) : Q :=
  fold_left (fun m v => if q_gt v m then v else m) xs x.
Definition list_min (x : Q) (xs : list Q) : Q :=
  fold_left (fun m v => if q_lt v m then v else m) xs x.

(** [[s[name] for s in samples if s.get(name) is not None]] *)
Definition present (samples : list (gmap string (option value)))
    (nm : string) : list value :=
  omap (fun s => sample_get s nm) samples.

(** The presence check of one entry of [limits]:
    [len(vals) < max(5, len(samples) // 2)] fails it. *)
Definition required_ok (samples : list (gmap string (option value)))
    (lim : string * limit_cfg) : bool :=
  if required (snd lim) then
    negb (length (present samples (fst lim))
          <? Nat.max 5 (length samples / 2))%nat
  else true.

(** [ov and max(ov) != 0] fails the window. *)
Definition flag_ok (samples : list (gmap string (option value)))
    (nm : string) : bool :=
  match map to_Q (present samples nm) with
  | [] => true
  | x :: xs => q_eq (list_max x xs) 0
  end.

(** The span and step check of one entry of [limits]. *)
Definition limit_ok (samples : list (gmap string (option value)))
    (lim : string * limit_cfg) : bool :=
  let vals := present samples (fst lim) in
  match vals with
  | [] => true
  | v0 :: _ =>
      if is_int v0 then
        match step (snd lim) with
        | Some b => negb (q_gt (_max_step (map to_Q vals)) b)
        | None => true
        end
      else
        match map to_Q vals with
        | [] => true
        | x :: xs =>
            let sp := list_max x xs - list_min x xs in
            let st := _max_step (x :: xs) in
            match span (snd lim) with
            | Some b => negb (q_gt sp b)
            | None => true
            end
            && match step (snd lim) with
               | Some b => negb (q_gt st b)
               | None => true
               end
        end
  end.

(** [_stable_window_ok(samples, limits=limits)] *)
Definition _stable_window_ok (samples : list (gmap string (option value)))
    (limits : list (string * limit_cfg)) : bool :=
  if (length samples <? 10)%nat then false
  else if negb (forallb (required_ok samples) limits) then false
  else if negb (flag_ok samples "OVERLOADED") then false
  else if negb (flag_ok samples "W_DETECTED") then false
  else forallb (limit_ok samples) limits.

End Stability.

(* --------------------------------------------------------------------- *)
(** ** Comms/channel_specs.py, and values to run the model on             *)
(* --------------------------------------------------------------------- *)

Module Specs.

Definition CHANNEL_1 : Gtnet.ChannelSpec :=
  {| Gtnet.name := "CH1";
     Gtnet.cmd_types := ["int"; "int"; "float"; "int"];
     Gtnet.meas_names :=
       ["NewDataFlag_1_"; "NewDataSeq_1_"; "ReadyToSend_1_";
        "SocketOverflow_1_"; "InvalidMsg_1_"; "MODE"; "PGRID"; "QGRID";
        "N650RMSPU"; "IGRIDA"; "IGRIDB"; "IGRIDC"; "GRID"];
     Gtnet.meas_fmt := ">iiiiiiffffffi";
     Gtnet.cmd_names :=
       ["REM_GRID"; "REM_LGFLTx"; "REM_LGFTIMEx"; "REM_LGFLTxType"];
     Gtnet.cmd_fmt := ">iifi";
     Gtnet.ready_to_send_name := Some "ReadyToSend_1_";
     Gtnet.require_ready_to_send := true;
     Gtnet.reconnect := true |}.

Definition CHANNEL_4 : Gtnet.ChannelSpec :=
  {| Gtnet.name := "CH4";
     Gtnet.cmd_types := ["float"; "float"];
     Gtnet.meas_names :=
       ["NewDataFlag_4_"; "NewDataSeq_4_"; "ReadyToSend_4_";
        "SocketOverflow_4_"; "InvalidMsg_4_"; "PLOAD680"; "QLOAD680";
        "N680RMSPU"];
     Gtnet.meas_fmt := ">iiiiifff";
     Gtnet.cmd_names := ["REM_PLOAD"; "REM_QLOAD"];
     Gtnet.cmd_fmt := ">ff";
     Gtnet.ready_to_send_name := Some "ReadyToSend_4_";
     Gtnet.require_ready_to_send := true;
     Gtnet.reconnect := true |}.

(** A codec that keeps a frame as the list of its values. *)
Definition list_pack (fmt : string) (vals : list number)
    : option (list number) := Some vals.
Definition list_unpack (fmt : string) (frame : list number)
    : option (list number) := Some frame.

(** A CH4 telemetry frame with [ReadyToSend_4_ = 1]. *)
Definition ch4_frame_ready : list number :=
  [NInt 1; NInt 7; NInt 1; NInt 0; NInt 0;
   NFloat f_one; NFloat f_zero; NFloat f_one].

Definition t1 : spec_float := f_one.
Definition t2 : spec_float := Eval cbv in f_of_Z 2.
Definition t3 : spec_float := Eval cbv in f_of_Z 3.

Definition rx_ready : Gtnet.RxEnv :=
  {| Gtnet.rx_conn := Some t1; Gtnet.rx_recv := Some ch4_frame_ready;
     Gtnet.rx_now := t1; Gtnet.rx_has_listener := true;
     Gtnet.rx_err_now := t1 |}.

Definition rx_broken : Gtnet.RxEnv :=
  {| Gtnet.rx_conn := Some t1; Gtnet.rx_recv := @None (list number);
     Gtnet.rx_now := t2; Gtnet.rx_has_listener := true;
     Gtnet.rx_err_now := t2 |}.

Definition tx_good (now : spec_float) : Gtnet.TxEnv :=
  {| Gtnet.tx_conn := Some now; Gtnet.tx_now := now;
     Gtnet.tx_send_ok := true; Gtnet.tx_err_now := now |}.

(** A generator that always draws the low end of the range. *)
Definition low_random (g : unit) : spec_float * unit := (f_zero, g).
Definition low_gauss (mu sigma : spec_float) (g : unit)
    : spec_float * unit := (mu, g).
Definition low_uniform (lo hi : spec_float) (g : unit)
    : spec_float * unit := (lo, g).

Definition disruptor0 : @Disrupt.ChannelDisruptor unit unit :=
  Disrupt.init tt.

Definition frame_a : pydict number := [("PGRID", NInt 1); ("GRID", NInt 1)].
Definition frame_b : pydict number := [("PGRID", NInt 2); ("GRID", NInt 0)].

Definition data_freeze : Disrupt.D.t :=
  {| Disrupt.D.enabled := true; Disrupt.D.drop_prob := f_zero;
     Disrupt.D.freeze := true;
     Disrupt.D.fixed_delay_s := f_zero; Disrupt.D.jitter_s := f_zero;
     Disrupt.D.add_noise := false; Disrupt.D.noise_std := f_zero;
     Disrupt.D.keys := None |}.

Definition data_drop_all (en frz : bool) : Disrupt.D.t :=
  {| Disrupt.D.enabled := en; Disrupt.D.drop_prob := f_one;
     Disrupt.D.freeze := frz;
     Disrupt.D.fixed_delay_s := f_zero; Disrupt.D.jitter_s := f_zero;
     Disrupt.D.add_noise := false; Disrupt.D.noise_std := f_zero;
     Disrupt.D.keys := None |}.

Definition auto_block (en : bool) : Disrupt.A.t :=
  {| Disrupt.A.enabled := en; Disrupt.A.block_all := true;
     Disrupt.A.drop_prob := f_zero;
     Disrupt.A.fixed_delay_s := f_zero; Disrupt.A.jitter_s := f_zero |}.


(** Loading above the hard limit, nothing else measured. *)
Definition meas_overloaded : DG.DGMeasurements :=
  {| DG.NewDataSeq := None; DG.ReadyToSend := None;
     DG.SocketOverflow := None; DG.InvalidMsg := None;
     DG.PGEN := None; DG.QGEN := None; DG.PMACH := None; DG.QMACH := None;
     DG.SMACH := Some (DG.Fin 2);
     DG.GENRMSPU := None;
     DG.OVERLOADED := None; DG.BRKGEN := None;
     DG.WPU := None |}.

Definition controller0 : DG.DGController :=
  DG.init DG.DGControllerConfig_default.

(** [STABILITY_LIMITS] of run_islanding_dg_load_test.py. *)
Definition lim (sp st : Q) : Stability.limit_cfg :=
  {| Stability.span := Some sp; Stability.step := Some st;
     Stability.required := true |}.
Definition lim_flag (st : Q) : Stability.limit_cfg :=
  {| Stability.span := None; Stability.step := Some st;
     Stability.required := false |}.

Definition STABILITY_LIMITS : list (string * Stability.limit_cfg) :=
  [("PGRID", lim (2 # 100) (1 # 100));
   ("QGRID", lim (2 # 100) (1 # 100));
   ("N680RMSPU", lim (1 # 100) (5 # 1000));
   ("Pmeas", lim (3 # 100) (15 # 1000));
   ("PGEN", lim (3 # 100) (15 # 1000));
   ("QGEN", lim (3 # 100) (15 # 1000));
   ("PMACH", lim (3 # 100) (15 # 1000));
   ("QMACH", lim (3 # 100) (15 # 1000));
   ("SMACH", lim (3 # 100) (15 # 1000));
   ("GENRMSPU", lim (1 # 100) (5 # 1000));
   ("WPU", lim (2 # 1000) (1 # 1000));
   ("W_DETECTED", lim_flag (5 # 10));
   ("BRKGEN", lim_flag (5 # 10))].

(** A snapshot as [wait_until_stable] builds it; [Pmeas] is missing. *)
Definition snap (overloaded : Z) : gmap string (option Stability.value) :=
  list_to_map
    [("PGRID", Some (Stability.VFloat (80 # 100)));
     ("QGRID", Some (Stability.VFloat (3 # 1000)));
     ("N680RMSPU", Some (Stability.VFloat 1));
     ("Pmeas", None);
     ("PGEN", Some (Stability.VFloat (35 # 10000)));
     ("QGEN", Some (Stability.VFloat 0));
     ("PMACH", Some (Stability.VFloat (35 # 10000)));
     ("QMACH", Some (Stability.VFloat 0));
     ("SMACH", Some (Stability.VFloat (35 # 10000)));
     ("GENRMSPU", Some (Stability.VFloat 1));
     ("WPU", Some (Stability.VFloat 1));
     ("W_DETECTED", Some (Stability.VInt 0));
     ("BRKGEN", Some (Stability.VInt 1));
     ("OVERLOADED", Some (Stability.VInt overloaded))].

(** The limits without the entry of the missing signal. *)
Definition limits_no_pmeas : list (string * Stability.limit_cfg) :=
  filter (fun l => negb (String.eqb (fst l) "Pmeas")) STABILITY_LIMITS.

End Specs.

(* --------------------------------------------------------------------- *)
(** ** Comms/gtnet_channel.py: [_recv_exact]                              *)
(* --------------------------------------------------------------------- *)

Module Socket.

(** A connected TCP socket as its reader sees it: what the coming [recv]
    calls meet, in order.  [Ok seg] is a segment of bytes arriving,
    [Raise e] the call raising [e] (a reset connection, say).  An empty
    segment, like the end of the list, is the peer closing the
    connection: [recv] returns [b'']. *)
Definition sock : Type := list (result (list Byte.byte)).

(** [sock.recv(n)] for [n > 0]: at most [n] bytes of the next segment. *)
Definition recv (n : nat) (s : sock) : result (list Byte.byte) * sock :=
  match s with
  | [] => (Ok [], [])
  | Raise e :: rest => (Raise e, rest)
  | Ok seg :: rest =>
      if (length seg <=? n)%nat then (Ok seg, rest)
      else (Ok (take n seg), Ok (drop n seg) :: rest)
  end.

(** The [while] loop of [_recv_exact].  [fuel] bounds the number of
    passes; [None] is the bound hit with the loop still running. *)
Fixpoint recv_exact_loop (fuel nbytes : nat) (buf : list Byte.byte)
    (s : sock) {struct fuel} : option (result (list Byte.byte) * sock) :=
  if (length buf <? nbytes)%nat then
    match fuel with
    | O => None
    | S fuel' =>
        match recv (nbytes - length buf) s with
        | (Raise e, s') => Some (Raise e, s')
        | (Ok [], s') => Some (Raise ConnectionError, s')
        | (Ok chunk, s') => recv_exact_loop fuel' nbytes (buf ++ chunk) s'
        end
    end
  else Some (Ok buf, s).

(** [_recv_exact(sock, nbytes)]: a pass that does not raise adds at least
    one byte, so [nbytes] passes are the most the loop can make. *)
Definition _recv_exact (s : sock) (nbytes : nat)
    : option (result (list Byte.byte) * sock) :=
  recv_exact_loop nbytes nbytes [] s.

(** The bytes a socket delivers before the peer closes or a call raises,
    and the exception a reader then meets. *)
Fixpoint stream (s : sock) : list Byte.byte :=
  match s with
  | [] => []
  | Raise _ :: _ => []
  | Ok [] :: _ => []
  | Ok seg :: rest => (seg ++ stream rest)%list
  end.

Fixpoint ending (s : sock) : exn :=
  match s with
  | [] => ConnectionError
  | Raise e :: _ => e
  | Ok [] :: _ => ConnectionError
  | Ok _ :: rest => ending rest
  end.

End Socket.

(* --------------------------------------------------------------------- *)
(** ** GtnetChannel: the declared kind of a command, quiet events         *)
(* --------------------------------------------------------------------- *)

Module GtnetInv.

Import Gtnet.

(** [isinstance(v, int)] *)
Definition is_int_num (v : number) : bool :=
  match v with NInt _ => true | NFloat _ => false end.

(** Whether [cmd_types] declares the command [k] as "int", looked up as
    [set_cmd] does: [cmd_types[list(cmd_names).index(k)]]. *)
Definition field_is_int (sp : ChannelSpec) (k : string) : option bool :=
  match bind (index k (cmd_names sp)) (getitem (cmd_types sp)) with
  | Ok typ => Some (String.eqb typ "int")
  | Raise _ => None
  end.

(** Every stored command value is of the kind declared for its name. *)
Definition well_typed (sp : ChannelSpec) (cs : gmap string number) : Prop :=
  forall k v, cs !! k = Some v -> field_is_int sp k = Some (is_int_num v).

Section Quiet.

Context {payload : Type}.
Variable unpack : string -> payload -> option (list number).

(** Events that are neither a [set_cmd] call nor a receive error: a
    receive pass whose frame arrives and decodes, or any transmit pass. *)
Definition quiet (sp : ChannelSpec) (e : @Event payload) : bool :=
  match e with
  | EvSetCmd _ => false
  | EvRx env =>
      match rx_recv env with
      | Some frame =>
          match unpack (meas_fmt sp) frame with
          | Some _ => true
          | None => false
          end
      | None => false
      end
  | EvTx _ => true
  end.

(** The events of the two worker loops. *)
Definition is_worker (e : @Event payload) : bool :=
  match e with
  | EvSetCmd _ => false
  | EvRx _ | EvTx _ => true
  end.

Definition is_rx (e : @Event payload) : bool :=
  match e with
  | EvRx _ => true
  | _ => false
  end.

End Quiet.

End GtnetInv.

(* --------------------------------------------------------------------- *)
(** ** Comms/command_helpers.py                                           *)
(* --------------------------------------------------------------------- *)

Module CommandHelpers.

Import Gtnet.

(** The builtin [min(a, b)] on floats: [b] when [b < a], else [a]. *)
Definition f_min (a b : spec_float) : spec_float :=
  if f_lt b a then b else a.

(** [_require(condition, msg)] *)
Definition _require (condition : bool) : result unit :=
  if condition then Ok tt else Raise ValueError.

Section Helpers.

Context {payload : Type}.
Variable pack : string -> list number -> option payload.
Variable unpack : string -> payload -> option (list number).

Implicit Type c : @Channel payload.

(** [set_selector(channel, name, value)] *)
Definition set_selector (nm : string) (value : number) c
    : result unit * Channel :=
  match _require (py_eq value (NInt 0) || py_eq value (NInt 1)) with
  | Raise e => (Raise e, c)
  | Ok _ =>
      match py_int value with
      | Raise e => (Raise e, c)
      | Ok z => set_cmd [(nm, NInt z)] c
      end
  end.

(** [pb_pulse(channel, name, pulse_s)].  The caller sleeps between the two
    writes; [during] is what the channel goes through meanwhile. *)
Definition pb_pulse (nm : string) (pulse_s : spec_float)
    (during : list Event) c : result unit * Channel :=
  match _require (f_lt f_zero pulse_s) with
  | Raise e => (Raise e, c)
  | Ok _ =>
      match set_cmd [(nm, NInt 1)] c with
      | (Raise e, c1) => (Raise e, c1)
      | (Ok _, c1) => set_cmd [(nm, NInt 0)] (run pack unpack during c1)
      end
  end.

(** [set_dial(channel, name, value, lo=lo, hi=hi)] *)
Definition set_dial (nm : string) (value : number) (lo hi : Z) c
    : result unit * Channel :=
  match _require (GtnetInv.is_int_num value) with
  | Raise e => (Raise e, c)
  | Ok _ =>
      match _require (match value with
                      | NInt z => (lo <=? z) && (z <=? hi)
                      | NFloat _ => false
                      end) with
      | Raise e => (Raise e, c)
      | Ok _ =>
          match py_int value with
          | Raise e => (Raise e, c)
          | Ok z => set_cmd [(nm, NInt z)] c
          end
      end
  end.

(** [set_slider(channel, name, value, lo=lo, hi=hi, clamp=clamp)];
    it returns the value it applied. *)
Definition set_slider (nm : string) (value : number) (lo hi : spec_float)
    (clamp : bool) c : result spec_float * Channel :=
  match _require (f_lt lo hi) with
  | Raise e => (Raise e, c)
  | Ok _ =>
      match py_float value with
      | Raise e => (Raise e, c)
      | Ok v =>
          match (if clamp then Ok (Disrupt.f_max lo (f_min hi v))
                 else bind (_require (f_le lo v && f_le v hi))
                           (fun _ => Ok v)) with
          | Raise e => (Raise e, c)
          | Ok v' =>
              match set_cmd [(nm, NFloat v')] c with
              | (Raise e, c') => (Raise e, c')
              | (Ok _, c') => (Ok v', c')
              end
          end
      end
  end.

(** Any number of [set_dial] calls on one command, failed ones included. *)
Definition set_dial_all (nm : string) (lo hi : Z) (values : list number) c
    : Channel :=
  fold_left (fun c v => snd (set_dial nm v lo hi c)) values c.

End Helpers.

End CommandHelpers.

(* --------------------------------------------------------------------- *)
(** ** ChannelDisruptor: its public calls as a transition system          *)
(* --------------------------------------------------------------------- *)

Module DisruptRun.

Import Disrupt.

(** What a frame handed on for [meas] under the settings [cfg] has in
    common with it: the same fields in the same order, the same values
    outside the selected keys, and all of it when no noise is asked for. *)
Definition same_fields (cfg : D.t) (meas out : pydict number) : Prop :=
  out.*1 = meas.*1 /\
  (forall ks k, D.keys cfg = Some ks -> k ∉ ks ->
                dict_get out k = dict_get meas k) /\
  (D.add_noise cfg = false -> out = meas).

Section Calls.

Context {chan : Type} {rng : Type}.
Variable rng_random : rng -> spec_float * rng.
Variable rng_gauss : spec_float -> spec_float -> rng -> spec_float * rng.
Variable rng_uniform : spec_float -> spec_float -> rng -> spec_float * rng.

(** Two disruptors have delivered and scheduled the same, and their
    generators are in the same state. *)
Definition same_traffic (d1 d2 : @ChannelDisruptor chan rng) : Prop :=
  meas_sunk d1 = meas_sunk d2 /\ meas_pending d1 = meas_pending d2 /\
  cmd_sunk d1 = cmd_sunk d2 /\ cmd_pending d1 = cmd_pending d2 /\
  _rng d1 = _rng d2.

(** One call of a public method. *)
Inductive Call : Type :=
| CSetData (ch : string) (cfg : D.t)
| CSetAuto (ch : string) (cfg : A.t)
| CClearChannel (ch : string)
| CClearAll
| COnMeas (ch : string) (meas : pydict number)
| CEmitCmd (obj : chan) (ch : string) (updates : pydict number)
           (note : string).

Definition call (k : Call) (d : @ChannelDisruptor chan rng)
    : ChannelDisruptor :=
  match k with
  | CSetData ch cfg => set_data_degraded ch cfg d
  | CSetAuto ch cfg => set_autonomy_degraded ch cfg d
  | CClearChannel ch => clear_channel ch d
  | CClearAll => clear_all d
  | COnMeas ch meas =>
      snd (on_meas rng_random rng_gauss rng_uniform ch meas d)
  | CEmitCmd obj ch updates note =>
      emit_cmd rng_random rng_uniform obj ch updates note d
  end.

Definition calls (ks : list Call) (d : @ChannelDisruptor chan rng)
    : ChannelDisruptor :=
  fold_left (fun d k => call k d) ks d.

End Calls.

End DisruptRun.

(* --------------------------------------------------------------------- *)
(** ** Comms/data_bus.py                                                  *)
(* --------------------------------------------------------------------- *)

Module Bus.

Import Gtnet.

(** [l[start:]] *)
Definition py_slice_from {A} (l : list A) (start : Z) : list A :=
  let n := Z.of_nat (length l) in
  let s := if start <? 0 then Z.max 0 (start + n) else Z.min start n in
  drop (Z.to_nat s) l.

Record TimedFrame : Type := {
  t_unix : spec_float;
  t_str : string;
  data : pydict number
}.

Record CommandEvent : Type := {
  ev_t_unix : spec_float;
  ev_t_str : string;
  channel : string;
  updates : pydict number;
  note : string
}.

(** What the bus hands to its logger.  An [RX-ARMED] line shows either the
    frame or, for each selected field, [meas.get(k)]. *)
Inductive LogLine : Type :=
| RxArmed (ts : string) (channel_name : string)
          (shown : list (string * option number))
| TxArmed (ts : string) (channel_name : string) (updates : pydict number)
          (note : string).

(** A [DataBus].  [has_log] is the truth value of [self.log]; a set of
    field names is kept as the list its iteration yields; [logged] lists
    the lines handed to the logger. *)
Record DataBus : Type := {
  _meas : gmap string TimedFrame;
  _cmd_log : list CommandEvent;
  _cmd_log_max : Z;
  has_log : bool;
  rx_log_channels : option (gset string);
  rx_log_fields : option (gmap string (list string));
  logged : list LogLine
}.

(** [DataBus(log=..., cmd_log_max=..., rx_log_channels=..., rx_log_fields=...)] *)
Definition init (log : bool) (cmd_log_max : Z)
    (channels : option (gset string))
    (fields : option (gmap string (list string))) : DataBus :=
  {| _meas := ∅; _cmd_log := []; _cmd_log_max := cmd_log_max;
     has_log := log; rx_log_channels := channels; rx_log_fields := fields;
     logged := [] |}.

(** Truth value of an optional set or dict: [None] and the empty
    container are false. *)
Definition truthy_set (s : option (gset string)) : bool :=
  match s with
  | Some x => negb (bool_decide (x = ∅))
  | None => false
  end.

Definition truthy_map (m : option (gmap string (list string))) : bool :=
  match m with
  | Some x => negb (bool_decide (x = ∅))
  | None => false
  end.

(** [update_meas(channel_name, meas)]; [t] and [ts] are what [time.time()]
    and [ts_now()] return. *)
Definition update_meas (channel_name : string) (meas : pydict number)
    (t : spec_float) (ts : string) (b : DataBus) : DataBus :=
  let tf := {| t_unix := t; t_str := ts; data := meas |} in
  let armed :=
    has_log b && truthy_set (rx_log_channels b)
    && bool_decide (channel_name ∈ default ∅ (rx_log_channels b)) in
  let line :=
    match (if truthy_map (rx_log_fields b)
           then default ∅ (rx_log_fields b) !! channel_name
           else None) with
    | Some fields =>
        RxArmed ts channel_name (map (fun k => (k, dict_get meas k)) fields)
    | None =>
        RxArmed ts channel_name (map (fun kv => (fst kv, Some (snd kv))) meas)
    end in
  {| _meas := <[channel_name := tf]> (_meas b);
     _cmd_log := _cmd_log b; _cmd_log_max := _cmd_log_max b;
     has_log := has_log b; rx_log_channels := rx_log_channels b;
     rx_log_fields := rx_log_fields b;
     logged := if armed then logged b ++ [line] else logged b |}.

Definition get_meas (channel_name : string) (b : DataBus)
    : option TimedFrame :=
  _meas b !! channel_name.

Definition snapshot_all (b : DataBus) : gmap string TimedFrame := _meas b.

Definition get_cmd_log (b : DataBus) : list CommandEvent := _cmd_log b.

(** The log after [append(evt)] and the trimming that follows. *)
Definition log_append (log : list CommandEvent) (cmd_log_max : Z)
    (evt : CommandEvent) : list CommandEvent :=
  let l := (log ++ [evt])%list in
  if Z.of_nat (length l) >? cmd_log_max
  then py_slice_from l (- cmd_log_max)
  else l.

Section Emit.

Context {payload : Type}.

(** [emit_cmd(channel, channel_name, updates, note=note)]: an exception of
    [channel.set_cmd] leaves the call before anything is recorded. *)
Definition emit_cmd (c : @Channel payload) (channel_name : string)
    (upd : pydict number) (nt : string) (t : spec_float) (ts : string)
    (b : DataBus) : result unit * Channel * DataBus :=
  match set_cmd upd c with
  | (Raise e, c') => (Raise e, c', b)
  | (Ok _, c') =>
      let evt := {| ev_t_unix := t; ev_t_str := ts; channel := channel_name;
                    updates := upd; note := nt |} in
      (Ok tt, c',
       {| _meas := _meas b;
          _cmd_log := log_append (_cmd_log b) (_cmd_log_max b) evt;
          _cmd_log_max := _cmd_log_max b;
          has_log := has_log b; rx_log_channels := rx_log_channels b;
          rx_log_fields := rx_log_fields b;
          logged := if has_log b
                    then logged b ++ [TxArmed ts channel_name upd nt]
                    else logged b |})
  end.

End Emit.

End Bus.

(* --------------------------------------------------------------------- *)
(** ** DGController: its public surface as a transition system            *)
(* --------------------------------------------------------------------- *)

Module DGRun.

Import DG.

Local Open Scope Q_scope.

(** [ctrl.enabled = b] and [ctrl.remote_block_override = o], the two flags
    the class leaves to its user. *)
Definition set_enabled (b : bool) (s : DGController) : DGController :=
  {| cfg := cfg s; _f_wpu := _f_wpu s; _f_smach := _f_smach s;
     _f_vpu := _f_vpu s;
     _rl_wref := _rl_wref s; _rl_pref := _rl_pref s;
     _last_meas_ts := _last_meas_ts s; _last_cmd := _last_cmd s;
     _overload_start_ts := _overload_start_ts s;
     _reset_until_ts := _reset_until_ts s; enabled := b;
     remote_block_override := remote_block_override s |}.

Definition set_remote_block_override (o : option Z) (s : DGController)
    : DGController :=
  {| cfg := cfg s; _f_wpu := _f_wpu s; _f_smach := _f_smach s;
     _f_vpu := _f_vpu s;
     _rl_wref := _rl_wref s; _rl_pref := _rl_pref s;
     _last_meas_ts := _last_meas_ts s; _last_cmd := _last_cmd s;
     _overload_start_ts := _overload_start_ts s;
     _reset_until_ts := _reset_until_ts s; enabled := enabled s;
     remote_block_override := o |}.

(** What a user of the controller can do with it. *)
Inductive Call : Type :=
| CUpdate (meas : DGMeasurements) (dt : Q) (now : option Q) (clock : Q)
| CRequestReset (now : Q)
| CSetEnabled (b : bool)
| CSetOverride (o : option Z).

Definition call (k : Call) (s : DGController) : DGController :=
  match k with
  | CUpdate meas dt now clock => snd (update meas dt now clock s)
  | CRequestReset now => request_reset now s
  | CSetEnabled b => set_enabled b s
  | CSetOverride o => set_remote_block_override o s
  end.

Definition calls (ks : list Call) (s : DGController) : DGController :=
  fold_left (fun s k => call k s) ks s.



(** What no call changes, or changes one way only: the configuration, the
    two user flags and the rates of the limiters stay, and the deadline of
    the reset pulse never moves back. *)
Definition kept (s s' : DGController) : Prop :=
  cfg s' = cfg s /\
  RateLimiter.up (_rl_wref s') = RateLimiter.up (_rl_wref s) /\
  RateLimiter.down (_rl_wref s') = RateLimiter.down (_rl_wref s) /\
  RateLimiter.up (_rl_pref s') = RateLimiter.up (_rl_pref s) /\
  RateLimiter.down (_rl_pref s') = RateLimiter.down (_rl_pref s) /\
  _reset_until_ts s <= _reset_until_ts s'.

(** The command [out] is the one the controller remembers, and the two
    limiters rest at its setpoints. *)
Definition rests_at (out : DGCommands) (s' : DGController) : Prop :=
  _last_cmd s' = out /\
  RateLimiter.y (_rl_wref s') = Some (REM_Wref out) /\
  RateLimiter.y (_rl_pref s') = Some (REM_PREF out).



End DGRun.

(* --------------------------------------------------------------------- *)
(** ** More values to run the model on                                    *)
(* --------------------------------------------------------------------- *)

Module Samples.

(** CH4 with one command type missing. *)
Definition CHANNEL_4_short : Gtnet.ChannelSpec :=
  {| Gtnet.name := "CH4";
     Gtnet.cmd_types := ["float"];
     Gtnet.meas_names := Gtnet.meas_names Specs.CHANNEL_4;
     Gtnet.meas_fmt := ">iiiiifff";
     Gtnet.cmd_names := ["REM_PLOAD"; "REM_QLOAD"];
     Gtnet.cmd_fmt := ">ff";
     Gtnet.ready_to_send_name := Some "ReadyToSend_4_";
     Gtnet.require_ready_to_send := true;
     Gtnet.reconnect := true |}.

(** CH4 after its first frame has gone out. *)
Definition ch4_sent : @Gtnet.Channel (list number) :=
  Gtnet.run Specs.list_pack Specs.list_unpack
    [Gtnet.EvRx Specs.rx_ready;
     Gtnet.EvSetCmd [("REM_PLOAD", NFloat f_one)];
     Gtnet.EvTx (Specs.tx_good Specs.t1)]
    (Gtnet.init Specs.CHANNEL_4 None).

(** Three bytes arriving as two segments, then the peer closing. *)
Definition three_bytes : Socket.sock :=
  [Ok [Byte.x01; Byte.x02]; Ok [Byte.x03]].

(** A bus that logs, with room for two command events. *)
Definition bus2 : Bus.DataBus := Bus.init true 2 None None.

(** A bus with [cmd_log_max=0]. *)
Definition bus0 : Bus.DataBus := Bus.init true 0 None None.

(** A call that brings no measurement at all. *)
Definition meas_none : DG.DGMeasurements :=
  {| DG.NewDataSeq := None; DG.ReadyToSend := None;
     DG.SocketOverflow := None; DG.InvalidMsg := None;
     DG.PGEN := None; DG.QGEN := None; DG.PMACH := None; DG.QMACH := None;
     DG.SMACH := None;
     DG.GENRMSPU := None;
     DG.OVERLOADED := None; DG.BRKGEN := None;
     DG.WPU := None |}.

(** A call whose loading is NaN. *)
Definition meas_nan : DG.DGMeasurements :=
  {| DG.NewDataSeq := None; DG.ReadyToSend := None;
     DG.SocketOverflow := None; DG.InvalidMsg := None;
     DG.PGEN := None; DG.QGEN := None; DG.PMACH := None; DG.QMACH := None;
     DG.SMACH := Some DG.NonFinite;
     DG.GENRMSPU := None;
     DG.OVERLOADED := None; DG.BRKGEN := None;
     DG.WPU := None |}.

(** The default controller after one step at time 0. *)
Definition controller1 : DG.DGController :=
  snd (DG.update Specs.meas_overloaded (5 # 100) (Some 0%Q) 0
         Specs.controller0).



End Samples.

(* ===================================================================== *)
(** * Part II: properties                                                 *)
(* ===================================================================== *)

(* --------------------------------------------------------------------- *)
(** ** Python numbers                                                     *)
(* --------------------------------------------------------------------- *)

Section NumberFacts.

Lemma SFeqb_refl (f : spec_float) : is_nan f = false -> SFeqb f f = true.
Proof.
  unfold SFeqb. destruct f as [s | s | | s m e]; simpl; try discriminate.
  - reflexivity.
  - destruct s; reflexivity.
  - intros _. destruct s; rewrite Z.compare_refl, Pos.compare_cont_refl;
      reflexivity.
Qed.

(** [v == v] holds for every number but NaN. *)
Lemma py_eq_refl (v : number) : v <> NFloat S754_nan -> py_eq v v = true.
Proof.
  destruct v as [z | f]; simpl; intros Hv.
  - apply Z.eqb_refl.
  - apply SFeqb_refl. destruct f; try reflexivity. congruence.
Qed.

Lemma py_ne_nan : py_ne (NFloat S754_nan) (NFloat S754_nan) = true.
Proof. reflexivity. Qed.

(** Two numbers that compare unequal are different, NaN aside. *)
Lemma py_ne_neq (a b : number) :
  b <> NFloat S754_nan -> py_ne a b = true -> a <> b.
Proof.
  intros Hb Hne ->. unfold py_ne in Hne. rewrite py_eq_refl in Hne by done.
  discriminate.
Qed.

(** Rounding never produces NaN. *)
Lemma shr_1_nonneg (mrs : shr_record) :
  0 <= shr_m mrs -> 0 <= shr_m (shr_1 mrs).
Proof.
  destruct mrs as [m r s]; simpl.
  destruct m as [| p | p]; simpl; try lia.
  - destruct p; simpl; lia.
Qed.

Lemma iter_pos_shr_1_nonneg (p : positive) (mrs : shr_record) :
  0 <= shr_m mrs -> 0 <= shr_m (SpecFloat.iter_pos shr_1 p mrs).
Proof.
  revert mrs. induction p as [p IH | p IH |]; intros mrs H; simpl.
  - apply IH, IH, shr_1_nonneg, H.
  - apply IH, IH, H.
  - apply shr_1_nonneg, H.
Qed.

Lemma shr_fexp_nonneg (pr em m e : Z) (l : location) :
  0 <= m -> 0 <= shr_m (fst (shr_fexp pr em m e l)).
Proof.
  intros Hm. unfold shr_fexp, shr.
  assert (H0 : 0 <= shr_m (shr_record_of_loc m l)).
  { destruct l as [| []]; simpl; exact Hm. }
  destruct (fexp pr em (Zdigits2 m + e) - e); simpl; auto.
  apply iter_pos_shr_1_nonneg, H0.
Qed.

Lemma round_nearest_even_nonneg (m : Z) (l : location) :
  0 <= m -> 0 <= round_nearest_even m l.
Proof.
  intros Hm. destruct l as [| []]; simpl; try lia.
  destruct (Z.even m); lia.
Qed.

Lemma binary_round_aux_not_nan (pr em : Z) (sx : bool) (mx ex : Z)
    (lx : location) :
  0 <= mx -> binary_round_aux pr em sx mx ex lx <> S754_nan.
Proof.
  intros Hm. unfold binary_round_aux.
  pose proof (shr_fexp_nonneg pr em mx ex lx Hm) as H1.
  destruct (shr_fexp pr em mx ex lx) as [mrs' e'] eqn:E1. simpl in H1.
  pose proof (shr_fexp_nonneg pr em _ e' loc_Exact
                (round_nearest_even_nonneg _ (loc_of_shr_record mrs') H1))
    as H2.
  destruct (shr_fexp pr em _ e' loc_Exact) as [mrs'' e''] eqn:E2.
  simpl in H2.
  destruct (shr_m mrs'') as [| p | p]; try discriminate.
  - destruct (e'' <=? em - pr); discriminate.
  - lia.
Qed.

Lemma f_of_Z_not_nan (z : Z) : f_of_Z z <> S754_nan.
Proof.
  unfold f_of_Z, binary_normalize.
  destruct z as [| p | p]; try discriminate; unfold binary_round;
    destruct (shl_align _ _ _) as [mz ez];
    apply binary_round_aux_not_nan; lia.
Qed.

(** [float(v)] is NaN only when [v] is. *)
Lemma py_float_not_nan (v : number) (f : spec_float) :
  v <> NFloat S754_nan -> py_float v = Ok f -> f <> S754_nan.
Proof.
  destruct v as [z | g]; simpl; intros Hv H.
  - pose proof (f_of_Z_not_nan z) as Hz.
    destruct (f_of_Z z); try discriminate; injection H as <-; congruence.
  - injection H as <-. congruence.
Qed.

End NumberFacts.

(* --------------------------------------------------------------------- *)
(** ** GtnetChannel.set_cmd                                               *)
(* --------------------------------------------------------------------- *)

Section SetCmd.

Import Gtnet.

Variable sp : ChannelSpec.

Lemma coerce_not_nan (k : string) (v nv : number) :
  v <> NFloat S754_nan -> coerce sp k v = Ok nv -> nv <> NFloat S754_nan.
Proof.
  unfold coerce. intros Hv H.
  destruct (index k (cmd_names sp)) as [idx |]; simpl in H; [| discriminate].
  destruct (getitem (cmd_types sp) idx) as [typ |]; simpl in H;
    [| discriminate].
  destruct (String.eqb typ "int").
  - destruct (py_int v); simpl in H; [| discriminate].
    injection H as <-. discriminate.
  - destruct (py_float v) as [f |] eqn:Ef; simpl in H; [| discriminate].
    injection H as <-. intros [= Hf].
    exact (py_float_not_nan v f Hv Ef Hf).
Qed.

(** The loop leaves alone every key it does not visit. *)
Lemma set_cmd_loop_other (u : list (string * number)) :
  forall cs ch e cs' ch' k,
    set_cmd_loop sp u cs ch = (e, cs', ch') ->
    k ∉ u.*1 -> cs' !! k = cs !! k.
Proof.
  induction u as [| [k0 v0] u IH]; simpl; intros cs ch e cs' ch' k H Hk.
  - by injection H as _ <- _.
  - apply not_elem_of_cons in Hk as [Hne Hk].
    destruct (cs !! k0) as [old |] eqn:Eold.
    2:{ by injection H as _ <- _. }
    destruct (coerce sp k0 v0) as [nv |].
    2:{ by injection H as _ <- _. }
    destruct (py_ne old nv).
    + rewrite (IH _ _ _ _ _ _ H Hk). by rewrite lookup_insert_ne.
    + exact (IH _ _ _ _ _ _ H Hk).
Qed.

(** The [changed] local is never reset. *)
Lemma set_cmd_loop_changed_mono (u : list (string * number)) :
  forall cs e cs' ch',
    set_cmd_loop sp u cs true = (e, cs', ch') -> ch' = true.
Proof.
  induction u as [| [k0 v0] u IH]; simpl; intros cs e cs' ch' H.
  - by injection H as _ _ <-.
  - destruct (cs !! k0) as [old |]; [| by injection H as _ _ <-].
    destruct (coerce sp k0 v0) as [nv |]; [| by injection H as _ _ <-].
    destruct (py_ne old nv); eauto.
Qed.

(** When the loop ends with [changed] set, a stored value differs from
    what it was. *)
Lemma set_cmd_loop_changed (u : list (string * number)) :
  forall cs ch e cs' ch',
    NoDup u.*1 -> no_nan u ->
    set_cmd_loop sp u cs ch = (e, cs', ch') ->
    ch' = true ->
    ch = true \/ exists k, cs' !! k <> cs !! k.
Proof.
  induction u as [| [k0 v0] u IH]; simpl; intros cs ch e cs' ch' Hnd Hnn H Hch.
  - injection H as _ _ <-. by left.
  - apply NoDup_cons in Hnd as [Hk0 Hnd].
    apply Forall_cons in Hnn as [Hv0 Hnn]. simpl in Hv0.
    destruct (cs !! k0) as [old |] eqn:Eold.
    2:{ injection H as _ _ <-. by left. }
    destruct (coerce sp k0 v0) as [nv |] eqn:Ec.
    2:{ injection H as _ _ <-. by left. }
    destruct (py_ne old nv) eqn:Ene.
    + right. exists k0.
      rewrite (set_cmd_loop_other _ _ _ _ _ _ _ H Hk0).
      rewrite lookup_insert_eq, Eold. intros [= Heq].
      apply (py_ne_neq old nv); [| exact Ene | congruence].
      exact (coerce_not_nan _ _ _ Hv0 Ec).
    + exact (IH _ _ _ _ _ Hnd Hnn H Hch).
Qed.

Lemma set_cmd_loop_settles (u : list (string * number)) :
  forall cs ch cs' ch',
    NoDup u.*1 -> no_nan u ->
    set_cmd_loop sp u cs ch = (None, cs', ch') ->
    settled sp u cs'.
Proof.
  induction u as [| [k0 v0] u IH]; simpl; intros cs ch cs' ch' Hnd Hnn H.
  - constructor.
  - apply NoDup_cons in Hnd as [Hk0 Hnd].
    apply Forall_cons in Hnn as [Hv0 Hnn]. simpl in Hv0.
    destruct (cs !! k0) as [old |] eqn:Eold; [| discriminate].
    destruct (coerce sp k0 v0) as [nv |] eqn:Ec; [| discriminate].
    pose proof (coerce_not_nan _ _ _ Hv0 Ec) as Hnv.
    destruct (py_ne old nv) eqn:Ene.
    + constructor; [| exact (IH _ _ _ _ Hnd Hnn H)].
      exists nv, nv. simpl.
      rewrite (set_cmd_loop_other _ _ _ _ _ _ _ H Hk0), lookup_insert_eq.
      repeat split; [exact Ec |].
      unfold py_ne. by rewrite py_eq_refl.
    + constructor; [| exact (IH _ _ _ _ Hnd Hnn H)].
      exists old, nv. simpl.
      rewrite (set_cmd_loop_other _ _ _ _ _ _ _ H Hk0).
      repeat split; assumption.
Qed.

(** On a settled state the loop changes nothing. *)
Lemma set_cmd_loop_settled (u : list (string * number)) :
  forall cs ch, settled sp u cs -> set_cmd_loop sp u cs ch = (None, cs, ch).
Proof.
  induction u as [| [k0 v0] u IH]; simpl; intros cs ch Hs.
  - reflexivity.
  - apply Forall_cons in Hs as [(old & nv & Ho & Hc & Hne) Hs].
    simpl in Ho, Hc. rewrite Ho, Hc, Hne. exact (IH _ _ Hs).
Qed.

(** The loop never drops or adds a key of the command state. *)
Lemma set_cmd_loop_dom (u : list (string * number)) :
  forall cs ch e cs' ch' k,
    set_cmd_loop sp u cs ch = (e, cs', ch') ->
    cs' !! k = None <-> cs !! k = None.
Proof.
  induction u as [| [k0 v0] u IH]; simpl; intros cs ch e cs' ch' k H.
  - by injection H as _ <- _.
  - destruct (cs !! k0) as [old |] eqn:Eold.
    2:{ by injection H as _ <- _. }
    destruct (coerce sp k0 v0) as [nv |].
    2:{ by injection H as _ <- _. }
    destruct (py_ne old nv).
    + rewrite (IH _ _ _ _ _ k H).
      destruct (decide (k0 = k)) as [-> | Hne].
      * rewrite lookup_insert_eq, Eold. split; discriminate.
      * by rewrite lookup_insert_ne.
    + exact (IH _ _ _ _ _ k H).
Qed.

(** An update with a name the channel does not hold makes the loop raise. *)
Lemma set_cmd_loop_unknown (u : list (string * number)) :
  forall cs ch k,
    k ∈ u.*1 -> cs !! k = None ->
    exists e cs' ch', set_cmd_loop sp u cs ch = (Some e, cs', ch').
Proof.
  induction u as [| [k0 v0] u IH]; simpl; intros cs ch k Hin Hk.
  - by apply elem_of_nil in Hin.
  - destruct (cs !! k0) as [old |] eqn:Eold; [| by eauto].
    destruct (coerce sp k0 v0) as [nv |]; [| by eauto].
    apply elem_of_cons in Hin as [-> | Hin]; [congruence |].
    destruct (py_ne old nv).
    + apply (IH _ _ k Hin).
      destruct (decide (k0 = k)) as [-> | Hne]; [congruence |].
      by rewrite lookup_insert_ne.
    + exact (IH _ _ k Hin Hk).
Qed.

End SetCmd.

Section SetCmdChannel.

Import Gtnet.

Context {payload : Type}.
Implicit Type c : @Channel payload.

Lemma set_cmd_state_id c : set_cmd_state c (cmd_state c) = c.
Proof. by destruct c. Qed.

(** [set_cmd] with a name the channel does not hold raises, and the dirty
    flag stays as it was. *)
Lemma set_cmd_unknown_raises (u : list (string * number)) c (k : string) :
  k ∈ u.*1 -> cmd_state c !! k = None ->
  exists e, fst (set_cmd u c) = Raise e /\
            dirty (snd (set_cmd u c)) = dirty c.
Proof.
  intros Hin Hk. unfold set_cmd.
  destruct (set_cmd_loop_unknown (spec c) u (cmd_state c) false k Hin Hk)
    as (e & cs' & ch' & ->).
  exists e. by split.
Qed.

(** [set_cmd] in terms of its loop. *)
Lemma set_cmd_loop_of (u : list (string * number)) c :
  exists e cs' ch',
    set_cmd_loop (spec c) u (cmd_state c) false = (e, cs', ch') /\
    fst (set_cmd u c)
    = match e with Some x => Raise x | None => Ok tt end /\
    snd (set_cmd u c)
    = match e with
      | Some _ => set_cmd_state c cs'
      | None => if ch' then set_dirty (set_cmd_state c cs') true
                else set_cmd_state c cs'
      end.
Proof.
  unfold set_cmd.
  destruct (set_cmd_loop (spec c) u (cmd_state c) false) as [[e cs'] ch'].
  exists e, cs', ch'. by destruct e.
Qed.

(** On a settled channel [set_cmd] is the identity. *)
Lemma set_cmd_settled (u : list (string * number)) c :
  settled (spec c) u (cmd_state c) -> set_cmd u c = (Ok tt, c).
Proof.
  intros Hs. unfold set_cmd.
  rewrite (set_cmd_loop_settled (spec c) u (cmd_state c) false Hs).
  by rewrite set_cmd_state_id.
Qed.

(** C1, evaluated.  On CH1, an update that names a known field and then an
    unknown one raises [KeyError] with the dirty flag down, yet the known
    field has already been overwritten: the command state is not left as
    it was. *)
Theorem set_cmd_unknown_name_partial_update :
  let c := @init (list number) Specs.CHANNEL_1 None in
  let u := [("REM_GRID", NInt 1); ("REM_BOGUS", NInt 0)] in
  fst (set_cmd u c) = Raise KeyError /\
  dirty (snd (set_cmd u c)) = false /\
  cmd_state c !! "REM_GRID" = Some (NInt 0) /\
  cmd_state (snd (set_cmd u c)) !! "REM_GRID" = Some (NInt 1).
Proof. vm_compute. repeat split. Qed.

(** NaN sent twice to CH4: the frame goes out after the first call, the
    second call finds [nan != nan], raises the flag again, and the same
    frame goes out once more. *)
Example set_cmd_nan_twice_trace :
  let u := [("REM_PLOAD", NFloat S754_nan)] in
  let run := Gtnet.run Specs.list_pack Specs.list_unpack in
  let c1 := run [EvRx Specs.rx_ready; EvSetCmd u; EvTx (Specs.tx_good Specs.t1)]
              (init Specs.CHANNEL_4 None) in
  let c2 := run [EvSetCmd u] c1 in
  let c3 := run [EvTx (Specs.tx_good Specs.t2)] c2 in
  dirty c1 = false /\ length (wire c1) = 1%nat /\
  cmd_state c2 = cmd_state c1 /\ dirty c2 = true /\
  length (wire c3) = 2%nat.
Proof. vm_compute. repeat split. Qed.

(** C4, as stated, fails: with NaN for a float field the second of two
    identical calls raises the dirty flag again, since [nan != nan]. *)
Lemma set_cmd_nan_raises_dirty_again :
  ~ (forall (u : list (string * number)) (c : @Channel (list number)),
       NoDup u.*1 ->
       fst (set_cmd u c) = Ok tt ->
       forall d : bool,
         dirty (snd (set_cmd u (set_dirty (snd (set_cmd u c)) d))) = d).
Proof.
  intros H.
  specialize (H [("REM_PLOAD", NFloat S754_nan)]
                (init Specs.CHANNEL_4 None)).
  assert (Hnd : NoDup [("REM_PLOAD", NFloat S754_nan)].*1)
    by apply NoDup_singleton.
  specialize (H Hnd eq_refl false).
  vm_compute in H. discriminate.
Qed.

(** C4, amended.  For an update without NaN: [set_cmd] raises the dirty
    flag only if a stored value has changed; and a second call with the
    same update, whatever the flag is by then, returns normally and leaves
    the flag and the command state untouched. *)
Theorem set_cmd_dirty_only_on_change (u : list (string * number)) c :
  NoDup u.*1 -> no_nan u ->
  (dirty c = false -> dirty (snd (set_cmd u c)) = true ->
   exists k, cmd_state (snd (set_cmd u c)) !! k <> cmd_state c !! k) /\
  (fst (set_cmd u c) = Ok tt ->
   forall d : bool,
     set_cmd u (set_dirty (snd (set_cmd u c)) d)
     = (Ok tt, set_dirty (snd (set_cmd u c)) d)).
Proof.
  intros Hnd Hnn. split.
  - intros Hd Hd'.
    pose proof (set_cmd_loop_of u c) as (e & cs' & ch' & Eloop & Hr & Hc).
    rewrite Hc in Hd' |- *.
    destruct (set_cmd_loop_changed (spec c) u _ _ _ _ _ Hnd Hnn Eloop)
      as [? | [k Hk]]; [| discriminate |].
    + destruct e; simpl in Hd'; [congruence |].
      destruct ch'; [reflexivity | simpl in Hd'; congruence].
    + exists k. by destruct e, ch'.
  - intros Hok d. apply set_cmd_settled.
    pose proof (set_cmd_loop_of u c) as (e & cs' & ch' & Eloop & Hr & Hc).
    rewrite Hr in Hok. destruct e as [e |]; [discriminate |].
    pose proof (set_cmd_loop_settles (spec c) u _ _ _ _ Hnd Hnn Eloop) as Hs.
    rewrite Hc. by destruct ch'.
Qed.

End SetCmdChannel.

(** The theorem on CH4, for an update of both of its fields. *)
Lemma set_cmd_dirty_only_on_change_witness :
  let u := [("REM_PLOAD", NFloat f_one); ("REM_QLOAD", NInt 2)] in
  let c := @Gtnet.init (list number) Specs.CHANNEL_4 None in
  NoDup u.*1 /\ Gtnet.no_nan u /\
  Gtnet.dirty c = false /\
  Gtnet.dirty (snd (Gtnet.set_cmd u c)) = true /\
  fst (Gtnet.set_cmd u c) = Ok tt /\
  (exists k, Gtnet.cmd_state (snd (Gtnet.set_cmd u c)) !! k
             <> Gtnet.cmd_state c !! k) /\
  Gtnet.set_cmd u (Gtnet.set_dirty (snd (Gtnet.set_cmd u c)) false)
  = (Ok tt, Gtnet.set_dirty (snd (Gtnet.set_cmd u c)) false).
Proof.
  intros u c.
  assert (Hnd : NoDup u.*1).
  { apply (bool_decide_unpack _). vm_compute. exact I. }
  assert (Hnn : Gtnet.no_nan u).
  { repeat constructor; discriminate. }
  assert (Hd : Gtnet.dirty c = false) by reflexivity.
  assert (Hd' : Gtnet.dirty (snd (Gtnet.set_cmd u c)) = true)
    by (vm_compute; reflexivity).
  assert (Hok : fst (Gtnet.set_cmd u c) = Ok tt) by (vm_compute; reflexivity).
  destruct (set_cmd_dirty_only_on_change u c Hnd Hnn) as [H1 H2].
  exact (conj Hnd (conj Hnn (conj Hd (conj Hd' (conj Hok
           (conj (H1 Hd Hd') (H2 Hok false))))))).
Defined.

(* --------------------------------------------------------------------- *)
(** ** GtnetChannel: the transmit loop, gating and reconnection           *)
(* --------------------------------------------------------------------- *)

Section Loops.

Import Gtnet.

Context {payload : Type}.
Variable pack : string -> list number -> option payload.
Variable unpack : string -> payload -> option (list number).

Implicit Type c : @Channel payload.

Abbreviation tx_body := (_tx_loop_body pack).
Abbreviation rx_body := (_rx_loop_body unpack).
Abbreviation build := (_build_cmd_payload pack).

Lemma ensure_connected_keeps (conn : option spec_float) c c1 :
  _ensure_connected conn c = Some c1 ->
  spec c1 = spec c /\ latest_meas c1 = latest_meas c /\
  cmd_state c1 = cmd_state c /\ dirty c1 = dirty c /\
  wire c1 = wire c /\ tx_keepalive_s c1 = tx_keepalive_s c /\
  last_tx c1 = last_tx c /\ sock_open c1 = true.
Proof.
  unfold _ensure_connected. destruct (sock_open c) eqn:Es.
  - intros [= <-]. by rewrite Es.
  - destruct conn; [| discriminate]. by intros [= <-].
Qed.

Lemma ensure_connected_some (conn : option spec_float) c :
  sock_open c = true \/ is_Some conn ->
  exists c1, _ensure_connected conn c = Some c1.
Proof.
  unfold _ensure_connected. intros [-> | [t ->]]; [by eauto |].
  destruct (sock_open c); eauto.
Qed.

Lemma ok_to_send_ext c c1 :
  spec c1 = spec c -> latest_meas c1 = latest_meas c ->
  _ok_to_send c1 = _ok_to_send c.
Proof. unfold _ok_to_send, get_latest_meas. by intros -> ->. Qed.

Lemma build_ext c c1 :
  spec c1 = spec c -> cmd_state c1 = cmd_state c -> build c1 = build c.
Proof. unfold _build_cmd_payload. by intros -> ->. Qed.

(** A pass of the transmit loop writes a frame only through [tx_sent]:
    otherwise the wire is as it was. *)
Lemma tx_body_cases (env : TxEnv) c c' :
  tx_body env c = Some c' ->
  (wire c' = wire c /\ (dirty c = true -> dirty c' = true)) \/
  (exists p, build c = Ok p /\ wire c' = (wire c ++ [p])%list /\ dirty c' = false /\
             _ok_to_send c = true).
Proof.
  unfold _tx_loop_body.
  destruct (_ensure_connected (tx_conn env) c) as [c1 |] eqn:Ec;
    [| discriminate].
  apply ensure_connected_keeps in Ec
    as (Hsp & Hm & Hcs & Hd & Hw & Hka & Hlt & Hso).
  destruct ((dirty c1 || _) && _ok_to_send c1) eqn:Esend.
  - apply andb_true_iff in Esend as [_ Hok].
    rewrite (ok_to_send_ext _ _ Hsp Hm) in Hok.
    rewrite (build_ext _ _ Hsp Hcs).
    destruct (build c) as [p | e].
    + destruct (sock_open c1 && tx_send_ok env).
      * intros [= <-]. right. exists p. simpl. by rewrite Hw.
      * intros [= <-]. left. simpl. by rewrite Hw.
    + intros [= <-]. left. simpl. by rewrite Hw.
  - intros [= <-]. left. by rewrite Hw, Hd.
Qed.

Lemma rx_body_keeps (env : RxEnv) c c' :
  rx_body env c = Some c' ->
  wire c' = wire c /\ (dirty c = true -> dirty c' = true).
Proof.
  unfold _rx_loop_body.
  destruct (_ensure_connected (rx_conn env) c) as [c1 |] eqn:Ec;
    [| discriminate].
  apply ensure_connected_keeps in Ec
    as (Hsp & Hm & Hcs & Hd & Hw & Hka & Hlt & Hso).
  destruct (rx_recv env) as [frame |].
  - destruct (unpack _ frame) as [values |]; intros [= <-]; simpl;
      rewrite ?Hw, ?Hd; auto.
  - intros [= <-]; simpl; rewrite ?Hw; auto.
Qed.

Lemma set_cmd_keeps (u : list (string * number)) c :
  wire (snd (set_cmd u c)) = wire c /\
  (dirty c = true -> dirty (snd (set_cmd u c)) = true).
Proof.
  unfold set_cmd.
  destruct (set_cmd_loop (spec c) u (cmd_state c) false) as [[e cs'] ch'].
  destruct e; simpl; [by auto |]. by destruct ch'.
Qed.




(** C10.  With a gating field declared and required, [_ok_to_send] is a
    total boolean function that answers true exactly when the latest
    snapshot holds the field with a value that [int()] turns into 1.  When
    the field is absent, as before the first frame, or its value does not
    coerce, a pass of the transmit loop writes nothing. *)
Theorem ok_to_send_gate c (n : string) :
  ready_to_send_name (spec c) = Some n ->
  n <> EmptyString ->
  require_ready_to_send (spec c) = true ->
  (_ok_to_send c = true <->
   exists v, dict_get (latest_meas c) n = Some v /\ py_int v = Ok 1) /\
  (dict_get (latest_meas c) n = None \/
   (exists v e, dict_get (latest_meas c) n = Some v /\ py_int v = Raise e) ->
   _ok_to_send c = false /\
   forall env : TxEnv,
     match tx_body env c with
     | Some c' => wire c' = wire c
     | None => True
     end) /\
  (latest_meas c = [] ->
   forall env : TxEnv,
     match tx_body env c with
     | Some c' => wire c' = wire c
     | None => True
     end).
Proof.
  intros Hn Hne Hreq.
  assert (Hdef : _ok_to_send c
                 = match py_int_opt (dict_get (latest_meas c) n) with
                   | Ok z => z =? 1
                   | Raise _ => false
                   end).
  { unfold _ok_to_send, get_latest_meas. rewrite Hn, Hreq. simpl.
    destruct (String.eqb n EmptyString) eqn:E; [| reflexivity].
    apply String.eqb_eq in E. contradiction. }
  assert (Hsilent : _ok_to_send c = false ->
                    forall env : TxEnv,
                      match tx_body env c with
                      | Some c' => wire c' = wire c
                      | None => True
                      end).
  { intros Hno env.
    destruct (tx_body env c) as [c' |] eqn:E; [| exact I].
    destruct (tx_body_cases _ _ _ E) as [[Hw _] | (p & _ & _ & _ & Hok)];
      [exact Hw | congruence]. }
  split; [| split].
  - rewrite Hdef. split.
    + destruct (dict_get (latest_meas c) n) as [v |]; simpl; [| discriminate].
      destruct (py_int v) as [z |] eqn:Ez; [| discriminate].
      intros Hz. apply Z.eqb_eq in Hz as ->. by exists v.
    + intros (v & -> & Hv). simpl. by rewrite Hv.
  - intros Habs.
    assert (Hno : _ok_to_send c = false).
    { rewrite Hdef. destruct Habs as [-> | (v & e & -> & Hv)]; simpl;
        [reflexivity | by rewrite Hv]. }
    split; [exact Hno | exact (Hsilent Hno)].
  - intros Hempty. apply Hsilent. rewrite Hdef, Hempty. reflexivity.
Qed.

End Loops.


(** A fresh CH4 channel has no ReadyToSend_4_ yet and stays silent. *)
Lemma ok_to_send_gate_witness :
  let c := @Gtnet.init (list number) Specs.CHANNEL_4 None in
  Gtnet.ready_to_send_name (Gtnet.spec c) = Some "ReadyToSend_4_" /\
  Gtnet.require_ready_to_send (Gtnet.spec c) = true /\
  Gtnet._ok_to_send c = false /\
  forall env : Gtnet.TxEnv,
    match Gtnet._tx_loop_body Specs.list_pack env c with
    | Some c' => Gtnet.wire c' = Gtnet.wire c
    | None => True
    end.
Proof.
  intros c.
  destruct (ok_to_send_gate Specs.list_pack c "ReadyToSend_4_")
    as (_ & H & _); [reflexivity | discriminate | reflexivity |].
  split; [reflexivity |]. split; [reflexivity |].
  apply H. left. reflexivity.
Defined.

(* --------------------------------------------------------------------- *)
(** ** ChannelDisruptor                                                   *)
(* --------------------------------------------------------------------- *)

Section DisruptorProps.

Import Disrupt.

Context {chan : Type} {rng : Type}.
Variable rng_random : rng -> spec_float * rng.
Variable rng_gauss : spec_float -> spec_float -> rng -> spec_float * rng.
Variable rng_uniform : spec_float -> spec_float -> rng -> spec_float * rng.

(** [random()] returns a float in the range [0.0, 1.0). *)
Hypothesis rng_random_below_one :
  forall g, f_lt (fst (rng_random g)) f_one = true.

Implicit Type d : @ChannelDisruptor chan rng.

Abbreviation on_meas' := (on_meas rng_random rng_gauss rng_uniform).
Abbreviation emit_cmd' := (emit_cmd rng_random rng_uniform).

(** Enabled and frozen, [on_meas] hands the sink the frame it was just
    given: [_last_meas] is overwritten before it is read back. *)
Lemma on_meas_freeze (ch : string) (meas : pydict number) d (cfg : D.t) :
  _data_cfg d !! ch = Some cfg ->
  D.enabled cfg = true -> D.freeze cfg = true ->
  on_meas' ch meas d
  = (Ok tt, _meas_sink ch meas (with_last_meas ch meas d)).
Proof.
  intros Hcfg Hen Hfr. unfold on_meas. rewrite Hcfg. simpl.
  rewrite Hen, Hfr. simpl. by rewrite lookup_insert_eq.
Qed.

(** Enabled and blocked, [emit_cmd] only logs. *)
Lemma emit_cmd_blocked (obj : chan) (ch : string) (u : pydict number)
    (note : string) d (cfg : A.t) :
  _auto_cfg d !! ch = Some cfg ->
  A.enabled cfg = true -> A.block_all cfg = true ->
  emit_cmd' obj ch u note d = _log (LogBlockedCmd ch) d.
Proof.
  intros Hcfg Hen Hb. unfold emit_cmd. rewrite Hcfg. simpl.
  by rewrite Hen, Hb.
Qed.

(** Enabled, not frozen and dropping with probability one, [on_meas] only
    draws from the generator and logs. *)
Lemma on_meas_dropped (ch : string) (meas : pydict number) d (cfg : D.t) :
  _data_cfg d !! ch = Some cfg ->
  D.enabled cfg = true -> D.freeze cfg = false -> D.drop_prob cfg = f_one ->
  on_meas' ch meas d
  = (Ok tt, _log (LogDroppedMeas ch)
              (with_rng (snd (rng_random (_rng d)))
                 (with_last_meas ch meas d))).
Proof.
  intros Hcfg Hen Hfr Hp. unfold on_meas. rewrite Hcfg. simpl.
  rewrite Hen, Hfr, Hp. simpl.
  change (f_lt f_zero f_one) with true. cbv iota.
  pose proof (rng_random_below_one (_rng d)) as Hr.
  destruct (rng_random (_rng d)) as [r g']. simpl in Hr |- *.
  by rewrite Hr.
Qed.

(** C9, amended.  With [enabled] and [block_all] both set in a channel's
    command-path configuration, no number of [emit_cmd] calls reaches the
    command sink or schedules a delivery.  With [enabled] set, [freeze]
    clear and [drop_prob = 1.0] in its telemetry-path configuration, no
    number of [on_meas] calls does so for the telemetry sink. *)
Theorem blocked_and_dropped_reach_no_sink :
  (forall (obj : chan) (ch : string) (attempts : list (pydict number * string))
          d (cfg : A.t),
     _auto_cfg d !! ch = Some cfg ->
     A.enabled cfg = true -> A.block_all cfg = true ->
     let d' := emit_cmd_all rng_random rng_uniform obj ch attempts d in
     cmd_sunk d' = cmd_sunk d /\ cmd_pending d' = cmd_pending d) /\
  (forall (ch : string) (frames : list (pydict number)) d (cfg : D.t),
     _data_cfg d !! ch = Some cfg ->
     D.enabled cfg = true -> D.freeze cfg = false ->
     D.drop_prob cfg = f_one ->
     let d' := on_meas_all rng_random rng_gauss rng_uniform ch frames d in
     meas_sunk d' = meas_sunk d /\ meas_pending d' = meas_pending d).
Proof.
  split.
  - intros obj ch attempts. induction attempts as [| [u note] l IH];
      intros d cfg Hcfg Hen Hb; [by split |].
    simpl. rewrite (emit_cmd_blocked obj ch u note d cfg Hcfg Hen Hb).
    apply (IH (_log (LogBlockedCmd ch) d) cfg); assumption.
  - intros ch frames. induction frames as [| m l IH];
      intros d cfg Hcfg Hen Hfr Hp; [by split |].
    simpl. rewrite (on_meas_dropped ch m d cfg Hcfg Hen Hfr Hp). simpl.
    destruct (IH (_log (LogDroppedMeas ch)
                    (with_rng (snd (rng_random (_rng d)))
                       (with_last_meas ch m d))) cfg Hcfg Hen Hfr Hp)
      as [H1 H2].
    split; [exact H1 | exact H2].
Qed.

End DisruptorProps.

(** C2, evaluated.  CH1 delivers [frame_a]; freezing is then enabled, so
    the stored frame is [frame_a]; the next incoming frame, [frame_b], is
    what the sink receives. *)
Theorem freeze_delivers_incoming_frame :
  let on_meas := Disrupt.on_meas Specs.low_random Specs.low_gauss
                   Specs.low_uniform in
  let d1 := snd (on_meas "CH1" Specs.frame_a Specs.disruptor0) in
  let d2 := Disrupt.set_data_degraded "CH1" Specs.data_freeze d1 in
  let d3 := snd (on_meas "CH1" Specs.frame_b d2) in
  Disrupt._last_meas d2 !! "CH1" = Some Specs.frame_a /\
  Disrupt.meas_sunk d2 = [("CH1", Specs.frame_a)] /\
  Disrupt.meas_sunk d3 = [("CH1", Specs.frame_a); ("CH1", Specs.frame_b)] /\
  Specs.frame_b <> Specs.frame_a.
Proof. vm_compute. repeat split. discriminate. Qed.

(** C9, as stated, fails: [block_all] and [drop_prob] act only behind the
    [enabled] switch, and [drop_prob] only when [freeze] is off. *)
Lemma block_all_needs_enabled :
  let emit := Disrupt.emit_cmd (chan := unit) Specs.low_random
                Specs.low_uniform in
  let on_meas := Disrupt.on_meas Specs.low_random Specs.low_gauss
                   Specs.low_uniform in
  let da := Disrupt.set_autonomy_degraded "CH1" (Specs.auto_block false)
              Specs.disruptor0 in
  let dd := Disrupt.set_data_degraded "CH1" (Specs.data_drop_all false false)
              Specs.disruptor0 in
  let df := Disrupt.set_data_degraded "CH1" (Specs.data_drop_all true true)
              Specs.disruptor0 in
  (Disrupt.A.block_all <$> Disrupt._auto_cfg da !! "CH1") = Some true /\
  Disrupt.cmd_sunk (emit tt "CH1" Specs.frame_a "note" da)
  = [(tt, "CH1", Specs.frame_a, "note")] /\
  (Disrupt.D.drop_prob <$> Disrupt._data_cfg dd !! "CH1") = Some f_one /\
  Disrupt.meas_sunk (snd (on_meas "CH1" Specs.frame_a dd))
  = [("CH1", Specs.frame_a)] /\
  (Disrupt.D.drop_prob <$> Disrupt._data_cfg df !! "CH1") = Some f_one /\
  Disrupt.meas_sunk (snd (on_meas "CH1" Specs.frame_a df))
  = [("CH1", Specs.frame_a)].
Proof. vm_compute. repeat split. Qed.

(** Two commands and two frames on a blocked, dropping CH1. *)
Lemma blocked_and_dropped_reach_no_sink_witness :
  let da := Disrupt.set_autonomy_degraded "CH1" (Specs.auto_block true)
              Specs.disruptor0 in
  let dd := Disrupt.set_data_degraded "CH1" (Specs.data_drop_all true false)
              Specs.disruptor0 in
  (forall g, f_lt (fst (Specs.low_random g)) f_one = true) /\
  Disrupt.cmd_sunk
    (Disrupt.emit_cmd_all Specs.low_random Specs.low_uniform tt "CH1"
       [(Specs.frame_a, "one"); (Specs.frame_b, "two")] da) = [] /\
  Disrupt.meas_sunk
    (Disrupt.on_meas_all Specs.low_random Specs.low_gauss Specs.low_uniform
       "CH1" [Specs.frame_a; Specs.frame_b] dd) = [].
Proof.
  intros da dd.
  assert (Hr : forall g, f_lt (fst (Specs.low_random g)) f_one = true)
    by (intros g; reflexivity).
  destruct (blocked_and_dropped_reach_no_sink (chan := unit)
              Specs.low_random Specs.low_gauss Specs.low_uniform Hr)
    as [Hc Hm].
  split; [exact Hr |]. split.
  - apply (Hc tt "CH1" _ da (Specs.auto_block true));
      [vm_compute; reflexivity | reflexivity | reflexivity].
  - apply (Hm "CH1" _ dd (Specs.data_drop_all true false));
      [vm_compute; reflexivity | reflexivity | reflexivity | reflexivity].
Defined.

(* --------------------------------------------------------------------- *)
(** ** DG controller                                                      *)
(* --------------------------------------------------------------------- *)

(** Case analysis on every float comparison in sight. *)
Ltac q_cases :=
  unfold py_min, py_max, q_gt, q_ge, q_le, q_lt in *;
  repeat match goal with
         | |- context [Qlt_le_dec ?a ?b] => destruct (Qlt_le_dec a b)
         end;
  simpl negb; cbv iota.

Section ControllerProps.

Import DG.
Local Open Scope Q_scope.

Lemma clamp_le (x lo hi : Q) : lo <= x -> clamp x lo hi <= x.
Proof. unfold clamp. intros H. q_cases; lra. Qed.

Lemma clamp_range (x lo hi : Q) :
  lo <= hi -> lo <= clamp x lo hi <= hi.
Proof. unfold clamp. intros H. q_cases; lra. Qed.




(** The three branches of the guardrail: none raises, none returns more
    than it was given, and the first caps at the base setpoint. *)
Lemma apply_voltage_guard_le (c : DGControllerConfig) (pref_cmd vpu : Q) :
  exists r, _apply_voltage_guard c pref_cmd vpu = Ok r /\
            r <= pref_cmd /\
            (vpu < Vmin_pu c -> r <= Pref_base c).
Proof.
  unfold _apply_voltage_guard, q_gt, q_lt.
  destruct (Qlt_le_dec vpu (Vmin_pu c)) as [Hlo | Hlo].
  - exists (py_min pref_cmd (Pref_base c)). split; [reflexivity |].
    q_cases; split; intros; lra.
  - destruct (Qlt_le_dec vpu (Vsoft_pu c)) as [Hsoft | Hsoft].
    + destruct (Qlt_le_dec (Pref_base c) pref_cmd) as [Hpos | Hpos].
      * unfold py_div.
        destruct (Qeq_dec (Vsoft_pu c - Vmin_pu c) 0) as [Hz | Hz];
          [lra |].
        simpl. eexists. split; [reflexivity |].
        pose proof (clamp_range
                      ((vpu - Vmin_pu c) / (Vsoft_pu c - Vmin_pu c)) 0 1)
          as Hsc.
        set (scale := clamp _ 0 1) in *.
        split; [| intros; lra].
        assert (H01 : 0 <= scale <= 1) by (apply Hsc; lra).
        assert (Hm : (pref_cmd - Pref_base c) * scale
                     <= (pref_cmd - Pref_base c) * 1).
        { apply Qmult_le_l; [lra | apply H01]. }
        lra.
      * exists pref_cmd. split; [reflexivity |]. split; intros; lra.
    + exists pref_cmd. split; [reflexivity |]. split; intros; lra.
Qed.


End ControllerProps.


(** Reads of a controller field through the field updates. *)
Ltac st_simpl :=
  cbn [DG.cfg DG._f_wpu DG._f_smach DG._f_vpu DG._rl_wref DG._rl_pref
       DG._last_meas_ts DG._last_cmd DG._overload_start_ts
       DG._reset_until_ts DG.enabled DG.remote_block_override
       DG.set_f_wpu DG.set_f_smach DG.set_f_vpu DG.set_rl
       DG.set_last_meas_ts DG.set_last_cmd DG.set_overload_start_ts
       DG.set_reset_until_ts].

Section ControllerUpdate.

Import DG.
Local Open Scope Q_scope.






End ControllerUpdate.



(* --------------------------------------------------------------------- *)
(** ** The stability predicate                                            *)
(* --------------------------------------------------------------------- *)

Section StabilityProps.

Import Stability.
Local Open Scope Q_scope.

Implicit Type s : gmap string (option value).
Implicit Type samples : list (gmap string (option value)).

Lemma q_lt_true (a b : Q) : q_lt a b = true -> a < b.
Proof. unfold q_lt. by destruct (Qlt_le_dec a b). Qed.

Lemma q_lt_false (a b : Q) : q_lt a b = false -> b <= a.
Proof. unfold q_lt. by destruct (Qlt_le_dec a b). Qed.

Lemma list_max_ge (xs : list Q) :
  forall x, x <= list_max x xs /\ Forall (fun v => v <= list_max x xs) xs.
Proof.
  unfold list_max. induction xs as [| a xs IH]; intros x; simpl.
  - split; [lra | constructor].
  - destruct (q_gt a x) eqn:E; unfold q_gt in E.
    + apply q_lt_true in E. destruct (IH a) as [H1 H2].
      split; [lra |]. by constructor.
    + apply q_lt_false in E. destruct (IH x) as [H1 H2].
      split; [exact H1 |]. constructor; [lra | exact H2].
Qed.

Lemma list_max_const (q : Q) (n : nat) : list_max q (replicate n q) = q.
Proof.
  unfold list_max. induction n as [| n IH]; simpl; [reflexivity |].
  destruct (q_gt q q) eqn:E; [| exact IH]. apply q_lt_true in E. lra.
Qed.

Lemma list_min_const (q : Q) (n : nat) : list_min q (replicate n q) = q.
Proof.
  unfold list_min. induction n as [| n IH]; simpl; [reflexivity |].
  destruct (q_lt q q) eqn:E; [| exact IH]. apply q_lt_true in E. lra.
Qed.

Lemma Qabs_diag (q : Q) : Qabs (q - q) == 0.
Proof.
  assert (H : q - q == 0) by ring. rewrite H. reflexivity.
Qed.

Lemma max_step_loop_const (q : Q) (n : nat) :
  max_step_loop q (replicate n q) 0 = 0.
Proof.
  induction n as [| n IH]; cbn [replicate max_step_loop]; [reflexivity |].
  pose proof (Qabs_diag q) as H0.
  destruct (q_gt (Qabs (q - q)) 0) eqn:E; [| exact IH].
  apply q_lt_true in E. lra.
Qed.

Lemma max_step_const (q : Q) (n : nat) : _max_step (replicate n q) = 0.
Proof. destruct n; simpl; [reflexivity | apply max_step_loop_const]. Qed.

Lemma map_replicate {A B} (f : A -> B) (n : nat) (x : A) :
  map f (replicate n x) = replicate n (f x).
Proof. induction n; simpl; congruence. Qed.

Lemma omap_replicate {A B} (f : A -> option B) (n : nat) (x : A) :
  omap f (replicate n x)
  = match f x with
    | Some v => replicate n v
    | None => []
    end.
Proof.
  induction n as [| n IH]; simpl; [by destruct (f x) |].
  change (list_omap A B f) with (omap (M := list) f). rewrite IH.
  by destruct (f x).
Qed.

Lemma present_replicate s (nm : string) (n : nat) :
  present (replicate n s) nm
  = match sample_get s nm with
    | Some v => replicate n v
    | None => []
    end.
Proof. exact (omap_replicate (fun x => sample_get x nm) n s). Qed.

(** A positive flag value anywhere in the window fails the flag test. *)
Lemma flag_positive_fails samples (nm : string) s (v : value) :
  s ∈ samples -> sample_get s nm = Some v -> 0 < to_Q v ->
  flag_ok samples nm = false.
Proof.
  intros Hs Hv Hpos. unfold flag_ok.
  assert (Hin : In (to_Q v) (map to_Q (present samples nm))).
  { apply in_map, list_elem_of_In, list_elem_of_omap. by exists s. }
  destruct (map to_Q (present samples nm)) as [| x xs]; [destruct Hin |].
  destruct (list_max_ge xs x) as [Hx Hxs].
  assert (Hmax : to_Q v <= list_max x xs).
  { destruct Hin as [<- | Hin]; [exact Hx |].
    rewrite Forall_forall in Hxs. apply Hxs, list_elem_of_In, Hin. }
  unfold q_eq. destruct (Qeq_bool (list_max x xs) 0) eqn:E; [| reflexivity].
  apply Qeq_bool_iff in E. lra.
Qed.

Lemma stable_needs_flags samples (limits : list (string * limit_cfg)) :
  flag_ok samples "OVERLOADED" = false \/
  flag_ok samples "W_DETECTED" = false ->
  _stable_window_ok samples limits = false.
Proof.
  unfold _stable_window_ok. intros Hf.
  destruct (length samples <? 10)%nat; [reflexivity |].
  destruct (negb (forallb (required_ok samples) limits)); [reflexivity |].
  destruct Hf as [H | H]; rewrite H; simpl; [reflexivity |].
  by destruct (negb (flag_ok samples "OVERLOADED")).
Qed.

(** On a constant window a flag passes when it is absent or reads 0. *)
Lemma flag_ok_const s (nm : string) (n : nat) :
  (forall v, sample_get s nm = Some v -> to_Q v == 0) ->
  flag_ok (replicate n s) nm = true.
Proof.
  intros H. unfold flag_ok. rewrite present_replicate.
  destruct (sample_get s nm) as [v |]; [| reflexivity].
  rewrite map_replicate. destruct n as [| n]; [reflexivity |]. simpl.
  rewrite list_max_const. unfold q_eq. apply Qeq_bool_iff. by apply H.
Qed.

Lemma required_ok_const s (lim : string * limit_cfg) (n : nat) :
  (10 <= n)%nat ->
  (required (snd lim) = true -> is_Some (sample_get s (fst lim))) ->
  required_ok (replicate n s) lim = true.
Proof.
  intros Hn Hreq. unfold required_ok.
  destruct (required (snd lim)); [| reflexivity].
  destruct (Hreq eq_refl) as [v Hv].
  rewrite present_replicate, Hv, !length_replicate.
  apply negb_true_iff, Nat.ltb_ge.
  pose proof (Nat.Div0.div_le_upper_bound n 2 n). lia.
Qed.

Lemma limit_ok_const s (lim : string * limit_cfg) (n : nat) :
  (forall b, span (snd lim) = Some b \/ step (snd lim) = Some b -> 0 <= b) ->
  limit_ok (replicate n s) lim = true.
Proof.
  intros Hb. unfold limit_ok. rewrite present_replicate.
  destruct (sample_get s (fst lim)) as [v |]; [| reflexivity].
  destruct n as [| n]; [reflexivity |].
  change (replicate (S n) v) with (v :: replicate n v).
  cbv iota. change (v :: replicate n v) with (replicate (S n) v).
  rewrite map_replicate.
  assert (Hgt : forall x b, x == 0 -> 0 <= b -> negb (q_gt x b) = true).
  { intros x b Hx H0. unfold q_gt, q_lt.
    destruct (Qlt_le_dec b x); [lra | reflexivity]. }
  destruct (is_int v).
  - destruct (step (snd lim)) as [b |] eqn:Est; [| reflexivity].
    apply Hgt; [by rewrite max_step_const | apply Hb; by right].
  - simpl replicate. cbv iota.
    change (to_Q v :: replicate n (to_Q v)) with (replicate (S n) (to_Q v)).
    rewrite list_max_const, list_min_const, max_step_const.
    apply andb_true_iff. split.
    + destruct (span (snd lim)) as [b |] eqn:Esp; [| reflexivity].
      apply Hgt; [ring | apply Hb; by left].
    + destruct (step (snd lim)) as [b |] eqn:Est; [| reflexivity].
      apply Hgt; [reflexivity | apply Hb; by right].
Qed.

(** C8, amended.  The predicate is false for every window in which some
    sample carries OVERLOADED or W_DETECTED with a positive value.  It is
    true for every window of N >= 10 identical samples in which both flags
    are absent or 0, every required signal is present, and the configured
    span and step bounds are not negative. *)
Theorem stable_window_flags_and_constant :
  (forall samples (limits : list (string * limit_cfg)) (nm : string) s
          (v : value),
     nm = "OVERLOADED" \/ nm = "W_DETECTED" ->
     s ∈ samples -> sample_get s nm = Some v -> 0 < to_Q v ->
     _stable_window_ok samples limits = false) /\
  (forall s (limits : list (string * limit_cfg)) (n : nat),
     (10 <= n)%nat ->
     (forall nm v, nm = "OVERLOADED" \/ nm = "W_DETECTED" ->
                   sample_get s nm = Some v -> to_Q v == 0) ->
     (forall l, In l limits -> required (snd l) = true ->
                is_Some (sample_get s (fst l))) ->
     (forall l b, In l limits ->
                  span (snd l) = Some b \/ step (snd l) = Some b -> 0 <= b) ->
     _stable_window_ok (replicate n s) limits = true).
Proof.
  split.
  - intros samples limits nm s v Hnm Hs Hv Hpos.
    apply stable_needs_flags.
    destruct Hnm as [-> | ->]; [left | right];
      exact (flag_positive_fails samples _ s v Hs Hv Hpos).
  - intros s limits n Hn Hflags Hreq Hbounds.
    unfold _stable_window_ok. rewrite length_replicate.
    destruct (Nat.ltb_spec n 10) as [Hlt | _]; [lia |].
    assert (Hr : forallb (required_ok (replicate n s)) limits = true).
    { apply forallb_forall. intros l Hl.
      apply required_ok_const; [exact Hn | exact (Hreq l Hl)]. }
    rewrite Hr. simpl negb. cbv iota.
    rewrite !flag_ok_const by (intros v; apply Hflags; auto).
    simpl negb. cbv iota.
    apply forallb_forall. intros l Hl.
    apply limit_ok_const. intros b. exact (Hbounds l b Hl).
Qed.

End StabilityProps.

(** C8, as stated, fails: a negative flag value next to zeros has maximum
    0, so the flag test [max(ov) != 0] lets the window through. *)
Lemma negative_flag_passes_window :
  let window := Specs.snap (-1) :: replicate 9 (Specs.snap 0) in
  Stability.sample_get (Specs.snap (-1)) "OVERLOADED"
  = Some (Stability.VInt (-1)) /\
  Stability._stable_window_ok window Specs.limits_no_pmeas = true.
Proof. vm_compute. split; reflexivity. Qed.

(** One overloaded snapshot among twelve fails the window; twelve equal,
    clear snapshots pass it. *)
Lemma stable_window_flags_and_constant_witness :
  Stability._stable_window_ok
    (Specs.snap 0 :: Specs.snap 1 :: replicate 10 (Specs.snap 0))
    Specs.STABILITY_LIMITS = false /\
  Stability._stable_window_ok (replicate 12 (Specs.snap 0))
    Specs.limits_no_pmeas = true.
Proof.
  destruct stable_window_flags_and_constant as [Hflag Hconst].
  split.
  - apply (Hflag _ _ "OVERLOADED" (Specs.snap 1) (Stability.VInt 1)).
    + by left.
    + apply list_elem_of_In. right. left. reflexivity.
    + vm_compute. reflexivity.
    + reflexivity.
  - apply Hconst.
    + vm_compute. lia.
    + intros nm v [-> | ->]; vm_compute; intros [= <-]; reflexivity.
    + intros l Hl Hr. vm_compute in Hl.
      repeat (destruct Hl as [<- | Hl]; [by eexists |]).
      destruct Hl.
    + intros l b Hl Hb. vm_compute in Hl.
      repeat (destruct Hl as [<- | Hl];
              [destruct Hb as [[= <-] | [= <-]]; vm_compute; discriminate |]).
      destruct Hl.
Defined.

(* --------------------------------------------------------------------- *)
(** ** [_recv_exact]: framing over a fragmented stream                    *)
(* --------------------------------------------------------------------- *)

Section RecvExact.

Import Socket.

Lemma recv_exact_loop_spec (fuel n : nat) :
  forall (buf : list Byte.byte) (s : sock),
    (length buf <= n)%nat -> (n - length buf <= fuel)%nat ->
    exists s',
      recv_exact_loop fuel n buf s
      = Some (if (n <=? length buf + length (stream s))%nat
              then Ok (take n (buf ++ stream s)%list)
              else Raise (ending s), s') /\
      ((n <= length buf + length (stream s))%nat ->
       stream s' = drop (n - length buf) (stream s) /\
       ending s' = ending s).
Proof.
  induction fuel as [| fuel IH]; intros buf s Hle Hfuel.
  - assert (length buf = n) as Hn by lia.
    exists s. simpl. rewrite <- Hn, Nat.ltb_irrefl.
    replace (length buf <=? length buf + length (stream s))%nat with true
      by (symmetry; apply Nat.leb_le; lia).
    rewrite take_app_length, Nat.sub_diag. by split.
  - cbn [recv_exact_loop].
    destruct (length buf <? n)%nat eqn:Elt.
    2:{ apply Nat.ltb_ge in Elt. assert (length buf = n) as Hn by lia.
        exists s. rewrite <- Hn.
        replace (length buf <=? length buf + length (stream s))%nat with true
          by (symmetry; apply Nat.leb_le; lia).
        rewrite take_app_length, Nat.sub_diag. by split. }
    apply Nat.ltb_lt in Elt.
    destruct s as [| [seg | e] rest]; [| destruct seg as [| b seg] |].
    + exists []. simpl.
      replace (n <=? length buf + 0)%nat with false
        by (symmetry; apply Nat.leb_gt; lia).
      split; [done | lia].
    + exists rest. simpl.
      replace (n <=? length buf + 0)%nat with false
        by (symmetry; apply Nat.leb_gt; lia).
      split; [done | lia].
    + unfold recv.
      change (stream (Ok (b :: seg) :: rest))
        with ((b :: seg) ++ stream rest)%list.
      change (ending (Ok (b :: seg) :: rest)) with (ending rest).
      destruct (length (b :: seg) <=? n - length buf)%nat eqn:Eseg.
      * apply Nat.leb_le in Eseg.
        destruct (IH (buf ++ b :: seg)%list rest) as (s' & Hr & Hs).
        { rewrite length_app. lia. }
        { rewrite length_app. simpl in *. lia. }
        exists s'. rewrite Hr. rewrite !length_app, <- app_assoc.
        rewrite Nat.add_assoc. split; [done |].
        intros Hn. destruct Hs as [Hs He];
          [rewrite length_app in *; lia |].
        split; [| exact He]. rewrite Hs, length_app.
        replace (n - length buf)%nat
          with (length (b :: seg) + (n - (length buf + length (b :: seg))))%nat
          by lia.
        by rewrite drop_app_add.
      * apply Nat.leb_gt in Eseg.
        destruct (take (n - length buf) (b :: seg)) as [| b' ch] eqn:Ech.
        { apply (f_equal length) in Ech. rewrite length_take in Ech.
          simpl in *. lia. }
        rewrite <- Ech. clear Ech b' ch.
        set (k := (n - length buf)%nat) in *.
        assert (Hlen : length (buf ++ take k (b :: seg))%list = n).
        { rewrite length_app, length_take. lia. }
        exists (Ok (drop k (b :: seg)) :: rest).
        replace (recv_exact_loop fuel n (buf ++ take k (b :: seg))%list
                   (Ok (drop k (b :: seg)) :: rest))
          with (Some (@Ok (list Byte.byte) (buf ++ take k (b :: seg))%list,
                      Ok (drop k (b :: seg)) :: rest)).
        2:{ destruct fuel; simpl; rewrite Hlen, Nat.ltb_irrefl; reflexivity. }
        replace (n <=? length buf + length ((b :: seg) ++ stream rest))%nat
          with true
          by (symmetry; apply Nat.leb_le; rewrite length_app; lia).
        split.
        -- do 2 f_equal.
           rewrite take_app_ge by lia. fold k.
           rewrite take_app_le by lia. reflexivity.
        -- intros _.
           assert (drop k (b :: seg) <> []) as Hne.
           { intros E. apply (f_equal length) in E.
             rewrite length_drop in E. simpl in *. lia. }
           destruct (drop k (b :: seg)) as [| b' tl] eqn:Ed; [done |].
           change (stream (Ok (b' :: tl) :: rest))
             with ((b' :: tl) ++ stream rest)%list.
           change (ending (Ok (b' :: tl) :: rest)) with (ending rest).
           rewrite <- Ed. rewrite drop_app_le by lia. by split.
    + exists rest. simpl.
      replace (n <=? length buf + 0)%nat with false
        by (symmetry; apply Nat.leb_gt; lia).
      split; [done | lia].
Qed.

(** X1.  [_recv_exact] always ends within [nbytes] passes of its loop.  It
    returns the first [nbytes] bytes of the stream, however the stream is
    cut into segments, and leaves the rest to be read by the next call.
    When the stream ends before [nbytes] bytes have come it raises:
    [ConnectionError] if the peer closed, and the exception of [recv] if
    that call raised. *)
Theorem recv_exact_reads_one_frame (s : sock) (nbytes : nat) :
  exists s',
    _recv_exact s nbytes
    = Some (if (nbytes <=? length (stream s))%nat
            then Ok (take nbytes (stream s))
            else Raise (ending s), s') /\
    ((nbytes <= length (stream s))%nat ->
     stream s' = drop nbytes (stream s) /\ ending s' = ending s).
Proof.
  destruct (recv_exact_loop_spec nbytes nbytes [] s) as (s' & Hr & Hs);
    [simpl; lia | simpl; lia |].
  exists s'. unfold _recv_exact. rewrite Hr. simpl.
  split; [done |]. intros Hn. destruct Hs as [Hs He]; [simpl; lia |].
  split; [| exact He]. rewrite Hs. simpl. by rewrite Nat.sub_0_r.
Qed.

End RecvExact.

(** Three bytes in two segments read as a frame of two and a frame of
    one; a third read meets the closed connection. *)
Example recv_exact_three_bytes :
  Socket._recv_exact Samples.three_bytes 2
  = Some (Ok [Byte.x01; Byte.x02], [Ok [Byte.x03]]) /\
  Socket._recv_exact [Ok [Byte.x03]] 1 = Some (Ok [Byte.x03], []) /\
  Socket._recv_exact [] 1 = Some (Raise ConnectionError, []).
Proof. repeat split. Qed.

(* --------------------------------------------------------------------- *)
(** ** Dictionaries built from a frame layout                             *)
(* --------------------------------------------------------------------- *)

Section DictFacts.

Context {V : Type}.
Implicit Types (d : pydict V) (k : string) (v : V).

Lemma dict_set_fresh d k v :
  k ∉ d.*1 -> dict_set d k v = (d ++ [(k, v)])%list.
Proof.
  induction d as [| [k' v'] d IH]; simpl; intros H; [done |].
  apply not_elem_of_cons in H as [Hne H].
  destruct (String.eqb k' k) eqn:E.
  - apply String.eqb_eq in E. congruence.
  - by rewrite IH.
Qed.

Lemma dict_fold_nodup (items : list (string * V)) :
  forall d, NoDup (d.*1 ++ items.*1) ->
    fold_left (fun d kv => dict_set d (fst kv) (snd kv)) items d
    = (d ++ items)%list.
Proof.
  induction items as [| [k v] items IH]; intros d Hnd; simpl.
  - by rewrite app_nil_r.
  - simpl in Hnd.
    assert (k ∉ d.*1) as Hk.
    { apply NoDup_app in Hnd as (_ & Hd & _). intros Hin.
      apply (Hd k Hin). by left. }
    rewrite (dict_set_fresh d k v Hk), IH.
    + by rewrite <- app_assoc.
    + by rewrite fmap_app, <- app_assoc.
Qed.

Lemma dict_of_items_nodup (items : list (string * V)) :
  NoDup items.*1 -> dict_of_items items = items.
Proof. intros H. exact (dict_fold_nodup items [] H). Qed.

Lemma zip_fst_elem (names : list string) :
  forall (values : list V) k, k ∈ (zip names values).*1 -> k ∈ names.
Proof.
  induction names as [| x names IH]; intros [| y values] k; simpl;
    try (intros H; by apply elem_of_nil in H).
  intros H. apply elem_of_cons in H as [-> | H]; [by left |].
  right. exact (IH _ _ H).
Qed.

Lemma zip_fst_nodup (names : list string) (values : list V) :
  NoDup names -> NoDup (zip names values).*1.
Proof.
  revert values. induction names as [| x names IH]; intros [| y values] Hnd;
    simpl; try constructor.
  - apply NoDup_cons in Hnd as [Hx _]. intros Hin.
    exact (Hx (zip_fst_elem _ _ _ Hin)).
  - apply NoDup_cons in Hnd as [_ Hnd]. exact (IH _ Hnd).
Qed.

Lemma zip_fst_full (names : list string) :
  forall (values : list V),
    (length names <= length values)%nat -> (zip names values).*1 = names.
Proof.
  induction names as [| x names IH]; intros [| y values] Hl; simpl in *;
    try reflexivity; try lia.
  rewrite IH by lia. reflexivity.
Qed.

Lemma zip_lookup (names : list string) :
  forall (values : list V) (i : nat) k v,
    names !! i = Some k -> values !! i = Some v ->
    (k, v) ∈ zip names values.
Proof.
  induction names as [| x names IH]; intros [| y values] i k v Hn Hv;
    try discriminate; try (destruct i; discriminate).
  destruct i as [| i]; simpl in *.
  - injection Hn as ->. injection Hv as ->. by left.
  - right. exact (IH _ _ _ _ Hn Hv).
Qed.

Lemma zip_elem (names : list string) :
  forall (values : list V) k v,
    (k, v) ∈ zip names values ->
    exists i : nat, names !! i = Some k /\ values !! i = Some v.
Proof.
  induction names as [| x names IH]; intros [| y values] k v H; simpl in H;
    try (by apply elem_of_nil in H).
  apply elem_of_cons in H as [[= -> ->] | H].
  - by exists 0%nat.
  - destruct (IH _ _ _ H) as (i & ? & ?). by exists (S i).
Qed.

Lemma dict_get_elem d k v :
  NoDup d.*1 -> (k, v) ∈ d -> dict_get d k = Some v.
Proof.
  induction d as [| [k' v'] d IH]; simpl; intros Hnd Hin.
  - by apply elem_of_nil in Hin.
  - apply NoDup_cons in Hnd as [Hk' Hnd].
    apply elem_of_cons in Hin as [[= -> ->] | Hin].
    + by rewrite String.eqb_refl.
    + destruct (String.eqb k' k) eqn:E; [| exact (IH Hnd Hin)].
      apply String.eqb_eq in E as ->. exfalso. apply Hk'.
      apply list_elem_of_fmap. by exists (k, v).
Qed.

Lemma dict_get_absent d k : k ∉ d.*1 -> dict_get d k = None.
Proof.
  induction d as [| [k' v'] d IH]; simpl; intros H; [done |].
  apply not_elem_of_cons in H as [Hne H].
  destruct (String.eqb k' k) eqn:E; [| exact (IH H)].
  apply String.eqb_eq in E. congruence.
Qed.

Lemma index_nodup (names : list string) :
  forall (i : nat) k,
    NoDup names -> names !! i = Some k -> index k names = Ok i.
Proof.
  induction names as [| x names IH]; intros i k Hnd Hi; [done |].
  apply NoDup_cons in Hnd as [Hx Hnd]. simpl.
  destruct i as [| i]; simpl in Hi.
  - injection Hi as ->. by rewrite String.eqb_refl.
  - destruct (String.eqb x k) eqn:E.
    + apply String.eqb_eq in E as ->. exfalso. apply Hx.
      by apply (list_elem_of_lookup_2 _ i).
    + by rewrite (IH _ _ Hnd Hi).
Qed.

End DictFacts.

Lemma nth_error_is_lookup {A} (l : list A) (i : nat) :
  nth_error l i = l !! i.
Proof. revert i. induction l as [| a l IH]; intros [| i]; simpl; auto. Qed.

(* --------------------------------------------------------------------- *)
(** ** GtnetChannel: invariants of the command state and of the loops     *)
(* --------------------------------------------------------------------- *)

(** Case analysis of one pass of a worker loop. *)
Ltac loop_cases :=
  unfold Gtnet._tx_loop_body, Gtnet._rx_loop_body, Gtnet._ensure_connected,
    Gtnet.tx_sent, Gtnet.tx_failed, Gtnet.rx_stored, Gtnet.rx_failed,
    Gtnet._handle_disconnect in *;
  repeat case_match; simplify_eq; simpl in *.

Section ChannelInvariants.

Import Gtnet GtnetInv.

Context {payload : Type}.
Variable pack : string -> list number -> option payload.
Variable unpack : string -> payload -> option (list number).

Implicit Type c : @Channel payload.

Abbreviation tx_pass := (_tx_loop_body pack).
Abbreviation rx_pass := (_rx_loop_body unpack).
Abbreviation step' := (step pack unpack).
Abbreviation run' := (run pack unpack).

Lemma run_snoc (evs : list Event) (e : Event) c :
  run' (evs ++ [e]) c = step' e (run' evs c).
Proof. unfold run. by rewrite fold_left_app. Qed.

(** What [set_cmd] leaves alone. *)
Lemma set_cmd_frame (u : list (string * number)) c :
  spec (snd (set_cmd u c)) = spec c /\
  tx_keepalive_s (snd (set_cmd u c)) = tx_keepalive_s c /\
  sock_open (snd (set_cmd u c)) = sock_open c /\
  latest_meas (snd (set_cmd u c)) = latest_meas c /\
  stats (snd (set_cmd u c)) = stats c /\
  wire (snd (set_cmd u c)) = wire c /\
  delivered (snd (set_cmd u c)) = delivered c.
Proof.
  unfold set_cmd.
  destruct (set_cmd_loop (spec c) u (cmd_state c) false) as [[e cs'] ch'].
  destruct e; simpl; [done |]. by destruct ch'.
Qed.

(** The layout and the keepalive setting never change. *)
Lemma step_static (e : Event) c :
  spec (step' e c) = spec c /\
  tx_keepalive_s (step' e c) = tx_keepalive_s c.
Proof.
  destruct e as [u | env | env]; simpl.
  - pose proof (set_cmd_frame u c) as (? & ? & _). done.
  - destruct (rx_pass env c) as [c' |] eqn:E; [| done]. by loop_cases.
  - destruct (tx_pass env c) as [c' |] eqn:E; [| done]. by loop_cases.
Qed.

Lemma run_static (evs : list Event) :
  forall c, spec (run' evs c) = spec c /\
            tx_keepalive_s (run' evs c) = tx_keepalive_s c.
Proof.
  induction evs as [| e evs IH]; intros c; simpl; [done |].
  fold (run' evs (step' e c)).
  destruct (IH (step' e c)) as [-> ->]. apply step_static.
Qed.

(** Only [set_cmd] writes the command state. *)
Lemma step_worker_cmd_state (e : Event) c :
  is_worker e = true -> cmd_state (step' e c) = cmd_state c.
Proof.
  destruct e as [u | env | env]; simpl; [discriminate | |]; intros _.
  - destruct (rx_pass env c) as [c' |] eqn:E; [| done]. by loop_cases.
  - destruct (tx_pass env c) as [c' |] eqn:E; [| done]. by loop_cases.
Qed.

(** No step adds or removes a command name. *)
Lemma step_cmd_dom (e : Event) c (k : string) :
  cmd_state (step' e c) !! k = None <-> cmd_state c !! k = None.
Proof.
  destruct e as [u | env | env].
  - simpl. pose proof (set_cmd_loop_of u c) as (e & cs' & ch' & El & _ & ->).
    rewrite <- (set_cmd_loop_dom _ _ _ _ _ _ _ k El).
    by destruct e, ch'.
  - by rewrite step_worker_cmd_state.
  - by rewrite step_worker_cmd_state.
Qed.

Lemma run_cmd_dom (evs : list Event) (k : string) :
  forall c, cmd_state (run' evs c) !! k = None <-> cmd_state c !! k = None.
Proof.
  induction evs as [| e evs IH]; intros c; simpl; [done |].
  fold (run' evs (step' e c)). rewrite IH. apply step_cmd_dom.
Qed.

(** The names [__init__] enters are those that [zip] pairs with a type. *)
Lemma init_fold_lookup_None (l : list (string * string)) (k : string) :
  forall m : gmap string number,
    fold_left
      (fun cs nt =>
         <[fst nt := if String.eqb (snd nt) "int" then NInt 0
                     else NFloat f_zero]> cs) l m !! k = None
    <-> m !! k = None /\ k ∉ l.*1.
Proof.
  induction l as [| [n t] l IH]; intros m; simpl.
  - split; [intros H; split; [done | apply not_elem_of_nil] | by intros []].
  - rewrite IH, not_elem_of_cons. simpl.
    destruct (decide (n = k)) as [-> | Hne].
    + rewrite lookup_insert_eq. split; [by intros [] | by intros [_ []]].
    + rewrite lookup_insert_ne by done. intuition congruence.
Qed.

Lemma init_fold_lookup_Some (l : list (string * string)) (k : string)
    (v : number) :
  forall m : gmap string number,
    fold_left
      (fun cs nt =>
         <[fst nt := if String.eqb (snd nt) "int" then NInt 0
                     else NFloat f_zero]> cs) l m !! k = Some v ->
    m !! k = Some v \/
    exists t, (k, t) ∈ l /\
              v = if String.eqb t "int" then NInt 0 else NFloat f_zero.
Proof.
  induction l as [| [n t] l IH]; intros m; simpl; [by left |].
  intros H. destruct (IH _ H) as [Hm | (t' & Hin & ->)].
  - destruct (decide (n = k)) as [-> | Hne].
    + rewrite lookup_insert_eq in Hm. injection Hm as <-.
      right. exists t. split; [by left | done].
    + rewrite lookup_insert_ne in Hm by done. by left.
  - right. exists t'. split; [by right | done].
Qed.

Lemma cmd_values_total (cs : gmap string number) (names : list string) :
  (forall n, n ∈ names -> cs !! n <> None) ->
  exists vals, cmd_values cs names = Ok vals /\ length vals = length names.
Proof.
  induction names as [| n names IH]; intros H; simpl; [by exists [] |].
  destruct (cs !! n) as [v |] eqn:E.
  2:{ exfalso. apply (H n); [by left | done]. }
  destruct IH as (vals & -> & Hl).
  { intros n' Hn'. apply H. by right. }
  exists (v :: vals). simpl. by rewrite Hl.
Qed.

Lemma cmd_values_missing (cs : gmap string number) (names : list string)
    (n : string) :
  n ∈ names -> cs !! n = None -> cmd_values cs names = Raise KeyError.
Proof.
  induction names as [| n' names IH]; intros Hin Hn; simpl.
  - by apply elem_of_nil in Hin.
  - destruct (cs !! n') as [v |] eqn:E; [| done].
    apply elem_of_cons in Hin as [-> | Hin]; [congruence |].
    by rewrite (IH Hin Hn).
Qed.

(** X2.  A receive pass whose frame arrives and decodes replaces the
    snapshot by that frame: with distinct field names, the field at
    position [i] of the layout reads the [i]-th decoded value and a name
    outside the layout reads nothing, whatever the snapshot held before.
    The listener is handed the same frame; command state, dirty flag and
    wire are left alone. *)
Theorem rx_pass_stores_frame (env : RxEnv) c (frame : payload)
    (values : list number) :
  NoDup (meas_names (spec c)) ->
  sock_open c = true \/ is_Some (rx_conn env) ->
  rx_recv env = Some frame ->
  unpack (meas_fmt (spec c)) frame = Some values ->
  exists c',
    rx_pass env c = Some c' /\
    get_latest_meas c' = zip (meas_names (spec c)) values /\
    (forall (i : nat) k v,
       meas_names (spec c) !! i = Some k -> values !! i = Some v ->
       dict_get (get_latest_meas c') k = Some v) /\
    (forall k, k ∉ meas_names (spec c) ->
               dict_get (get_latest_meas c') k = None) /\
    (rx_has_listener env = true ->
     delivered c' = (delivered c ++ [get_latest_meas c'])%list) /\
    cmd_state c' = cmd_state c /\ dirty c' = dirty c /\ wire c' = wire c /\
    rx_frames (stats c') = rx_frames (stats c) + 1.
Proof.
  intros Hnd Hconn Hrecv Hun.
  destruct (ensure_connected_some (rx_conn env) c Hconn) as [c1 Hc1].
  pose proof (ensure_connected_keeps _ _ _ Hc1)
    as (Hsp & Hm & Hcs & Hd & Hw & Hka & Hlt & Hso).
  assert (Hdl : delivered c1 = delivered c /\
                rx_frames (stats c1) = rx_frames (stats c)).
  { revert Hc1. clear. intros H. by loop_cases. }
  destruct Hdl as [Hdl Hrf].
  unfold _rx_loop_body. rewrite Hc1, Hrecv, Hsp, Hun.
  pose proof (zip_fst_nodup _ values Hnd) as Hnd'.
  rewrite (dict_of_items_nodup _ Hnd').
  eexists. split; [reflexivity |]. unfold get_latest_meas. simpl.
  split; [reflexivity |].
  split.
  { intros i k v Hk Hv. apply dict_get_elem; [exact Hnd' |].
    exact (zip_lookup _ _ _ _ _ Hk Hv). }
  split.
  { intros k Hk. apply dict_get_absent. intros Hin.
    exact (Hk (zip_fst_elem _ _ _ Hin)). }
  split; [by intros ->; rewrite Hdl |].
  by rewrite Hcs, Hd, Hw, Hrf.
Qed.

(** X3.  When [cmd_types] is at least as long as [cmd_names], every state
    a channel reaches from [__init__] holds a value for every command
    name: the list comprehension of [_build_cmd_payload] never raises
    [KeyError] and yields one value per name. *)
Theorem cmd_frame_always_complete (sp : ChannelSpec)
    (keepalive : option spec_float) (evs : list Event) :
  (length (cmd_names sp) <= length (cmd_types sp))%nat ->
  exists vals,
    cmd_values (cmd_state (run' evs (init sp keepalive))) (cmd_names sp)
    = Ok vals /\
    length vals = length (cmd_names sp).
Proof.
  intros Hlen. apply cmd_values_total. intros n Hn.
  rewrite run_cmd_dom. simpl. unfold init_cmd_state.
  rewrite init_fold_lookup_None, (zip_fst_full _ _ Hlen).
  intros [_ Hno]. exact (Hno Hn).
Qed.

(** X4.  When [cmd_types] is shorter than [cmd_names] (the names being
    distinct), [__init__] leaves the surplus names out of the command
    state and nothing ever adds them: every attempt to build a frame
    raises [KeyError], and the channel never writes a frame. *)
Theorem short_cmd_types_never_sends (sp : ChannelSpec)
    (keepalive : option spec_float) (evs : list Event) :
  NoDup (cmd_names sp) ->
  (length (cmd_types sp) < length (cmd_names sp))%nat ->
  let c := run' evs (init sp keepalive) in
  _build_cmd_payload pack c = Raise KeyError /\ wire c = [].
Proof.
  intros Hnd Hlen.
  destruct (lookup_lt_is_Some_2 (cmd_names sp) (length (cmd_types sp)) Hlen)
    as [n Hn].
  assert (Hmiss : forall evs,
             cmd_state (run' evs (init sp keepalive)) !! n = None).
  { intros evs'. rewrite run_cmd_dom. simpl. unfold init_cmd_state.
    rewrite init_fold_lookup_None. split; [apply lookup_empty |].
    intros Hin. apply list_elem_of_fmap in Hin as ([n' t] & -> & Hin).
    apply zip_elem in Hin as (i & Hi & Ht). simpl in Hn.
    pose proof (NoDup_lookup _ _ _ _ Hnd Hi Hn) as ->.
    apply lookup_lt_Some in Ht. lia. }
  assert (Hbuild : forall evs,
             _build_cmd_payload pack (run' evs (init sp keepalive))
             = Raise KeyError).
  { intros evs'. unfold _build_cmd_payload.
    destruct (run_static evs' (init sp keepalive)) as [-> _]. simpl.
    rewrite (cmd_values_missing _ _ n); [done | | apply Hmiss].
    by apply (list_elem_of_lookup_2 _ (length (cmd_types sp))). }
  split; [apply Hbuild |].
  induction evs as [| e evs IH] using rev_ind; [done |].
  rewrite run_snoc.
  destruct e as [u | env | env]; simpl.
  - pose proof (set_cmd_frame u (run' evs (init sp keepalive)))
      as (_ & _ & _ & _ & _ & -> & _). exact IH.
  - destruct (rx_pass env _) as [c' |] eqn:E; [| exact IH].
    destruct (rx_body_keeps _ _ _ _ E) as [-> _]. exact IH.
  - destruct (tx_pass env _) as [c' |] eqn:E; [| exact IH].
    destruct (tx_body_cases _ _ _ _ E) as [[-> _] | (p & Hp & _)];
      [exact IH |].
    rewrite Hbuild in Hp. discriminate.
Qed.

Lemma coerce_kind (sp : ChannelSpec) (k : string) (v nv : number) :
  coerce sp k v = Ok nv -> field_is_int sp k = Some (is_int_num nv).
Proof.
  unfold coerce, field_is_int.
  destruct (index k (cmd_names sp)) as [idx |]; simpl; [| discriminate].
  destruct (getitem (cmd_types sp) idx) as [typ |]; simpl; [| discriminate].
  destruct (String.eqb typ "int").
  - destruct (py_int v); simpl; [| discriminate]. by intros [= <-].
  - destruct (py_float v); simpl; [| discriminate]. by intros [= <-].
Qed.

Lemma set_cmd_loop_well_typed (sp : ChannelSpec)
    (u : list (string * number)) :
  forall cs ch e cs' ch',
    set_cmd_loop sp u cs ch = (e, cs', ch') ->
    well_typed sp cs -> well_typed sp cs'.
Proof.
  induction u as [| [k0 v0] u IH]; simpl; intros cs ch e cs' ch' H Hwt.
  - by injection H as _ <- _.
  - destruct (cs !! k0) as [old |] eqn:Eold.
    2:{ by injection H as _ <- _. }
    destruct (coerce sp k0 v0) as [nv |] eqn:Ec.
    2:{ by injection H as _ <- _. }
    destruct (py_ne old nv); [| exact (IH _ _ _ _ _ H Hwt)].
    apply (IH _ _ _ _ _ H). intros k v.
    destruct (decide (k0 = k)) as [<- | Hne].
    + rewrite lookup_insert_eq. intros [= <-]. exact (coerce_kind _ _ _ _ Ec).
    + rewrite lookup_insert_ne by done. apply Hwt.
Qed.

Lemma init_well_typed (sp : ChannelSpec) :
  NoDup (cmd_names sp) -> well_typed sp (init_cmd_state sp).
Proof.
  intros Hnd k v Hk. unfold init_cmd_state in Hk.
  apply init_fold_lookup_Some in Hk as [Hk | (t & Hin & ->)].
  { by rewrite lookup_empty in Hk. }
  apply zip_elem in Hin as (i & Hi & Ht).
  unfold field_is_int. rewrite (index_nodup _ _ _ Hnd Hi). simpl.
  unfold getitem. rewrite nth_error_is_lookup, Ht.
  by destruct (String.eqb t "int").
Qed.

(** X5.  With distinct command names, every value a channel ever stores
    is of the kind its name is declared with: an "int" command holds a
    Python [int], any other a [float]; [set_cmd] coerces before it
    stores, and nothing else writes the command state. *)
Theorem cmd_state_keeps_declared_kind (sp : ChannelSpec)
    (keepalive : option spec_float) (evs : list Event) (k : string)
    (v : number) :
  NoDup (cmd_names sp) ->
  cmd_state (run' evs (init sp keepalive)) !! k = Some v ->
  field_is_int sp k = Some (is_int_num v).
Proof.
  intros Hnd. revert k v. change (well_typed sp
    (cmd_state (run' evs (init sp keepalive)))).
  induction evs as [| e evs IH] using rev_ind.
  - exact (init_well_typed sp Hnd).
  - rewrite run_snoc.
    destruct (is_worker e) eqn:Ew.
    + by rewrite step_worker_cmd_state.
    + destruct e as [u | |]; try discriminate. simpl.
      pose proof (set_cmd_loop_of u (run' evs (init sp keepalive)))
        as (e & cs' & ch' & El & _ & ->).
      destruct (run_static evs (init sp keepalive)) as [Hsp _].
      rewrite Hsp in El. simpl in El.
      pose proof (set_cmd_loop_well_typed _ _ _ _ _ _ _ El IH) as Hwt.
      by destruct e, ch'.
Qed.

(** What a completed pass of [set_cmd]'s loop has stored. *)
Lemma set_cmd_loop_post (sp : ChannelSpec) (u : list (string * number)) :
  forall cs ch cs' ch',
    NoDup u.*1 ->
    set_cmd_loop sp u cs ch = (None, cs', ch') ->
    forall k v, (k, v) ∈ u ->
      exists old nv,
        cs !! k = Some old /\ coerce sp k v = Ok nv /\
        cs' !! k = Some (if py_ne old nv then nv else old).
Proof.
  induction u as [| [k0 v0] u IH]; simpl; intros cs ch cs' ch' Hnd H k v Hin.
  - by apply elem_of_nil in Hin.
  - apply NoDup_cons in Hnd as [Hk0 Hnd].
    destruct (cs !! k0) as [old |] eqn:Eold; [| discriminate].
    destruct (coerce sp k0 v0) as [nv |] eqn:Ec; [| discriminate].
    apply elem_of_cons in Hin as [[= -> ->] | Hin].
    + exists old, nv. rewrite Eold, Ec. do 2 (split; [done |]).
      destruct (py_ne old nv);
        rewrite (set_cmd_loop_other _ _ _ _ _ _ _ _ H Hk0);
        [by rewrite lookup_insert_eq | done].
    + assert (k <> k0) as Hne.
      { intros ->. apply Hk0. apply list_elem_of_fmap. by exists (k0, v). }
      destruct (py_ne old nv).
      * destruct (IH _ _ _ _ Hnd H k v Hin) as (o & n & Ho & Hc & Hs).
        rewrite lookup_insert_ne in Ho by done. by exists o, n.
      * exact (IH _ _ _ _ Hnd H k v Hin).
Qed.

(** X6.  When [set_cmd] returns normally (the update's names distinct),
    each named command holds the coerced new value if that differs from
    the old one and the old value otherwise, every other command is as it
    was, and the dirty flag is never lowered. *)
Theorem set_cmd_returns_stored (u : list (string * number)) c :
  NoDup u.*1 ->
  fst (set_cmd u c) = Ok tt ->
  (forall k v, (k, v) ∈ u ->
     exists old nv,
       cmd_state c !! k = Some old /\ coerce (spec c) k v = Ok nv /\
       cmd_state (snd (set_cmd u c)) !! k
       = Some (if py_ne old nv then nv else old)) /\
  (forall k, k ∉ u.*1 ->
     cmd_state (snd (set_cmd u c)) !! k = cmd_state c !! k) /\
  (dirty c = true -> dirty (snd (set_cmd u c)) = true).
Proof.
  intros Hnd Hok.
  pose proof (set_cmd_loop_of u c) as (e & cs' & ch' & El & Hr & Hc).
  rewrite Hr in Hok. destruct e as [e |]; [discriminate |].
  assert (Hcs : cmd_state (snd (set_cmd u c)) = cs')
    by (rewrite Hc; by destruct ch').
  rewrite Hcs. split; [| split].
  - exact (set_cmd_loop_post _ _ _ _ _ _ Hnd El).
  - intros k Hk. exact (set_cmd_loop_other _ _ _ _ _ _ _ _ El Hk).
  - apply set_cmd_keeps.
Qed.

(** One quiet step of a channel that is not dirty and has no keepalive. *)
Lemma step_quiet (e : Event) c :
  tx_keepalive_s c = None -> dirty c = false ->
  quiet unpack (spec c) e = true ->
  wire (step' e c) = wire c /\ dirty (step' e c) = false /\
  cmd_state (step' e c) = cmd_state c.
Proof.
  intros Hka Hd Hq. destruct e as [u | env | env]; simpl in *;
    [discriminate | |].
  - destruct (rx_pass env c) as [c' |] eqn:E; [| done].
    revert E Hq. unfold _rx_loop_body, _ensure_connected.
    destruct (sock_open c); [| destruct (rx_conn env); [| discriminate]];
      simpl; destruct (rx_recv env); try discriminate;
      destruct (unpack _ _); try discriminate; by intros [= <-].
  - destruct (tx_pass env c) as [c' |] eqn:E; [| done].
    revert E. unfold _tx_loop_body, _ensure_connected.
    destruct (sock_open c); [| destruct (tx_conn env); [| discriminate]];
      simpl; rewrite Hka, Hd; simpl; by intros [= <-].
Qed.

(** X7.  Without a keepalive period, a channel that is not dirty writes
    nothing as long as no [set_cmd] call and no receive error occurs,
    however many passes the two loops make: this holds from [__init__]
    on, and again after each frame sent. *)
Theorem clean_channel_stays_silent (evs : list Event) c :
  tx_keepalive_s c = None ->
  dirty c = false ->
  forallb (quiet unpack (spec c)) evs = true ->
  wire (run' evs c) = wire c /\ dirty (run' evs c) = false /\
  cmd_state (run' evs c) = cmd_state c.
Proof.
  revert c. induction evs as [| e evs IH]; intros c Hka Hd Hq; [done |].
  simpl in Hq. apply andb_true_iff in Hq as [He Hq].
  destruct (step_quiet e c Hka Hd He) as (Hw & Hd' & Hcs).
  destruct (step_static e c) as [Hsp Hka'].
  simpl. fold (run' evs (step' e c)).
  destruct (IH (step' e c)) as (-> & -> & ->);
    [by rewrite Hka' | done | by rewrite Hsp |].
  by rewrite Hw, Hcs.
Qed.



End ChannelInvariants.

(** A fresh CH4 channel takes its first frame: the load reading is found
    under its name, a name outside the layout is not. *)
Lemma rx_pass_stores_frame_witness :
  let c := @Gtnet.init (list number) Specs.CHANNEL_4 None in
  NoDup (Gtnet.meas_names (Gtnet.spec c)) /\
  exists c',
    Gtnet._rx_loop_body Specs.list_unpack Specs.rx_ready c = Some c' /\
    Gtnet.get_latest_meas c'
    = zip (Gtnet.meas_names Specs.CHANNEL_4) Specs.ch4_frame_ready /\
    dict_get (Gtnet.get_latest_meas c') "PLOAD680" = Some (NFloat f_one) /\
    dict_get (Gtnet.get_latest_meas c') "MODE" = None /\
    Gtnet.delivered c' = [Gtnet.get_latest_meas c'].
Proof.
  intros c.
  assert (Hnd : NoDup (Gtnet.meas_names (Gtnet.spec c))).
  { apply (bool_decide_unpack _). vm_compute. exact I. }
  assert (Hout : "MODE" ∉ Gtnet.meas_names (Gtnet.spec c)).
  { apply (bool_decide_unpack _). vm_compute. exact I. }
  split; [exact Hnd |].
  destruct (rx_pass_stores_frame Specs.list_unpack Specs.rx_ready c
              Specs.ch4_frame_ready Specs.ch4_frame_ready Hnd
              (or_intror (ex_intro _ Specs.t1 eq_refl)) eq_refl eq_refl)
    as (c' & H1 & H2 & H3 & H4 & H5 & _).
  exists c'. split; [exact H1 |]. split; [exact H2 |].
  split; [exact (H3 5%nat "PLOAD680" (NFloat f_one) eq_refl eq_refl) |].
  split; [exact (H4 "MODE" Hout) |].
  exact (H5 eq_refl).
Defined.

(** CH1 declares four names and four types: after a command its frame has
    four values. *)
Lemma cmd_frame_always_complete_witness :
  let evs := [Gtnet.EvSetCmd [("REM_GRID", NInt 1)]] in
  (length (Gtnet.cmd_names Specs.CHANNEL_1)
   <= length (Gtnet.cmd_types Specs.CHANNEL_1))%nat /\
  exists vals,
    Gtnet.cmd_values
      (Gtnet.cmd_state
         (Gtnet.run Specs.list_pack Specs.list_unpack evs
            (Gtnet.init Specs.CHANNEL_1 None)))
      (Gtnet.cmd_names Specs.CHANNEL_1) = Ok vals /\
    length vals = length (Gtnet.cmd_names Specs.CHANNEL_1).
Proof.
  intros evs.
  assert (Hlen : (length (Gtnet.cmd_names Specs.CHANNEL_1)
                  <= length (Gtnet.cmd_types Specs.CHANNEL_1))%nat)
    by (simpl; lia).
  split; [exact Hlen |].
  exact (cmd_frame_always_complete Specs.list_pack Specs.list_unpack
           Specs.CHANNEL_1 None evs Hlen).
Defined.

(** CH4 with one type missing: a frame received, a command taken, a
    transmit pass, and still nothing on the wire. *)
Lemma short_cmd_types_never_sends_witness :
  let evs := [Gtnet.EvRx Specs.rx_ready;
              Gtnet.EvSetCmd [("REM_PLOAD", NFloat f_one)];
              Gtnet.EvTx (Specs.tx_good Specs.t1)] in
  let c := Gtnet.run Specs.list_pack Specs.list_unpack evs
             (Gtnet.init Samples.CHANNEL_4_short None) in
  NoDup (Gtnet.cmd_names Samples.CHANNEL_4_short) /\
  (length (Gtnet.cmd_types Samples.CHANNEL_4_short)
   < length (Gtnet.cmd_names Samples.CHANNEL_4_short))%nat /\
  Gtnet._build_cmd_payload Specs.list_pack c = Raise KeyError /\
  Gtnet.wire c = [].
Proof.
  intros evs c.
  assert (Hnd : NoDup (Gtnet.cmd_names Samples.CHANNEL_4_short)).
  { apply (bool_decide_unpack _). vm_compute. exact I. }
  assert (Hlen : (length (Gtnet.cmd_types Samples.CHANNEL_4_short)
                  < length (Gtnet.cmd_names Samples.CHANNEL_4_short))%nat)
    by (simpl; lia).
  split; [exact Hnd |]. split; [exact Hlen |].
  exact (short_cmd_types_never_sends Specs.list_pack Specs.list_unpack
           Samples.CHANNEL_4_short None evs Hnd Hlen).
Defined.

(** The float command of CH1 is given the int 2 and holds the float 2.0. *)
Lemma cmd_state_keeps_declared_kind_witness :
  let evs := [Gtnet.EvSetCmd [("REM_LGFTIMEx", NInt 2)]] in
  let c := Gtnet.run Specs.list_pack Specs.list_unpack evs
             (Gtnet.init Specs.CHANNEL_1 None) in
  NoDup (Gtnet.cmd_names Specs.CHANNEL_1) /\
  Gtnet.cmd_state c !! "REM_LGFTIMEx" = Some (NFloat Specs.t2) /\
  GtnetInv.field_is_int Specs.CHANNEL_1 "REM_LGFTIMEx"
  = Some (GtnetInv.is_int_num (NFloat Specs.t2)).
Proof.
  intros evs c.
  assert (Hnd : NoDup (Gtnet.cmd_names Specs.CHANNEL_1)).
  { apply (bool_decide_unpack _). vm_compute. exact I. }
  assert (Hv : Gtnet.cmd_state c !! "REM_LGFTIMEx" = Some (NFloat Specs.t2))
    by (vm_compute; reflexivity).
  split; [exact Hnd |]. split; [exact Hv |].
  exact (cmd_state_keeps_declared_kind Specs.list_pack Specs.list_unpack
           Specs.CHANNEL_1 None evs "REM_LGFTIMEx" (NFloat Specs.t2) Hnd Hv).
Defined.

(** Both fields of CH4 written in one call: the int 2 is stored as 2.0,
    and the dirty flag of a dirty channel stays up. *)
Lemma set_cmd_returns_stored_witness :
  let u := [("REM_PLOAD", NFloat f_one); ("REM_QLOAD", NInt 2)] in
  let c := @Gtnet.init (list number) Specs.CHANNEL_4 None in
  NoDup u.*1 /\ fst (Gtnet.set_cmd u c) = Ok tt /\
  (exists old nv,
     Gtnet.cmd_state c !! "REM_QLOAD" = Some old /\
     Gtnet.coerce (Gtnet.spec c) "REM_QLOAD" (NInt 2) = Ok nv /\
     Gtnet.cmd_state (snd (Gtnet.set_cmd u c)) !! "REM_QLOAD"
     = Some (if py_ne old nv then nv else old)) /\
  Gtnet.cmd_state (snd (Gtnet.set_cmd u c)) !! "REM_OTHER"
  = Gtnet.cmd_state c !! "REM_OTHER".
Proof.
  intros u c.
  assert (Hnd : NoDup u.*1).
  { apply (bool_decide_unpack _). vm_compute. exact I. }
  assert (Hok : fst (Gtnet.set_cmd u c) = Ok tt) by (vm_compute; reflexivity).
  assert (Hin : ("REM_QLOAD", NInt 2) ∈ u).
  { apply list_elem_of_In. right. left. reflexivity. }
  assert (Hout : "REM_OTHER" ∉ u.*1).
  { apply (bool_decide_unpack _). vm_compute. exact I. }
  destruct (set_cmd_returns_stored u c Hnd Hok) as (H1 & H2 & _).
  split; [exact Hnd |]. split; [exact Hok |].
  split; [exact (H1 _ _ Hin) | exact (H2 _ Hout)].
Defined.

(** CH4 after its first frame: two more telemetry frames and two more
    transmit passes, and the wire still holds that one frame. *)
Lemma clean_channel_stays_silent_witness :
  let evs := [Gtnet.EvRx Specs.rx_ready; Gtnet.EvTx (Specs.tx_good Specs.t2);
              Gtnet.EvRx Specs.rx_ready; Gtnet.EvTx (Specs.tx_good Specs.t3)] in
  let c := Samples.ch4_sent in
  Gtnet.tx_keepalive_s c = None /\ Gtnet.dirty c = false /\
  length (Gtnet.wire c) = 1%nat /\
  forallb (GtnetInv.quiet Specs.list_unpack (Gtnet.spec c)) evs = true /\
  Gtnet.wire (Gtnet.run Specs.list_pack Specs.list_unpack evs c)
  = Gtnet.wire c /\
  Gtnet.dirty (Gtnet.run Specs.list_pack Specs.list_unpack evs c) = false.
Proof.
  intros evs c.
  assert (Hka : Gtnet.tx_keepalive_s c = None) by (vm_compute; reflexivity).
  assert (Hd : Gtnet.dirty c = false) by (vm_compute; reflexivity).
  assert (Hq : forallb (GtnetInv.quiet Specs.list_unpack (Gtnet.spec c)) evs
               = true) by (vm_compute; reflexivity).
  destruct (clean_channel_stays_silent Specs.list_pack Specs.list_unpack
              evs c Hka Hd Hq) as (H1 & H2 & _).
  split; [exact Hka |]. split; [exact Hd |].
  split; [vm_compute; reflexivity |]. split; [exact Hq |].
  split; [exact H1 | exact H2].
Defined.

(* --------------------------------------------------------------------- *)
(** ** Comparisons of binary64 values                                     *)
(* --------------------------------------------------------------------- *)

Section FloatOrder.

Lemma SFcompare_antisym (a b : spec_float) :
  SFcompare b a = option_map CompOpp (SFcompare a b).
Proof.
  destruct a as [sa | sa | | sa ma ea], b as [sb | sb | | sb mb eb]; simpl;
    try reflexivity;
    try (destruct sa; reflexivity); try (destruct sb; reflexivity);
    try (destruct sa, sb; reflexivity).
  f_equal. destruct sa, sb; try reflexivity;
    rewrite (Z.compare_antisym ea eb);
    destruct (ea ?= eb); simpl; try reflexivity.
  - rewrite CompOpp_involutive.
    exact (Pos.compare_cont_antisym mb ma Eq).
  - symmetry. exact (Pos.compare_cont_antisym ma mb Eq).
Qed.

Lemma SFcompare_not_nan (a b : spec_float) :
  is_nan a = false -> is_nan b = false -> exists o, SFcompare a b = Some o.
Proof.
  destruct a, b; simpl; try discriminate; intros _ _; eauto.
Qed.

Lemma f_lt_le (a b : spec_float) : f_lt a b = true -> f_le a b = true.
Proof.
  unfold f_lt, f_le, SFltb, SFleb.
  by destruct (SFcompare a b) as [[] |].
Qed.

Lemma f_lt_not_nan (a b : spec_float) :
  f_lt a b = true -> is_nan a = false /\ is_nan b = false.
Proof.
  unfold f_lt, SFltb. destruct a, b; simpl; try discriminate; auto.
Qed.

Lemma f_le_not_nan (a b : spec_float) :
  f_le a b = true -> is_nan a = false /\ is_nan b = false.
Proof.
  unfold f_le, SFleb. destruct a, b; simpl; try discriminate; auto.
Qed.

Lemma f_le_refl (a : spec_float) : is_nan a = false -> f_le a a = true.
Proof.
  intros H. pose proof (SFeqb_refl a H) as E.
  unfold SFeqb in E. unfold f_le, SFleb.
  by destruct (SFcompare a a) as [[] |].
Qed.

(** On numbers that are not NaN, [not (a < b)] is [b <= a]. *)
Lemma f_lt_false_le (a b : spec_float) :
  is_nan a = false -> is_nan b = false ->
  f_lt a b = false -> f_le b a = true.
Proof.
  intros Ha Hb. unfold f_lt, f_le, SFltb, SFleb.
  rewrite (SFcompare_antisym a b).
  destruct (SFcompare_not_nan a b Ha Hb) as [o ->].
  by destruct o.
Qed.

Lemma f_le_false_lt (a b : spec_float) :
  is_nan a = false -> is_nan b = false ->
  f_le a b = false -> f_lt b a = true.
Proof.
  intros Ha Hb. unfold f_lt, f_le, SFltb, SFleb.
  rewrite (SFcompare_antisym a b).
  destruct (SFcompare_not_nan a b Ha Hb) as [o ->].
  by destruct o.
Qed.

(** [max(a, b)] is never NaN when [a] is not. *)
Lemma f_max_not_nan (a b : spec_float) :
  is_nan a = false -> is_nan (Disrupt.f_max a b) = false.
Proof.
  intros Ha. unfold Disrupt.f_max. destruct (f_lt a b) eqn:E; [| done].
  by apply f_lt_not_nan in E as [_ ?].
Qed.

Lemma f_max_ge_l (a b : spec_float) :
  is_nan a = false -> f_le a (Disrupt.f_max a b) = true.
Proof.
  intros Ha. unfold Disrupt.f_max. destruct (f_lt a b) eqn:E.
  - by apply f_lt_le.
  - by apply f_le_refl.
Qed.

(** A float that compares equal to an int truncates to that int. *)
Lemma int_float_eqb_py_int (x : Z) (f : spec_float) :
  int_float_eqb x f = true -> py_int (NFloat f) = Ok x.
Proof.
  destruct f as [s | s | | s m e]; simpl; try discriminate.
  - intros H. apply Z.eqb_eq in H. by subst.
  - destruct (0 <=? e) eqn:Ee.
    + intros H. apply Z.eqb_eq in H. by subst.
    + apply Z.leb_gt in Ee. intros H. apply Z.eqb_eq in H.
      rewrite Z.shiftl_mul_pow2 in H by lia.
      f_equal. rewrite <- Z.shiftr_opp_r, Z.shiftr_div_pow2 by lia.
      destruct s; simpl in *.
      * assert (Z.pos m = (- x) * 2 ^ (- e)) as -> by lia.
        rewrite Z.div_mul by (apply Z.pow_nonzero; lia). lia.
      * rewrite <- H. apply Z.div_mul. apply Z.pow_nonzero; lia.
Qed.

Lemma py_eq_py_int (v : number) (x : Z) :
  py_eq v (NInt x) = true -> py_int v = Ok x.
Proof.
  destruct v as [z | f]; simpl.
  - intros H. apply Z.eqb_eq in H. by subst.
  - apply int_float_eqb_py_int.
Qed.

End FloatOrder.

(* --------------------------------------------------------------------- *)
(** ** command_helpers: validated writes                                  *)
(* --------------------------------------------------------------------- *)

Section HelperProps.

Import Gtnet GtnetInv CommandHelpers.

Context {payload : Type}.
Variable pack : string -> list number -> option payload.
Variable unpack : string -> payload -> option (list number).

Implicit Type c : @Channel payload.

Lemma coerce_int_field (sp : ChannelSpec) (nm : string) (z : Z) :
  field_is_int sp nm = Some true -> coerce sp nm (NInt z) = Ok (NInt z).
Proof.
  unfold field_is_int, coerce.
  destruct (index nm (cmd_names sp)) as [idx |]; simpl; [| discriminate].
  destruct (getitem (cmd_types sp) idx) as [typ |]; simpl; [| discriminate].
  by intros [= ->].
Qed.

Lemma coerce_float_field (sp : ChannelSpec) (nm : string) (f : spec_float) :
  field_is_int sp nm = Some false -> coerce sp nm (NFloat f) = Ok (NFloat f).
Proof.
  unfold field_is_int, coerce.
  destruct (index nm (cmd_names sp)) as [idx |]; simpl; [| discriminate].
  destruct (getitem (cmd_types sp) idx) as [typ |]; simpl; [| discriminate].
  by intros [= ->].
Qed.

(** [set_cmd] of one int to an "int" command. *)
Lemma set_cmd_int_field (nm : string) (z z0 : Z) c :
  field_is_int (spec c) nm = Some true ->
  cmd_state c !! nm = Some (NInt z0) ->
  fst (set_cmd [(nm, NInt z)] c) = Ok tt /\
  cmd_state (snd (set_cmd [(nm, NInt z)] c)) = <[nm := NInt z]> (cmd_state c) /\
  dirty (snd (set_cmd [(nm, NInt z)] c)) = dirty c || negb (z0 =? z).
Proof.
  intros Hf Hs. unfold set_cmd. simpl.
  rewrite Hs, (coerce_int_field _ _ z Hf). unfold py_ne. simpl.
  destruct (z0 =? z) eqn:E; simpl.
  - apply Z.eqb_eq in E as ->. rewrite insert_id by done.
    by rewrite orb_false_r.
  - by rewrite orb_true_r.
Qed.

(** X9.  [set_selector] on an "int" command takes exactly the values that
    compare equal to 0 or 1 (so 1.0 too), and then stores the int 0 or 1;
    any other value, NaN included, raises [ValueError] before the channel
    is touched. *)
Theorem set_selector_stores_a_bit (nm : string) (value : number) c (z0 : Z) :
  field_is_int (spec c) nm = Some true ->
  cmd_state c !! nm = Some (NInt z0) ->
  (exists b, (b = 0 \/ b = 1) /\ py_eq value (NInt b) = true /\
             fst (set_selector nm value c) = Ok tt /\
             cmd_state (snd (set_selector nm value c))
             = <[nm := NInt b]> (cmd_state c)) \/
  (py_eq value (NInt 0) = false /\ py_eq value (NInt 1) = false /\
   set_selector nm value c = (Raise ValueError, c)).
Proof.
  intros Hf Hs. unfold set_selector.
  destruct (py_eq value (NInt 0)) eqn:E0; simpl.
  - left. exists 0. rewrite (py_eq_py_int _ _ E0).
    destruct (set_cmd_int_field nm 0 z0 c Hf Hs) as (? & ? & _). auto.
  - destruct (py_eq value (NInt 1)) eqn:E1; simpl.
    + left. exists 1. rewrite (py_eq_py_int _ _ E1).
      destruct (set_cmd_int_field nm 1 z0 c Hf Hs) as (? & ? & _). auto.
    + by right.
Qed.

Lemma set_dial_step (nm : string) (value : number) (lo hi : Z) c (z0 : Z) :
  field_is_int (spec c) nm = Some true ->
  cmd_state c !! nm = Some (NInt z0) ->
  lo <= z0 <= hi ->
  spec (snd (set_dial nm value lo hi c)) = spec c /\
  exists z, cmd_state (snd (set_dial nm value lo hi c)) !! nm = Some (NInt z) /\
            lo <= z <= hi.
Proof.
  intros Hf Hs Hr. unfold set_dial.
  destruct value as [z | f]; simpl; [| by eauto].
  destruct ((lo <=? z) && (z <=? hi)) eqn:E; simpl; [| by eauto].
  destruct (set_cmd_int_field nm z z0 c Hf Hs) as (_ & -> & _).
  split; [apply (set_cmd_frame [(nm, NInt z)] c) |].
  exists z. rewrite lookup_insert_eq. split; [done | lia].
Qed.

(** X10.  An "int" command written only through [set_dial] with the
    bounds [lo] and [hi] stays within them: a value that is not an int or
    lies outside is turned down with the command state untouched, however
    many calls are made. *)
Theorem set_dial_keeps_range (nm : string) (lo hi : Z)
    (values : list number) c (z0 : Z) :
  field_is_int (spec c) nm = Some true ->
  cmd_state c !! nm = Some (NInt z0) ->
  lo <= z0 <= hi ->
  exists z, cmd_state (set_dial_all nm lo hi values c) !! nm
            = Some (NInt z) /\ lo <= z <= hi.
Proof.
  revert c z0. induction values as [| v values IH]; intros c z0 Hf Hs Hr.
  - by exists z0.
  - simpl. destruct (set_dial_step nm v lo hi c z0 Hf Hs Hr)
      as (Hsp & z & Hz & Hzr).
    apply (IH _ z); [by rewrite Hsp | done | done].
Qed.

(** Receive passes leave command state and wire alone and keep a raised
    dirty flag up. *)
Lemma run_rx_only (evs : list Event) :
  forall c,
    forallb is_rx evs = true ->
    spec (run pack unpack evs c) = spec c /\
    cmd_state (run pack unpack evs c) = cmd_state c /\
    wire (run pack unpack evs c) = wire c /\
    (dirty c = true -> dirty (run pack unpack evs c) = true).
Proof.
  induction evs as [| e evs IH]; intros c Hrx; [done |].
  simpl in Hrx. apply andb_true_iff in Hrx as [He Hrx].
  destruct e as [| env |]; try discriminate.
  change (run pack unpack (EvRx env :: evs) c)
    with (run pack unpack evs (step pack unpack (EvRx env) c)).
  destruct (IH (step pack unpack (EvRx env) c) Hrx) as (-> & -> & -> & Hd).
  destruct (step_static pack unpack (EvRx env) c) as [-> _].
  rewrite (step_worker_cmd_state pack unpack (EvRx env) c eq_refl).
  do 2 (split; [done |]).
  assert (wire (step pack unpack (EvRx env) c) = wire c /\
          (dirty c = true -> dirty (step pack unpack (EvRx env) c) = true))
    as [Hw Hd'].
  { simpl. destruct (_rx_loop_body unpack env c) as [c' |] eqn:E; [| done].
    exact (rx_body_keeps _ _ _ _ E). }
  split; [exact Hw | auto].
Qed.

(** X11.  A pulse on an "int" command that rests at 0, with no transmit
    pass between its two writes: both writes succeed and raise the dirty
    flag, yet the command state is back to what it was, so the frame that
    follows carries 0 and the 1 never reaches the wire. *)
Theorem pb_pulse_between_tx_passes (nm : string) (pulse_s : spec_float)
    (during : list Event) c :
  f_lt f_zero pulse_s = true ->
  field_is_int (spec c) nm = Some true ->
  cmd_state c !! nm = Some (NInt 0) ->
  forallb is_rx during = true ->
  fst (pb_pulse pack unpack nm pulse_s during c) = Ok tt /\
  cmd_state (snd (pb_pulse pack unpack nm pulse_s during c)) = cmd_state c /\
  dirty (snd (pb_pulse pack unpack nm pulse_s during c)) = true /\
  wire (snd (pb_pulse pack unpack nm pulse_s during c)) = wire c.
Proof.
  intros Hp Hf Hs Hrx. unfold pb_pulse. rewrite Hp. simpl.
  destruct (set_cmd_int_field nm 1 0 c Hf Hs) as (Hok & Hcs & Hd).
  pose proof (set_cmd_frame [(nm, NInt 1)] c) as (Hsp & _ & _ & _ & _ & Hw & _).
  destruct (set_cmd [(nm, NInt 1)] c) as [[[] |] c1]; simpl in *;
    [| discriminate].
  destruct (run_rx_only during c1 Hrx) as (Hsp2 & Hcs2 & Hw2 & Hd2).
  set (c2 := run pack unpack during c1) in *.
  assert (Hf2 : field_is_int (spec c2) nm = Some true) by (by rewrite Hsp2, Hsp).
  assert (Hs2 : cmd_state c2 !! nm = Some (NInt 1)).
  { by rewrite Hcs2, Hcs, lookup_insert_eq. }
  destruct (set_cmd_int_field nm 0 1 c2 Hf2 Hs2) as (Hok3 & Hcs3 & Hd3).
  pose proof (set_cmd_frame [(nm, NInt 0)] c2) as (_ & _ & _ & _ & _ & Hw3 & _).
  split; [done |]. split; [| split].
  - rewrite Hcs3, Hcs2, Hcs, insert_insert_eq. by apply insert_id.
  - rewrite Hd3. simpl. by rewrite orb_true_r.
  - by rewrite Hw3, Hw2, Hw.
Qed.

(** X12.  Whenever [set_slider] returns, with or without clamping, the
    value it applied and returns is not NaN and lies within [lo, hi]: a
    NaN input is clamped to [hi], and with [clamp=False] it is turned
    down.  On a "float" command the channel then holds a value that
    compares equal to the one returned. *)
Theorem set_slider_applies_value_in_range (nm : string) (value : number)
    (lo hi : spec_float) (clamp : bool) c (v : spec_float) :
  fst (set_slider nm value lo hi clamp c) = Ok v ->
  f_le lo v = true /\ f_le v hi = true /\
  (field_is_int (spec c) nm = Some false ->
   exists w, cmd_state (snd (set_slider nm value lo hi clamp c)) !! nm
             = Some w /\ py_eq w (NFloat v) = true).
Proof.
  unfold set_slider.
  destruct (f_lt lo hi) eqn:Elh; simpl; [| discriminate].
  destruct (f_lt_not_nan _ _ Elh) as [Hlo Hhi].
  destruct (py_float value) as [x |]; simpl; [| discriminate].
  set (v' := if clamp then Ok (Disrupt.f_max lo (f_min hi x))
             else bind (_require (f_le lo x && f_le x hi)) (fun _ => Ok x)).
  assert (Hv' : forall w, v' = Ok w -> f_le lo w = true /\ f_le w hi = true).
  { subst v'. destruct clamp.
    - intros w [= <-]. unfold Disrupt.f_max, f_min.
      destruct (f_lt x hi) eqn:Exh.
      + destruct (f_lt lo x) eqn:Elx.
        * split; by apply f_lt_le.
        * split; [by apply f_le_refl | by apply f_lt_le].
      + rewrite Elh. split; [by apply f_lt_le | by apply f_le_refl].
    - destruct (f_le lo x && f_le x hi) eqn:E; simpl; [| discriminate].
      apply andb_true_iff in E as [? ?]. by intros w [= <-]. }
  destruct v' as [w |]; simpl; [| discriminate].
  destruct (Hv' w eq_refl) as [Hlw Hwh].
  pose proof (set_cmd_loop_of [(nm, NFloat w)] c)
    as (e & cs' & ch' & El & Hr & Hc).
  destruct (set_cmd [(nm, NFloat w)] c) as [[[] |] c'] eqn:Es; simpl in *;
    [| discriminate].
  intros [= <-]. split; [done |]. split; [done |].
  intros Hf. destruct e as [e |]; [discriminate |].
  assert (Hcs : cmd_state c' = cs') by (rewrite Hc; by destruct ch').
  rewrite Hcs.
  destruct (set_cmd_loop_post (spec c) [(nm, NFloat w)] _ _ _ _
              (NoDup_singleton _) El nm (NFloat w))
    as (old & nv & Ho & Hco & Hst); [by left |].
  rewrite (coerce_float_field _ _ w Hf) in Hco. injection Hco as <-.
  rewrite Hst. eexists. split; [reflexivity |].
  unfold py_ne. destruct (py_eq old (NFloat w)) eqn:E; simpl; [done |].
  destruct (f_le_not_nan _ _ Hlw) as [_ Hw]. by apply SFeqb_refl.
Qed.

End HelperProps.

(** The selector of CH1 given the float 1.0: taken, and stored as the
    int 1. *)
Lemma set_selector_stores_a_bit_witness :
  let c := @Gtnet.init (list number) Specs.CHANNEL_1 None in
  GtnetInv.field_is_int (Gtnet.spec c) "REM_GRID" = Some true /\
  Gtnet.cmd_state c !! "REM_GRID" = Some (NInt 0) /\
  fst (CommandHelpers.set_selector "REM_GRID" (NFloat f_one) c) = Ok tt /\
  Gtnet.cmd_state (snd (CommandHelpers.set_selector "REM_GRID" (NFloat f_one) c))
  = <["REM_GRID" := NInt 1]> (Gtnet.cmd_state c).
Proof.
  intros c.
  assert (Hf : GtnetInv.field_is_int (Gtnet.spec c) "REM_GRID" = Some true)
    by reflexivity.
  assert (Hs : Gtnet.cmd_state c !! "REM_GRID" = Some (NInt 0))
    by (vm_compute; reflexivity).
  split; [exact Hf |]. split; [exact Hs |].
  destruct (set_selector_stores_a_bit "REM_GRID" (NFloat f_one) c 0 Hf Hs)
    as [(b & Hb & Heq & Hok & Hcs) | (_ & H1 & _)].
  - split; [exact Hok |].
    destruct Hb as [-> | ->]; [vm_compute in Heq; discriminate Heq |].
    exact Hcs.
  - vm_compute in H1. discriminate H1.
Defined.

(** The fault-type dial of CH1, bounds 0 and 3: of the values 2, 7, 1.0
    and 3 only 2 and 3 are taken. *)
Lemma set_dial_keeps_range_witness :
  let c := @Gtnet.init (list number) Specs.CHANNEL_1 None in
  let values := [NInt 2; NInt 7; NFloat f_one; NInt 3] in
  GtnetInv.field_is_int (Gtnet.spec c) "REM_LGFLTxType" = Some true /\
  Gtnet.cmd_state c !! "REM_LGFLTxType" = Some (NInt 0) /\
  exists z,
    Gtnet.cmd_state
      (CommandHelpers.set_dial_all "REM_LGFLTxType" 0 3 values c)
      !! "REM_LGFLTxType" = Some (NInt z) /\
    0 <= z <= 3.
Proof.
  intros c values.
  assert (Hf : GtnetInv.field_is_int (Gtnet.spec c) "REM_LGFLTxType"
               = Some true) by reflexivity.
  assert (Hs : Gtnet.cmd_state c !! "REM_LGFLTxType" = Some (NInt 0))
    by (vm_compute; reflexivity).
  split; [exact Hf |]. split; [exact Hs |].
  apply (set_dial_keeps_range "REM_LGFLTxType" 0 3 values c 0 Hf Hs). lia.
Defined.

(** A pulse on the fault button of CH1 while only a telemetry frame comes
    in: the button is back at 0 and nothing was written. *)
Lemma pb_pulse_between_tx_passes_witness :
  let c := @Gtnet.init (list number) Specs.CHANNEL_1 None in
  let during := [Gtnet.EvRx Specs.rx_ready] in
  let r := CommandHelpers.pb_pulse Specs.list_pack Specs.list_unpack
             "REM_LGFLTx" f_one during c in
  f_lt f_zero f_one = true /\
  Gtnet.cmd_state c !! "REM_LGFLTx" = Some (NInt 0) /\
  fst r = Ok tt /\ Gtnet.cmd_state (snd r) = Gtnet.cmd_state c /\
  Gtnet.dirty (snd r) = true /\ Gtnet.wire (snd r) = Gtnet.wire c.
Proof.
  intros c during r.
  assert (Hp : f_lt f_zero f_one = true) by (vm_compute; reflexivity).
  assert (Hs : Gtnet.cmd_state c !! "REM_LGFLTx" = Some (NInt 0))
    by (vm_compute; reflexivity).
  split; [exact Hp |]. split; [exact Hs |].
  exact (pb_pulse_between_tx_passes Specs.list_pack Specs.list_unpack
           "REM_LGFLTx" f_one during c Hp eq_refl Hs eq_refl).
Defined.

(** The load slider of CH4 between 0.0 and 1.0, given NaN: it applies
    1.0, the upper bound. *)
Lemma set_slider_applies_value_in_range_witness :
  let c := @Gtnet.init (list number) Specs.CHANNEL_4 None in
  let r := CommandHelpers.set_slider "REM_PLOAD" (NFloat S754_nan)
             f_zero f_one true c in
  fst r = Ok f_one /\
  f_le f_zero f_one = true /\ f_le f_one f_one = true /\
  exists w, Gtnet.cmd_state (snd r) !! "REM_PLOAD" = Some w /\
            py_eq w (NFloat f_one) = true.
Proof.
  intros c r.
  assert (Hr : fst r = Ok f_one) by (vm_compute; reflexivity).
  destruct (set_slider_applies_value_in_range "REM_PLOAD" (NFloat S754_nan)
              f_zero f_one true c f_one Hr) as (H1 & H2 & H3).
  split; [exact Hr |]. split; [exact H1 |]. split; [exact H2 |].
  exact (H3 eq_refl).
Defined.

(* --------------------------------------------------------------------- *)
(** ** ChannelDisruptor: settings, pass-through, deliveries               *)
(* --------------------------------------------------------------------- *)

Section DictUpdate.

Context {V : Type}.
Implicit Types (d : pydict V) (k : string) (v : V).

Lemma dict_set_keys d k v : k ∈ d.*1 -> (dict_set d k v).*1 = d.*1.
Proof.
  induction d as [| [k' v'] d IH]; intros H.
  - by apply elem_of_nil in H.
  - cbn [dict_set]. destruct (String.eqb k' k) eqn:E; [done |].
    rewrite fmap_cons in H. rewrite !fmap_cons.
    apply elem_of_cons in H as [-> | H].
    + simpl in E. by rewrite String.eqb_refl in E.
    + by rewrite IH.
Qed.

Lemma dict_get_set_ne d k k' v :
  k <> k' -> dict_get (dict_set d k v) k' = dict_get d k'.
Proof.
  intros Hne. induction d as [| [k0 v0] d IH]; simpl.
  - destruct (String.eqb k k') eqn:E; [| done].
    apply String.eqb_eq in E. contradiction.
  - destruct (String.eqb k0 k) eqn:E; simpl.
    + apply String.eqb_eq in E as ->.
      destruct (String.eqb k k') eqn:E'; [| done].
      apply String.eqb_eq in E'. contradiction.
    + by rewrite IH.
Qed.

End DictUpdate.

Section DisruptorExtra.

Import Disrupt DisruptRun.

Context {chan : Type} {rng : Type}.
Variable rng_random : rng -> spec_float * rng.
Variable rng_gauss : spec_float -> spec_float -> rng -> spec_float * rng.
Variable rng_uniform : spec_float -> spec_float -> rng -> spec_float * rng.

Implicit Type d : @ChannelDisruptor chan rng.

Abbreviation on_meas_ := (on_meas rng_random rng_gauss rng_uniform).
Abbreviation emit_cmd_ := (emit_cmd rng_random rng_uniform).
Abbreviation noise_loop_ := (noise_loop rng_gauss).
Abbreviation draw_delay_ := (draw_delay rng_uniform).

Lemma clamp_unit_range (x : spec_float) :
  is_nan x = false ->
  f_le f_zero (_clamp x f_zero f_one) = true /\
  f_le (_clamp x f_zero f_one) f_one = true.
Proof.
  intros Hx. unfold _clamp.
  destruct (f_lt x f_zero) eqn:E0; [by vm_compute |].
  destruct (f_lt f_one x) eqn:E1; [by vm_compute |].
  split; by apply f_lt_false_le.
Qed.

(** X13.  What [set_data_degraded] and [set_autonomy_degraded] store:
    delay, jitter and noise magnitude are never negative and never NaN,
    whatever was passed (NaN is stored as 0.0); a drop probability that is
    not NaN is stored within [0, 1], whereas NaN passes through [_clamp]
    and is stored as NaN.  The flags and the key selection are stored as
    passed. *)
Theorem degradation_settings_sanitised (ch : string) (dc : D.t) (ac : A.t) d :
  (exists dc',
     _data_cfg (set_data_degraded ch dc d) !! ch = Some dc' /\
     f_le f_zero (D.fixed_delay_s dc') = true /\
     f_le f_zero (D.jitter_s dc') = true /\
     f_le f_zero (D.noise_std dc') = true /\
     (is_nan (D.drop_prob dc) = false ->
      f_le f_zero (D.drop_prob dc') = true /\
      f_le (D.drop_prob dc') f_one = true) /\
     (is_nan (D.drop_prob dc) = true -> D.drop_prob dc' = S754_nan) /\
     D.enabled dc' = D.enabled dc /\ D.freeze dc' = D.freeze dc /\
     D.add_noise dc' = D.add_noise dc /\ D.keys dc' = D.keys dc) /\
  (exists ac',
     _auto_cfg (set_autonomy_degraded ch ac d) !! ch = Some ac' /\
     f_le f_zero (A.fixed_delay_s ac') = true /\
     f_le f_zero (A.jitter_s ac') = true /\
     (is_nan (A.drop_prob ac) = false ->
      f_le f_zero (A.drop_prob ac') = true /\
      f_le (A.drop_prob ac') f_one = true) /\
     (is_nan (A.drop_prob ac) = true -> A.drop_prob ac' = S754_nan) /\
     A.enabled ac' = A.enabled ac /\ A.block_all ac' = A.block_all ac).
Proof.
  split.
  - eexists. simpl. rewrite lookup_insert_eq. split; [reflexivity |]. simpl.
    repeat split; try (by apply f_max_ge_l).
    + by apply clamp_unit_range.
    + by apply clamp_unit_range.
    + destruct (D.drop_prob dc); try discriminate. reflexivity.
  - eexists. simpl. rewrite lookup_insert_eq. split; [reflexivity |]. simpl.
    repeat split; try (by apply f_max_ge_l).
    + by apply clamp_unit_range.
    + by apply clamp_unit_range.
    + destruct (A.drop_prob ac); try discriminate. reflexivity.
Qed.

(** One call on a channel whose data path is not enabled. *)
Lemma on_meas_not_enabled (ch : string) (meas : pydict number) d :
  D.enabled (default D.default (_data_cfg d !! ch)) = false ->
  on_meas_ ch meas d = (Ok tt, _meas_sink ch meas (with_last_meas ch meas d)).
Proof. intros H. unfold on_meas. simpl. by rewrite H. Qed.

Lemma emit_cmd_not_enabled (obj : chan) (ch : string) (u : pydict number)
    (note : string) d :
  A.enabled (default A.default (_auto_cfg d !! ch)) = false ->
  emit_cmd_ obj ch u note d = _cmd_sink (obj, ch, u, note) d.
Proof. intros H. unfold emit_cmd. by rewrite H. Qed.

Lemma on_meas_all_not_enabled (ch : string) (frames : list (pydict number)) :
  forall d,
    D.enabled (default D.default (_data_cfg d !! ch)) = false ->
    let d' := on_meas_all rng_random rng_gauss rng_uniform ch frames d in
    meas_sunk d' = (meas_sunk d ++ map (pair ch) frames)%list /\
    meas_pending d' = meas_pending d /\ _rng d' = _rng d /\
    log d' = log d.
Proof.
  induction frames as [| m frames IH]; intros d Hd; cbv zeta.
  - simpl. by rewrite app_nil_r.
  - change (on_meas_all rng_random rng_gauss rng_uniform ch (m :: frames) d)
      with (on_meas_all rng_random rng_gauss rng_uniform ch frames
              (snd (on_meas_ ch m d))).
    rewrite (on_meas_not_enabled ch m d Hd). cbn [snd].
    pose proof (IH (_meas_sink ch m (with_last_meas ch m d)) Hd) as H.
    cbv zeta in H. destruct H as (-> & -> & -> & ->). simpl.
    by rewrite <- app_assoc.
Qed.

Lemma emit_cmd_all_not_enabled (obj : chan) (ch : string)
    (attempts : list (pydict number * string)) :
  forall d,
    A.enabled (default A.default (_auto_cfg d !! ch)) = false ->
    let d' := emit_cmd_all rng_random rng_uniform obj ch attempts d in
    cmd_sunk d'
    = (cmd_sunk d ++ map (fun a => (obj, ch, fst a, snd a)) attempts)%list /\
    cmd_pending d' = cmd_pending d /\ _rng d' = _rng d /\
    log d' = log d.
Proof.
  induction attempts as [| a attempts IH]; intros d Hd; cbv zeta.
  - simpl. by rewrite app_nil_r.
  - change (emit_cmd_all rng_random rng_uniform obj ch (a :: attempts) d)
      with (emit_cmd_all rng_random rng_uniform obj ch attempts
              (emit_cmd_ obj ch (fst a) (snd a) d)).
    rewrite (emit_cmd_not_enabled obj ch (fst a) (snd a) d Hd).
    pose proof (IH (_cmd_sink (obj, ch, fst a, snd a) d) Hd) as H.
    cbv zeta in H. destruct H as (-> & -> & -> & ->). simpl.
    by rewrite <- app_assoc.
Qed.

(** X14.  A channel with no settings, or with settings whose [enabled] is
    off, is transparent in both directions: every frame and every command
    reaches its sink at once, unchanged and in order; no thread is
    started, nothing is logged, and the random generator is not drawn
    from. *)
Theorem disabled_channel_passes_through (obj : chan) (ch : string)
    (frames : list (pydict number))
    (attempts : list (pydict number * string)) d :
  D.enabled (default D.default (_data_cfg d !! ch)) = false ->
  A.enabled (default A.default (_auto_cfg d !! ch)) = false ->
  let dm := on_meas_all rng_random rng_gauss rng_uniform ch frames d in
  let dc := emit_cmd_all rng_random rng_uniform obj ch attempts d in
  (meas_sunk dm = (meas_sunk d ++ map (pair ch) frames)%list /\
   meas_pending dm = meas_pending d /\ _rng dm = _rng d /\ log dm = log d) /\
  (cmd_sunk dc
   = (cmd_sunk d ++ map (fun a => (obj, ch, fst a, snd a)) attempts)%list /\
   cmd_pending dc = cmd_pending d /\ _rng dc = _rng d /\ log dc = log d).
Proof.
  intros Hd Ha. split.
  - exact (on_meas_all_not_enabled ch frames d Hd).
  - exact (emit_cmd_all_not_enabled obj ch attempts d Ha).
Qed.

(** X15.  [clear_channel] makes its channel transparent again in both
    directions and leaves the settings of every other channel in place;
    [clear_all] makes every channel transparent.  Neither touches what was
    delivered or scheduled before. *)
Theorem clear_restores_pass_through (obj : chan) (ch : string)
    (frames : list (pydict number)) d :
  (let d0 := clear_channel ch d in
   meas_sunk (on_meas_all rng_random rng_gauss rng_uniform ch frames d0)
   = (meas_sunk d ++ map (pair ch) frames)%list /\
   (forall u note,
      cmd_sunk (emit_cmd_ obj ch u note d0)
      = (cmd_sunk d ++ [(obj, ch, u, note)])%list) /\
   (forall ch', ch' <> ch ->
      _data_cfg d0 !! ch' = _data_cfg d !! ch' /\
      _auto_cfg d0 !! ch' = _auto_cfg d !! ch') /\
   meas_pending d0 = meas_pending d /\ cmd_pending d0 = cmd_pending d) /\
  (let d0 := clear_all d in
   forall ch',
     meas_sunk (on_meas_all rng_random rng_gauss rng_uniform ch' frames d0)
     = (meas_sunk d ++ map (pair ch') frames)%list /\
     (forall u note,
        cmd_sunk (emit_cmd_ obj ch' u note d0)
        = (cmd_sunk d ++ [(obj, ch', u, note)])%list)).
Proof.
  split.
  - intros d0.
    assert (Hd : D.enabled (default D.default (_data_cfg d0 !! ch)) = false).
    { subst d0. simpl. by rewrite lookup_delete_eq. }
    assert (Ha : A.enabled (default A.default (_auto_cfg d0 !! ch)) = false).
    { subst d0. simpl. by rewrite lookup_delete_eq. }
    split; [exact (proj1 (on_meas_all_not_enabled ch frames d0 Hd)) |].
    split.
    { intros u note. by rewrite (emit_cmd_not_enabled obj ch u note d0 Ha). }
    split; [| done].
    intros ch' Hne. subst d0. simpl. by rewrite !lookup_delete_ne.
  - intros d0 ch'.
    assert (Hd : D.enabled (default D.default (_data_cfg d0 !! ch')) = false).
    { subst d0. simpl. by rewrite lookup_empty. }
    assert (Ha : A.enabled (default A.default (_auto_cfg d0 !! ch')) = false).
    { subst d0. simpl. by rewrite lookup_empty. }
    split; [exact (proj1 (on_meas_all_not_enabled ch' frames d0 Hd)) |].
    intros u note. by rewrite (emit_cmd_not_enabled obj ch' u note d0 Ha).
Qed.

(** The noise loop rewrites values in place: keys and their order stay,
    and a key outside the selection keeps its value. *)
Lemma noise_loop_shape (sel : option (gset string)) (std : spec_float)
    (items : list (string * number)) :
  forall (out : pydict number) (g : rng) out' g',
    (forall k, k ∈ items.*1 -> k ∈ out.*1) ->
    noise_loop_ sel std items out g = (Ok out', g') ->
    out'.*1 = out.*1 /\
    forall ks k, sel = Some ks -> k ∉ ks -> dict_get out' k = dict_get out k.
Proof.
  induction items as [| [k0 v0] items IH]; intros out g out' g' Hin H.
  - simpl in H. injection H as <- _. by split.
  - cbn [noise_loop] in H.
    assert (Hin' : forall k, k ∈ items.*1 -> k ∈ out.*1).
    { intros k Hk. apply Hin. rewrite fmap_cons. by right. }
    destruct (match sel with
              | Some ks => negb (bool_decide (k0 ∈ ks))
              | None => false
              end) eqn:Esel.
    + exact (IH _ _ _ _ Hin' H).
    + destruct (py_float v0) as [f |]; [| discriminate].
      destruct (rng_gauss f_zero std g) as [n g1].
      assert (Hk0 : k0 ∈ out.*1).
      { apply Hin. rewrite fmap_cons. by left. }
      destruct (IH (dict_set out k0 (NFloat (f_add f n))) g1 out' g') as [Hk Hv].
      { intros k Hk. rewrite dict_set_keys by done. by apply Hin'. }
      { exact H. }
      split; [by rewrite Hk, dict_set_keys |].
      intros ks k -> Hks. rewrite (Hv ks k eq_refl Hks).
      apply dict_get_set_ne. intros ->.
      apply negb_false_iff, bool_decide_eq_true in Esel. contradiction.
Qed.

(** The outcomes of one [on_meas] call. *)
Lemma on_meas_cases (ch : string) (meas : pydict number) d :
  let cfg := default D.default (_data_cfg d !! ch) in
  let d' := snd (on_meas_ ch meas d) in
  _data_cfg d' = _data_cfg d /\ _auto_cfg d' = _auto_cfg d /\
  _last_meas d' = <[ch := meas]> (_last_meas d) /\
  cmd_sunk d' = cmd_sunk d /\ cmd_pending d' = cmd_pending d /\
  ((meas_sunk d' = meas_sunk d /\ meas_pending d' = meas_pending d) \/
   (exists out,
      meas_sunk d' = (meas_sunk d ++ [(ch, out)])%list /\
      meas_pending d' = meas_pending d /\ same_fields cfg meas out) \/
   (exists out delay g g',
      meas_sunk d' = meas_sunk d /\
      meas_pending d' = (meas_pending d ++ [(delay, (ch, out))])%list /\
      same_fields cfg meas out /\
      D.enabled cfg = true /\
      draw_delay_ (D.fixed_delay_s cfg) (D.jitter_s cfg) g = (delay, g') /\
      f_le delay f_zero = false)).
Proof.
  intros cfg d'. subst d'. unfold on_meas. fold cfg.
  assert (Hsame : same_fields cfg meas meas) by (by split).
  destruct (D.enabled cfg) eqn:Een; simpl.
  2:{ do 5 (split; [done |]). right. left. by exists meas. }
  destruct (D.freeze cfg); simpl.
  { rewrite lookup_insert_eq. simpl. do 5 (split; [done |]).
    right. left. by exists meas. }
  destruct (if f_lt f_zero (D.drop_prob cfg)
            then let '(r, g') := rng_random (_rng d) in
                 (f_lt r (D.drop_prob cfg), g')
            else (false, _rng d)) as [dropped g1].
  destruct dropped; simpl.
  { do 5 (split; [done |]). by left. }
  destruct (if D.add_noise cfg && f_lt f_zero (D.noise_std cfg)
            then noise_loop_ (D.keys cfg) (D.noise_std cfg) meas meas g1
            else (Ok meas, g1)) as [noisy g2] eqn:En.
  destruct noisy as [out |]; simpl.
  2:{ do 5 (split; [done |]). by left. }
  assert (Hout : same_fields cfg meas out).
  { destruct (D.add_noise cfg && f_lt f_zero (D.noise_std cfg)) eqn:Ea.
    - apply andb_true_iff in Ea as [Ea _].
      destruct (noise_loop_shape _ _ _ _ _ _ _ (fun k H => H) En) as [Hk Hv].
      split; [done |]. split; [done |]. congruence.
    - by injection En as <- _. }
  destruct (draw_delay_ (D.fixed_delay_s cfg) (D.jitter_s cfg) g2)
    as [delay g3] eqn:Edelay.
  destruct (f_le delay f_zero) eqn:Ele; simpl.
  - do 5 (split; [done |]). right. left. by exists out.
  - do 5 (split; [done |]). right. right. by exists out, delay, g2, g3.
Qed.

(** X16.  Whatever the settings, one [on_meas] call records the frame as
    the last seen, leaves the command side and the settings alone, and
    hands on at most one frame, either to the sink or to one delayed
    thread.  That frame has the fields of the incoming one, in the same
    order; a field outside the selected keys keeps its value, and without
    [add_noise] the frame is the incoming one. *)
Theorem on_meas_hands_on_one_frame (ch : string) (meas : pydict number) d :
  let cfg := default D.default (_data_cfg d !! ch) in
  let d' := snd (on_meas_ ch meas d) in
  _last_meas d' !! ch = Some meas /\
  cmd_sunk d' = cmd_sunk d /\ cmd_pending d' = cmd_pending d /\
  _data_cfg d' = _data_cfg d /\ _auto_cfg d' = _auto_cfg d /\
  exists sunk pending,
    meas_sunk d' = (meas_sunk d ++ sunk)%list /\
    meas_pending d' = (meas_pending d ++ pending)%list /\
    (length sunk + length pending <= 1)%nat /\
    (forall c out, (c, out) ∈ (sunk ++ pending.*2)%list ->
                   c = ch /\ same_fields cfg meas out).
Proof.
  intros cfg d'.
  destruct (on_meas_cases ch meas d)
    as (Hdc & Hac & Hlm & Hcs & Hcp & Hcases).
  fold cfg d' in Hdc, Hac, Hlm, Hcs, Hcp, Hcases.
  split; [by rewrite Hlm, lookup_insert_eq |].
  do 4 (split; [done |]).
  destruct Hcases as [[Hs Hp] | [(out & Hs & Hp & Hout)
                                | (out & delay & g & g' & Hs & Hp & Hout & _)]].
  - exists [], []. rewrite !app_nil_r. do 2 (split; [done |]).
    split; [simpl; lia |]. intros c out Hin. by apply elem_of_nil in Hin.
  - exists [(ch, out)], []. rewrite app_nil_r. do 2 (split; [done |]).
    split; [simpl; lia |]. intros c out' Hin. simpl in Hin.
    apply list_elem_of_singleton in Hin as [= -> ->]. by split.
  - exists [], [(delay, (ch, out))]. rewrite app_nil_r.
    do 2 (split; [done |]).
    split; [simpl; lia |]. intros c out' Hin. simpl in Hin.
    apply list_elem_of_singleton in Hin as [= -> ->]. by split.
Qed.

(** The outcomes of one [emit_cmd] call. *)
Lemma emit_cmd_cases (obj : chan) (ch : string) (u : pydict number)
    (note : string) d :
  let cfg := default A.default (_auto_cfg d !! ch) in
  let d' := emit_cmd_ obj ch u note d in
  _data_cfg d' = _data_cfg d /\ _auto_cfg d' = _auto_cfg d /\
  meas_sunk d' = meas_sunk d /\ meas_pending d' = meas_pending d /\
  ((cmd_sunk d' = cmd_sunk d /\ cmd_pending d' = cmd_pending d) \/
   (cmd_sunk d' = (cmd_sunk d ++ [(obj, ch, u, note)])%list /\
    cmd_pending d' = cmd_pending d) \/
   (exists delay g g',
      cmd_sunk d' = cmd_sunk d /\
      cmd_pending d'
      = (cmd_pending d ++ [(delay, (obj, ch, u, note))])%list /\
      A.enabled cfg = true /\
      draw_delay_ (A.fixed_delay_s cfg) (A.jitter_s cfg) g = (delay, g') /\
      f_le delay f_zero = false)).
Proof.
  intros cfg d'. subst d'. unfold emit_cmd. fold cfg.
  destruct (A.enabled cfg) eqn:Een; simpl.
  2:{ do 4 (split; [done |]). right. by left. }
  destruct (A.block_all cfg); simpl.
  { do 4 (split; [done |]). by left. }
  destruct (if f_lt f_zero (A.drop_prob cfg)
            then let '(r, g') := rng_random (_rng d) in
                 (f_lt r (A.drop_prob cfg), g')
            else (false, _rng d)) as [dropped g1].
  destruct dropped; simpl.
  { do 4 (split; [done |]). by left. }
  destruct (draw_delay_ (A.fixed_delay_s cfg) (A.jitter_s cfg) g1)
    as [delay g2] eqn:Edelay.
  destruct (f_le delay f_zero) eqn:Ele; simpl.
  - do 4 (split; [done |]). right. by left.
  - do 4 (split; [done |]). right. right. by exists delay, g1, g2.
Qed.

(** A delay drawn from a base that is not NaN is not NaN; if it is not
    [<= 0.0] it is positive. *)
Lemma draw_delay_positive (fixed jitter delay : spec_float) (g g' : rng) :
  is_nan fixed = false ->
  draw_delay_ fixed jitter g = (delay, g') ->
  f_le delay f_zero = false -> f_lt f_zero delay = true.
Proof.
  intros Hf Hd Hle. apply f_le_false_lt; [| done | done].
  revert Hd. unfold draw_delay. destruct (f_lt f_zero jitter).
  - destruct (rng_uniform _ _ g) as [u g1]. intros [= <- _].
    by apply f_max_not_nan.
  - by intros [= <- _].
Qed.

(** The settings held after any sequence of calls have base delays that
    are not NaN, and only positive sleep times have been scheduled. *)
Lemma calls_invariant (g : rng) (ks : list (@Call chan)) :
  let d := calls rng_random rng_gauss rng_uniform ks (init g) in
  (forall ch, is_nan (D.fixed_delay_s (default D.default (_data_cfg d !! ch)))
              = false) /\
  (forall ch, is_nan (A.fixed_delay_s (default A.default (_auto_cfg d !! ch)))
              = false) /\
  Forall (fun p => f_lt f_zero (fst p) = true) (meas_pending d) /\
  Forall (fun p => f_lt f_zero (fst p) = true) (cmd_pending d).
Proof.
  induction ks as [| k ks IH] using rev_ind; cbv zeta.
  - simpl. repeat split; try constructor; intros ch; by rewrite lookup_empty.
  - unfold calls in *. rewrite fold_left_app. simpl.
    set (d := fold_left _ ks (init g)) in *. cbv zeta in IH.
    destruct IH as (Hd & Ha & Hm & Hc).
    destruct k as [ch cfg | ch cfg | ch | | ch meas | obj ch u note]; simpl.
    + repeat split; try done. intros ch'.
      destruct (decide (ch = ch')) as [-> | Hne].
      * rewrite lookup_insert_eq. simpl. by apply f_max_not_nan.
      * rewrite lookup_insert_ne by done. apply Hd.
    + repeat split; try done. intros ch'.
      destruct (decide (ch = ch')) as [-> | Hne].
      * rewrite lookup_insert_eq. simpl. by apply f_max_not_nan.
      * rewrite lookup_insert_ne by done. apply Ha.
    + repeat split; try done; intros ch'.
      * destruct (decide (ch = ch')) as [-> | Hne];
          [by rewrite lookup_delete_eq
          | rewrite lookup_delete_ne by done; apply Hd].
      * destruct (decide (ch = ch')) as [-> | Hne];
          [by rewrite lookup_delete_eq
          | rewrite lookup_delete_ne by done; apply Ha].
    + repeat split; try done; intros ch'; by rewrite lookup_empty.
    + destruct (on_meas_cases ch meas d)
        as (Hdc & Hac & _ & Hcs & Hcp & Hcases). cbv zeta in *.
      rewrite Hdc, Hac, Hcp. do 2 (split; [done |]). split; [| done].
      destruct Hcases as [[_ ->] | [(out & _ & -> & _)
        | (out & delay & g1 & g2 & _ & -> & _ & _ & Hdelay & Hle)]];
        try done.
      apply Forall_app. split; [done |]. constructor; [| constructor].
      simpl. exact (draw_delay_positive _ _ _ _ _ (Hd ch) Hdelay Hle).
    + destruct (emit_cmd_cases obj ch u note d)
        as (Hdc & Hac & Hms & Hmp & Hcases). cbv zeta in *.
      rewrite Hdc, Hac, Hmp. do 3 (split; [done |]).
      destruct Hcases as [[_ ->] | [[_ ->]
        | (delay & g1 & g2 & _ & -> & _ & Hdelay & Hle)]];
        try done.
      apply Forall_app. split; [done |]. constructor; [| constructor].
      simpl. exact (draw_delay_positive _ _ _ _ _ (Ha ch) Hdelay Hle).
Qed.

(** X17.  Whatever settings are installed through
    [set_data_degraded] and [set_autonomy_degraded], NaN and negative
    ones included, every delayed delivery is started with a sleep time
    that is positive and not NaN: a delay that is not positive is
    delivered at once instead. *)
Theorem scheduled_delays_are_positive (g : rng) (ks : list (@Call chan)) :
  let d := calls rng_random rng_gauss rng_uniform ks (init g) in
  (forall delay call,
     (delay, call) ∈ meas_pending d ->
     f_lt f_zero delay = true /\ is_nan delay = false) /\
  (forall delay call,
     (delay, call) ∈ cmd_pending d ->
     f_lt f_zero delay = true /\ is_nan delay = false).
Proof.
  destruct (calls_invariant g ks) as (_ & _ & Hm & Hc).
  cbv zeta. split; intros delay call Hin.
  - rewrite Forall_forall in Hm. pose proof (Hm _ Hin) as H. simpl in H.
    split; [done |]. by apply f_lt_not_nan in H as [_ ?].
  - rewrite Forall_forall in Hc. pose proof (Hc _ Hin) as H. simpl in H.
    split; [done |]. by apply f_lt_not_nan in H as [_ ?].
Qed.

(** [on_meas] reads the disruptor through the data settings of its own
    channel, the generator and the two delivery traces only. *)
Lemma on_meas_ext (ch : string) (meas : pydict number) d1 d2 :
  _data_cfg d1 !! ch = _data_cfg d2 !! ch ->
  _rng d1 = _rng d2 ->
  meas_sunk d1 = meas_sunk d2 -> meas_pending d1 = meas_pending d2 ->
  fst (on_meas_ ch meas d1) = fst (on_meas_ ch meas d2) /\
  meas_sunk (snd (on_meas_ ch meas d1)) = meas_sunk (snd (on_meas_ ch meas d2)) /\
  meas_pending (snd (on_meas_ ch meas d1))
  = meas_pending (snd (on_meas_ ch meas d2)) /\
  _rng (snd (on_meas_ ch meas d1)) = _rng (snd (on_meas_ ch meas d2)).
Proof.
  intros Hc Hg Hs Hp. unfold on_meas. simpl. rewrite Hc, Hg.
  set (cfg := default D.default (_data_cfg d2 !! ch)).
  destruct (D.enabled cfg); simpl; [| by rewrite Hs, Hp].
  destruct (D.freeze cfg); simpl.
  { rewrite !lookup_insert_eq. simpl. by rewrite Hs, Hp. }
  destruct (if f_lt f_zero (D.drop_prob cfg)
            then let '(r, g') := rng_random (_rng d2) in
                 (f_lt r (D.drop_prob cfg), g')
            else (false, _rng d2)) as [dropped g1].
  destruct dropped; simpl; [by rewrite Hs, Hp |].
  destruct (if D.add_noise cfg && f_lt f_zero (D.noise_std cfg)
            then noise_loop_ (D.keys cfg) (D.noise_std cfg) meas meas g1
            else (Ok meas, g1)) as [noisy g2].
  destruct noisy as [out |]; simpl; [| by rewrite Hs, Hp].
  destruct (draw_delay_ (D.fixed_delay_s cfg) (D.jitter_s cfg) g2)
    as [delay g3].
  destruct (f_le delay f_zero); simpl; by rewrite Hs, Hp.
Qed.

(** Likewise for [emit_cmd] and the command settings. *)
Lemma emit_cmd_ext (obj : chan) (ch : string) (u : pydict number)
    (note : string) d1 d2 :
  _auto_cfg d1 !! ch = _auto_cfg d2 !! ch ->
  _rng d1 = _rng d2 ->
  cmd_sunk d1 = cmd_sunk d2 -> cmd_pending d1 = cmd_pending d2 ->
  cmd_sunk (emit_cmd_ obj ch u note d1) = cmd_sunk (emit_cmd_ obj ch u note d2) /\
  cmd_pending (emit_cmd_ obj ch u note d1)
  = cmd_pending (emit_cmd_ obj ch u note d2) /\
  _rng (emit_cmd_ obj ch u note d1) = _rng (emit_cmd_ obj ch u note d2).
Proof.
  intros Hc Hg Hs Hp. unfold emit_cmd. rewrite Hc, Hg.
  set (cfg := default A.default (_auto_cfg d2 !! ch)).
  destruct (A.enabled cfg); simpl; [| by rewrite Hs, Hp].
  destruct (A.block_all cfg); simpl; [by rewrite Hs, Hp |].
  destruct (if f_lt f_zero (A.drop_prob cfg)
            then let '(r, g') := rng_random (_rng d2) in
                 (f_lt r (A.drop_prob cfg), g')
            else (false, _rng d2)) as [dropped g1].
  destruct dropped; simpl; [by rewrite Hs, Hp |].
  destruct (draw_delay_ (A.fixed_delay_s cfg) (A.jitter_s cfg) g1)
    as [delay g2].
  destruct (f_le delay f_zero); simpl; by rewrite Hs, Hp.
Qed.

Lemma on_meas_same_traffic (ch : string) (meas : pydict number) d1 d2 :
  _data_cfg d1 !! ch = _data_cfg d2 !! ch ->
  same_traffic d1 d2 ->
  fst (on_meas_ ch meas d1) = fst (on_meas_ ch meas d2) /\
  same_traffic (snd (on_meas_ ch meas d1)) (snd (on_meas_ ch meas d2)).
Proof.
  intros Hc (Hs & Hp & Hcs & Hcp & Hg).
  destruct (on_meas_ext ch meas d1 d2 Hc Hg Hs Hp) as (Hr & Ea & Eb & Ec).
  destruct (on_meas_cases ch meas d1) as (_ & _ & _ & H1 & H2 & _).
  destruct (on_meas_cases ch meas d2) as (_ & _ & _ & H3 & H4 & _).
  cbv zeta in *. unfold same_traffic.
  rewrite H1, H2, H3, H4. by repeat split.
Qed.

Lemma emit_cmd_same_traffic (obj : chan) (ch : string) (u : pydict number)
    (note : string) d1 d2 :
  _auto_cfg d1 !! ch = _auto_cfg d2 !! ch ->
  same_traffic d1 d2 ->
  same_traffic (emit_cmd_ obj ch u note d1) (emit_cmd_ obj ch u note d2).
Proof.
  intros Hc (Hs & Hp & Hcs & Hcp & Hg).
  destruct (emit_cmd_ext obj ch u note d1 d2 Hc Hg Hcs Hcp) as (Ea & Eb & Ec).
  destruct (emit_cmd_cases obj ch u note d1) as (_ & _ & H1 & H2 & _).
  destruct (emit_cmd_cases obj ch u note d2) as (_ & _ & H3 & H4 & _).
  cbv zeta in *. unfold same_traffic.
  rewrite H1, H2, H3, H4. by repeat split.
Qed.

(** X18.  Settings are per channel and per direction.  Installing data
    settings for one channel changes nothing in what [on_meas] does for
    another channel, nor in what [emit_cmd] does for any channel; and
    installing command settings for one channel changes nothing in what
    [emit_cmd] does for another channel, nor in what [on_meas] does for
    any. *)
Theorem settings_of_other_channels_do_not_interfere (obj : chan)
    (ch ch' : string) (dc : D.t) (ac : A.t) (meas u : pydict number)
    (note : string) d :
  let dd := set_data_degraded ch dc d in
  let da := set_autonomy_degraded ch ac d in
  (ch <> ch' ->
   fst (on_meas_ ch' meas dd) = fst (on_meas_ ch' meas d) /\
   same_traffic (snd (on_meas_ ch' meas dd)) (snd (on_meas_ ch' meas d))) /\
  (fst (on_meas_ ch' meas da) = fst (on_meas_ ch' meas d) /\
   same_traffic (snd (on_meas_ ch' meas da)) (snd (on_meas_ ch' meas d))) /\
  (ch <> ch' ->
   same_traffic (emit_cmd_ obj ch' u note da) (emit_cmd_ obj ch' u note d)) /\
  same_traffic (emit_cmd_ obj ch' u note dd) (emit_cmd_ obj ch' u note d).
Proof.
  intros dd da.
  assert (Hdd : same_traffic dd d) by (by repeat split).
  assert (Hda : same_traffic da d) by (by repeat split).
  split; [| split; [| split]].
  - intros Hne. apply on_meas_same_traffic; [| done].
    subst dd. simpl. by rewrite lookup_insert_ne.
  - by apply on_meas_same_traffic.
  - intros Hne. apply emit_cmd_same_traffic; [| done].
    subst da. simpl. by rewrite lookup_insert_ne.
  - by apply emit_cmd_same_traffic.
Qed.

End DisruptorExtra.
(** A disruptor with no settings: two frames and a command on CH1 go
    straight through. *)
Lemma disabled_channel_passes_through_witness :
  let d := Specs.disruptor0 in
  let dm := Disrupt.on_meas_all Specs.low_random Specs.low_gauss
              Specs.low_uniform "CH1" [Specs.frame_a; Specs.frame_b] d in
  let dc := Disrupt.emit_cmd_all Specs.low_random Specs.low_uniform
              tt "CH1" [(Specs.frame_a, "arm")] d in
  Disrupt.meas_sunk dm = [("CH1", Specs.frame_a); ("CH1", Specs.frame_b)] /\
  Disrupt.meas_pending dm = [] /\
  Disrupt.cmd_sunk dc = [(tt, "CH1", Specs.frame_a, "arm")] /\
  Disrupt.cmd_pending dc = [].
Proof.
  intros d dm dc.
  destruct (disabled_channel_passes_through Specs.low_random Specs.low_gauss
              Specs.low_uniform tt "CH1" [Specs.frame_a; Specs.frame_b]
              [(Specs.frame_a, "arm")] d eq_refl eq_refl)
    as ((H1 & H2 & _) & (H3 & H4 & _)).
  split; [exact H1 |]. split; [exact H2 |]. split; [exact H3 | exact H4].
Defined.

(* --------------------------------------------------------------------- *)
(** ** DataBus: the command log                                           *)
(* --------------------------------------------------------------------- *)

Section BusProps.

Import Gtnet Bus.

Context {payload : Type}.
Implicit Type c : @Channel payload.
Implicit Type b : DataBus.

Lemma log_append_room (log : list CommandEvent) (m : Z) (evt : CommandEvent) :
  Z.of_nat (length log) < m -> log_append log m evt = (log ++ [evt])%list.
Proof.
  intros H. unfold log_append. rewrite length_app. simpl.
  destruct (Z.of_nat (length log + 1) >? m) eqn:E; [| done].
  apply Z.gtb_lt in E. lia.
Qed.

Lemma log_append_full (log : list CommandEvent) (m : Z) (evt : CommandEvent) :
  1 <= m -> Z.of_nat (length log) = m ->
  log_append log m evt = (drop 1 log ++ [evt])%list.
Proof.
  intros Hm H. unfold log_append, py_slice_from. rewrite length_app. simpl.
  replace (Z.of_nat (length log + 1) >? m) with true
    by (symmetry; apply Z.gtb_lt; lia).
  replace (- m <? 0) with true by (symmetry; apply Z.ltb_lt; lia).
  replace (Z.to_nat (Z.max 0 (- m + Z.of_nat (length log + 1)))) with 1%nat
    by lia.
  rewrite drop_app_le; [done |]. lia.
Qed.

Lemma log_append_bounded (log : list CommandEvent) (m : Z)
    (evt : CommandEvent) :
  1 <= m -> Z.of_nat (length log) <= m ->
  Z.of_nat (length (log_append log m evt)) <= m /\
  last (log_append log m evt) = Some evt.
Proof.
  intros Hm H.
  destruct (decide (Z.of_nat (length log) = m)) as [E | E].
  - rewrite (log_append_full _ _ _ Hm E), length_app, length_drop, last_snoc.
    simpl. split; [lia | done].
  - rewrite log_append_room by lia. rewrite length_app, last_snoc. simpl.
    split; [lia | done].
Qed.

(** X19.  The command log is a FIFO of capacity [cmd_log_max >= 1].  An
    accepted command is appended with its updates as passed; while there
    is room nothing is evicted, and on a full log exactly the oldest
    event goes.  The newest event is always the last one and the length
    never exceeds the capacity.  A command that [set_cmd] turns down
    raises out of [emit_cmd] with the bus untouched. *)
Theorem cmd_log_is_bounded_fifo c (nm : string) (upd : pydict number)
    (nt : string) (t : spec_float) (ts : string) b :
  1 <= _cmd_log_max b ->
  Z.of_nat (length (_cmd_log b)) <= _cmd_log_max b ->
  let r := fst (fst (emit_cmd c nm upd nt t ts b)) in
  let c' := snd (fst (emit_cmd c nm upd nt t ts b)) in
  let b' := snd (emit_cmd c nm upd nt t ts b) in
  let evt := {| ev_t_unix := t; ev_t_str := ts; channel := nm;
                updates := upd; note := nt |} in
  r = fst (set_cmd upd c) /\ c' = snd (set_cmd upd c) /\
  (r <> Ok tt -> b' = b) /\
  (r = Ok tt ->
   Z.of_nat (length (_cmd_log b')) <= _cmd_log_max b' /\
   _cmd_log_max b' = _cmd_log_max b /\
   last (_cmd_log b') = Some evt /\
   (Z.of_nat (length (_cmd_log b)) < _cmd_log_max b ->
    _cmd_log b' = (_cmd_log b ++ [evt])%list) /\
   (Z.of_nat (length (_cmd_log b)) = _cmd_log_max b ->
    _cmd_log b' = (drop 1 (_cmd_log b) ++ [evt])%list)).
Proof.
  intros Hm Hlen. cbv zeta. unfold emit_cmd.
  destruct (set_cmd upd c) as [[[] | e] c']; simpl.
  - do 2 (split; [done |]). split; [done |]. intros _.
    destruct (log_append_bounded (_cmd_log b) _
                {| ev_t_unix := t; ev_t_str := ts; channel := nm;
                   updates := upd; note := nt |} Hm Hlen) as [H1 H2].
    split; [done |]. split; [done |]. split; [done |].
    split; [apply log_append_room | by apply log_append_full].
  - do 2 (split; [done |]). split; [done |]. discriminate.
Qed.

(** X20.  The edge capacities.  With [cmd_log_max = 0] the slice
    [log[-0:]] is the whole list, so an accepted command is appended and
    nothing is ever evicted: the log grows without bound.  With a negative
    capacity [-k] the first [k] events go after every append, the new one
    included when the log held fewer than [k]; a log that is empty stays
    empty. *)
Theorem cmd_log_edge_capacities c (nm : string) (upd : pydict number)
    (nt : string) (t : spec_float) (ts : string) b :
  fst (set_cmd upd c) = Ok tt ->
  let b' := snd (emit_cmd c nm upd nt t ts b) in
  let evt := {| ev_t_unix := t; ev_t_str := ts; channel := nm;
                updates := upd; note := nt |} in
  (_cmd_log_max b = 0 -> _cmd_log b' = (_cmd_log b ++ [evt])%list) /\
  (_cmd_log_max b < 0 ->
   _cmd_log b'
   = drop (Z.to_nat (- _cmd_log_max b)) (_cmd_log b ++ [evt])%list /\
   (_cmd_log b = [] -> _cmd_log b' = [])).
Proof.
  intros Hok. unfold emit_cmd.
  destruct (set_cmd upd c) as [[[] | e] c']; simpl in *; [| discriminate].
  set (evt := {| ev_t_unix := t; ev_t_str := ts; channel := nm;
                 updates := upd; note := nt |}).
  split.
  - intros ->. unfold log_append, py_slice_from. simpl.
    destruct (Z.of_nat (length (_cmd_log b ++ [evt])%list) >? 0); [| done].
    replace (Z.min 0 _) with 0 by lia. reflexivity.
  - intros Hm.
    assert (Hgen : log_append (_cmd_log b) (_cmd_log_max b) evt
                   = drop (Z.to_nat (- _cmd_log_max b))
                          (_cmd_log b ++ [evt])%list).
    { unfold log_append, py_slice_from.
      replace (Z.of_nat (length (_cmd_log b ++ [evt])%list) >? _cmd_log_max b)
        with true by (symmetry; apply Z.gtb_lt; lia).
      replace (- _cmd_log_max b <? 0) with false
        by (symmetry; apply Z.ltb_ge; lia).
      destruct (Z.min_spec (- _cmd_log_max b)
                  (Z.of_nat (length (_cmd_log b ++ [evt])%list)))
        as [[_ ->] | [Hge ->]]; [done |].
      rewrite Nat2Z.id, drop_all. symmetry. apply drop_ge. lia. }
    split; [exact Hgen |].
    intros Hnil. rewrite Hgen, Hnil. simpl. apply drop_ge. simpl. lia.
Qed.

(** X21.  [update_meas] stores the whole frame under its channel, the
    latest one replacing the one before, and touches neither the frames
    of other channels nor the command log, whatever the logging filters
    are: [rx_log_fields] selects what the log line shows, not what the
    bus holds.  A line is logged only for a channel listed in a non-empty
    [rx_log_channels], and then exactly one. *)
Theorem update_meas_stores_whole_frame (ch : string) (meas : pydict number)
    (t : spec_float) (ts : string) b :
  let b' := update_meas ch meas t ts b in
  get_meas ch b' = Some {| t_unix := t; t_str := ts; data := meas |} /\
  (forall ch', ch' <> ch -> get_meas ch' b' = get_meas ch' b) /\
  get_cmd_log b' = get_cmd_log b /\
  (forall s, rx_log_channels b = Some s -> ch ∉ s -> logged b' = logged b) /\
  (rx_log_channels b = None -> logged b' = logged b) /\
  (has_log b = false -> logged b' = logged b) /\
  exists lines, logged b' = (logged b ++ lines)%list /\
                (length lines <= 1)%nat.
Proof.
  intros b'. subst b'. unfold get_meas, get_cmd_log, update_meas. simpl.
  split; [by rewrite lookup_insert_eq |].
  split; [by intros ch' Hne; rewrite lookup_insert_ne |].
  split; [done |].
  split.
  { intros s -> Hs. simpl. rewrite (bool_decide_eq_false_2 _ Hs).
    by rewrite andb_false_r. }
  split; [intros ->; simpl; by rewrite andb_false_r |].
  split; [by intros -> |].
  destruct (has_log b && truthy_set (rx_log_channels b)
            && bool_decide (ch ∈ default ∅ (rx_log_channels b))).
  - eexists. split.
    + reflexivity.
    + simpl. lia.
  - exists []. rewrite app_nil_r. split; [done | simpl; lia].
Qed.

End BusProps.
(** A bus with room for two events takes a first command for CH4. *)
Lemma cmd_log_is_bounded_fifo_witness :
  let c := @Gtnet.init (list number) Specs.CHANNEL_4 None in
  let upd := [("REM_PLOAD", NFloat f_one)] in
  let out := Bus.emit_cmd c "CH4" upd "ramp" Specs.t1 "t1" Samples.bus2 in
  1 <= Bus._cmd_log_max Samples.bus2 /\
  fst (fst out) = Ok tt /\
  Bus._cmd_log (snd out)
  = [{| Bus.ev_t_unix := Specs.t1; Bus.ev_t_str := "t1";
        Bus.channel := "CH4"; Bus.updates := upd; Bus.note := "ramp" |}].
Proof.
  intros c upd out.
  assert (Hm : 1 <= Bus._cmd_log_max Samples.bus2) by (simpl; lia).
  assert (Hl : Z.of_nat (length (Bus._cmd_log Samples.bus2))
               <= Bus._cmd_log_max Samples.bus2) by (simpl; lia).
  destruct (cmd_log_is_bounded_fifo c "CH4" upd "ramp" Specs.t1 "t1"
              Samples.bus2 Hm Hl) as (_ & _ & _ & H).
  assert (Hok : fst (fst out) = Ok tt) by (vm_compute; reflexivity).
  destruct (H Hok) as (_ & _ & _ & Hroom & _).
  split; [exact Hm |]. split; [exact Hok |].
  apply Hroom. simpl. lia.
Defined.

(** A bus with capacity 0 keeps the command it is given. *)
Lemma cmd_log_edge_capacities_witness :
  let c := @Gtnet.init (list number) Specs.CHANNEL_4 None in
  let upd := [("REM_PLOAD", NFloat f_one)] in
  fst (Gtnet.set_cmd upd c) = Ok tt /\
  Bus._cmd_log (snd (Bus.emit_cmd c "CH4" upd "ramp" Specs.t1 "t1"
                       Samples.bus0))
  = [{| Bus.ev_t_unix := Specs.t1; Bus.ev_t_str := "t1";
        Bus.channel := "CH4"; Bus.updates := upd; Bus.note := "ramp" |}].
Proof.
  intros c upd.
  assert (Hok : fst (Gtnet.set_cmd upd c) = Ok tt) by (vm_compute; reflexivity).
  split; [exact Hok |].
  exact (proj1 (cmd_log_edge_capacities c "CH4" upd "ramp" Specs.t1 "t1"
                  Samples.bus0 Hok) eq_refl).
Defined.

(* --------------------------------------------------------------------- *)
(** ** DGController: filters, limiters and the paths of [update]          *)
(* --------------------------------------------------------------------- *)

(** [st_simpl], in the hypotheses too. *)
Ltac st_simpl_all :=
  cbn [DG.cfg DG._f_wpu DG._f_smach DG._f_vpu DG._rl_wref DG._rl_pref
       DG._last_meas_ts DG._last_cmd DG._overload_start_ts
       DG._reset_until_ts DG.enabled DG.remote_block_override
       DG.set_f_wpu DG.set_f_smach DG.set_f_vpu DG.set_rl
       DG.set_last_meas_ts DG.set_last_cmd DG.set_overload_start_ts
       DG.set_reset_until_ts] in *.

Section ControllerExtra.

Import DG DGRun.
Local Open Scope Q_scope.

(** One step of the filter, for a step duration that is not negative. *)
Lemma lowpass_step_total (f : LowPass.t) (x dt : Q) :
  0 <= dt ->
  exists v,
    LowPass.step x dt f
    = (Ok v, {| LowPass.tau := LowPass.tau f; LowPass.y := Some v |}) /\
    (LowPass.y f = None -> v = x) /\
    (forall y0, LowPass.y f = Some y0 ->
       (LowPass.tau f <= 0 -> v = x) /\
       (y0 <= x -> y0 <= v /\ v <= x) /\
       (x <= y0 -> x <= v /\ v <= y0)).
Proof.
  intros Hdt. unfold LowPass.step.
  destruct (LowPass.y f) as [y0 |].
  2:{ exists x. split; [done |]. split; [done | discriminate]. }
  unfold q_le, q_lt.
  destruct (Qlt_le_dec 0 (LowPass.tau f)) as [Htau | Htau]; simpl.
  2:{ exists x. split; [done |]. split; [discriminate |].
      intros ? [= <-]. repeat split; lra. }
  unfold py_div.
  destruct (Qeq_dec (LowPass.tau f + dt) 0) as [Hz | Hz]; [lra |].
  eexists. split; [reflexivity |]. split; [discriminate |].
  intros ? [= <-].
  set (a := dt / (LowPass.tau f + dt)).
  assert (Ha0 : 0 <= a).
  { apply Qle_shift_div_l; lra. }
  assert (Ha1 : a <= 1).
  { apply Qle_shift_div_r; lra. }
  split; [lra |].
  split; intros Hx.
  - pose proof (Qmult_le_0_compat a (x - y0) Ha0 ltac:(lra)).
    pose proof (Qmult_le_0_compat (1 - a) (x - y0) ltac:(lra) ltac:(lra)).
    split; lra.
  - pose proof (Qmult_le_0_compat a (y0 - x) Ha0 ltac:(lra)).
    pose proof (Qmult_le_0_compat (1 - a) (y0 - x) ltac:(lra) ltac:(lra)).
    split; lra.
Qed.




Lemma rl_step_state (r : RateLimiter.t) (x dt : Q) :
  snd (RateLimiter.step x dt r)
  = {| RateLimiter.up := RateLimiter.up r;
       RateLimiter.down := RateLimiter.down r;
       RateLimiter.y := Some (fst (RateLimiter.step x dt r)) |}.
Proof. unfold RateLimiter.step. by destruct (RateLimiter.y r). Qed.

Lemma get_filtered_total (f : LowPass.t) (x : option pyfloat) (dt : Q) :
  0 <= dt -> exists o f', _get_filtered f x dt = (Ok o, f').
Proof.
  intros Hdt. unfold _get_filtered. destruct x as [[q |] |]; eauto.
  destruct (lowpass_step_total f q dt Hdt) as (v & -> & _). eauto.
Qed.

(** The loading term. *)
Lemma pref_from_smach_total (c : DGControllerConfig) (sm : Q) :
  exists d,
    _pref_from_smach c sm = Ok d /\ d <= 0 /\
    (SMACH_limit c <= sm -> d <= - (1 # 2)) /\
    (sm < SMACH_limit c -> - (2 # 10) < d) /\
    (sm < SMACH_limit c -> sm < SMACH_limit c - SMACH_margin c -> d = 0).
Proof.
  unfold _pref_from_smach, q_ge, q_lt.
  destruct (Qlt_le_dec sm (SMACH_limit c)) as [Hl | Hl]; simpl.
  2:{ eexists. split; [reflexivity |]. repeat split; intros; lra. }
  destruct (Qlt_le_dec sm (SMACH_limit c - SMACH_margin c)) as [Hs | Hs];
    simpl.
  { exists 0. split; [reflexivity |]. repeat split; intros; lra. }
  set (m := py_max (SMACH_margin c) (1 # 1000000)).
  assert (Hm : 0 < m /\ SMACH_margin c <= m).
  { subst m. q_cases; lra. }
  destruct Hm as [Hm0 Hmm]. unfold py_div.
  destruct (Qeq_dec m 0) as [Hz | Hz]; [lra |]. simpl.
  set (cl := (sm - (SMACH_limit c - SMACH_margin c)) / m).
  assert (Hc0 : 0 <= cl) by (apply Qle_shift_div_l; lra).
  assert (Hc1 : cl < 1) by (apply Qlt_shift_div_r; lra).
  eexists. split; [reflexivity |]. repeat split; intros; lra.
Qed.

(** What the overload logic leaves alone, and what it returns. *)
Lemma handle_overload_frame (ov : option Z) (pref_cmd now : Q)
    (s : DGController) :
  let r := _handle_overload_logic ov pref_cmd now s in
  kept s (snd r) /\
  enabled (snd r) = enabled s /\
  remote_block_override (snd r) = remote_block_override s /\
  _rl_wref (snd r) = _rl_wref s /\ _rl_pref (snd r) = _rl_pref s /\
  _last_cmd (snd r) = _last_cmd s /\
  (fst (fst (fst r)) = 0 \/ fst (fst (fst r)) = 1)%Z /\
  (snd (fst (fst r)) = 0 \/ snd (fst (fst r)) = 1)%Z.
Proof.
  cbv zeta. unfold _handle_overload_logic, kept.
  assert (Hr : forall a b : Q, ((if q_lt a b then 1 else 0) = 0
                                \/ (if q_lt a b then 1 else 0) = 1)%Z).
  { intros a b. destruct (q_lt a b); auto. }
  destruct ov as [z |].
  2:{ simpl. repeat split; try lra; auto. }
  destruct (negb (z =? 0)%Z).
  2:{ simpl. repeat split; try lra; auto. }
  cbn zeta. destruct (q_ge _ _).
  - unfold request_reset. cbn [fst snd]. st_simpl.
    repeat split; auto.
    + q_cases; lra.
    + destruct (q_lt now (py_max _ _)); [by right | apply Hr].
  - cbn [fst snd]. st_simpl. repeat split; try lra; auto.
Qed.

(** The three paths of [update], for a step duration that is not
    negative: the controller disabled, the data stale, or the setpoints
    computed, saturated and rate limited. *)
Lemma update_paths (s : DGController) (meas : DGMeasurements) (dt : Q)
    (now : option Q) (clock : Q) :
  0 <= dt ->
  let now' := match now with Some t => t | None => clock end in
  let s1 := if _measurements_present meas
            then set_last_meas_ts (Some now') s else s in
  exists out s',
    update meas dt now clock s = (Ok out, s') /\
    kept s s' /\ rests_at out s' /\
    enabled s' = enabled s /\
    remote_block_override s' = remote_block_override s /\
    ((enabled s = false /\
      REM_BLOCKGEN out = 1%Z /\
      REM_RESETGEN out
      = (if q_lt clock (_reset_until_ts s) then 1 else 0)%Z /\
      REM_Wref out
      = fst (RateLimiter.step (Wref_base (cfg s)) dt (_rl_wref s)) /\
      REM_PREF out
      = fst (RateLimiter.step (Pref_base (cfg s)) dt (_rl_pref s))) \/
     (enabled s = true /\ _is_stale now' s1 = true /\
      REM_BLOCKGEN out = REM_BLOCKGEN (_last_cmd s) /\
      REM_Wref out = REM_Wref (_last_cmd s) /\
      REM_PREF out = REM_PREF (_last_cmd s) /\
      REM_RESETGEN out
      = (if q_ge clock (_reset_until_ts s) then 0%Z
         else REM_RESETGEN (_last_cmd s)) /\
      _f_wpu s' = _f_wpu s /\ _f_smach s' = _f_smach s /\
      _f_vpu s' = _f_vpu s /\
      _overload_start_ts s' = _overload_start_ts s /\
      _reset_until_ts s' = _reset_until_ts s) \/
     (enabled s = true /\ _is_stale now' s1 = false /\
      exists (wref_cmd pref_in : Q) (sF : DGController),
        _reset_until_ts sF = _reset_until_ts s /\
        _overload_start_ts sF = _overload_start_ts s /\
        cfg sF = cfg s /\
        let r := _handle_overload_logic (OVERLOADED meas) pref_in now' sF in
        REM_BLOCKGEN out
        = match remote_block_override s with
          | Some b => b
          | None => fst (fst (fst r))
          end /\
        REM_RESETGEN out = snd (fst (fst r)) /\
        REM_Wref out
        = fst (RateLimiter.step
                 (clamp wref_cmd (Wref_min (cfg s)) (Wref_max (cfg s)))
                 dt (_rl_wref s)) /\
        REM_PREF out
        = fst (RateLimiter.step
                 (clamp (snd (fst r)) (Pref_min (cfg s)) (Pref_max (cfg s)))
                 dt (_rl_pref s)) /\
        _overload_start_ts s' = _overload_start_ts (snd r) /\
        _reset_until_ts s' = _reset_until_ts (snd r))).
Proof.
  intros Hdt now' s1.
  unfold update, mbind, gets, modify, ret, lift, total.
  fold now'.
  destruct (enabled s) eqn:Hen; cbn [negb].
  2:{ (* disabled *)
      unfold _hold_safe_base.
      pose proof (rl_step_state (_rl_wref s) (Wref_base (cfg s)) dt) as Hw.
      pose proof (rl_step_state (_rl_pref s) (Pref_base (cfg s)) dt) as Hp.
      destruct (RateLimiter.step (Wref_base (cfg s)) dt (_rl_wref s))
        as [wo w].
      destruct (RateLimiter.step (Pref_base (cfg s)) dt (_rl_pref s))
        as [po p].
      simpl in Hw, Hp. subst w p.
      eexists _, _. split; [reflexivity |].
      unfold kept, rests_at. st_simpl. simpl.
      repeat split; try lra; try done. left. by repeat split. }
  subst s1.
  destruct (_measurements_present meas) eqn:Hpres; cbv beta iota.
  all: match goal with
       | |- context [_is_stale ?n ?st] =>
           destruct (_is_stale n st) eqn:Hstale
       end.
  1,3: unfold _hold_last; st_simpl; eexists _, _; (split; [reflexivity |]);
       unfold kept, rests_at; st_simpl;
       (split; [repeat split; lra |]);
       (split; [by destruct (q_ge clock (_reset_until_ts s)) |]);
       do 2 (split; [done |]); right; left;
       destruct (q_ge clock (_reset_until_ts s)); by repeat split.
  (* setpoints computed *)
  all: unfold filter_wpu; st_simpl.
  all: destruct (get_filtered_total (_f_wpu s) (WPU meas) dt Hdt)
         as (ow & fw & ->).
  all: unfold filter_smach; st_simpl.
  all: destruct (get_filtered_total (_f_smach s) (SMACH meas) dt Hdt)
         as (os & fs & ->).
  all: unfold filter_vpu; st_simpl.
  all: destruct (get_filtered_total (_f_vpu s) (GENRMSPU meas) dt Hdt)
         as (ov & fv & ->).
  all: st_simpl.
  all: assert (Hp0 : exists pref0,
             match os with
             | Some sm =>
                 bind (_pref_from_smach (cfg s) sm)
                      (fun d => Ok (Pref_base (cfg s) + d))
             | None => Ok (Pref_base (cfg s))
             end = Ok pref0)
         by (destruct os as [sm |]; [| by eauto];
             destruct (pref_from_smach_total (cfg s) sm) as (d & -> & _);
             simpl; eauto).
  all: destruct Hp0 as (pref0 & Hp0).
  all: destruct os as [sm |]; cbv beta iota;
         [rewrite Hp0 | injection Hp0 as <-].
  all: destruct (match ow with
                 | Some w => (_ + _pref_from_wpu (cfg s) w,
                              Wref_base (cfg s) + _wref_from_wpu (cfg s) w)
                 | None => (_, Wref_base (cfg s))
                 end) as [pref1 wref1].
  all: assert (Hp2 : exists pref2,
             match ov with
             | Some v => _apply_voltage_guard (cfg s) pref1 v
             | None => Ok pref1
             end = Ok pref2)
         by (destruct ov as [v |]; [| by eauto];
             destruct (apply_voltage_guard_le (cfg s) pref1 v)
               as (r & -> & _); eauto).
  all: destruct Hp2 as (pref2 & Hp2).
  all: destruct ov as [v |]; cbv beta iota;
         [rewrite Hp2 | injection Hp2 as <-].
  all: match goal with
       | |- context [_handle_overload_logic ?o ?p ?n ?st] =>
           set (sF := st);
           pose proof (handle_overload_frame o p n sF) as Hfr;
           cbv zeta in Hfr;
           set (r := _handle_overload_logic o p n sF) in *
       end.
  all: destruct Hfr as (Hk & HenH & HboH & HrwH & HrpH & HlcH & Hb & Hr).
  all: destruct r as [[[block_cmd reset_cmd] pref3] sH] eqn:Er.
  all: cbn [fst snd] in *; cbv beta iota.
  all: rewrite HrwH, HrpH; subst sF; st_simpl.
  all: pose proof (rl_step_state (_rl_wref s)
                     (clamp wref1 (Wref_min (cfg s)) (Wref_max (cfg s))) dt)
         as Hw.
  all: pose proof (rl_step_state (_rl_pref s)
                     (clamp pref3 (Pref_min (cfg s)) (Pref_max (cfg s))) dt)
         as Hp.
  all: destruct (RateLimiter.step (clamp wref1 _ _) dt (_rl_wref s))
         as [wo w] eqn:Ew.
  all: destruct (RateLimiter.step (clamp pref3 _ _) dt (_rl_pref s))
         as [po p] eqn:Ep.
  all: simpl in Hw, Hp; subst w p.
  all: eexists _, _; (split; [reflexivity |]).
  all: unfold kept in Hk |- *; unfold rests_at; st_simpl.
  all: cbn [RateLimiter.up RateLimiter.down RateLimiter.y].
  all: st_simpl_all.
  all: destruct Hk as (HcH & Hk1 & Hk2 & Hk3 & Hk4 & Hk5).
  all: split; [repeat split; first [assumption | reflexivity] |].
  all: split; [repeat split; first [assumption | reflexivity] |].
  all: do 2 (split; [congruence |]).
  all: right; right; do 2 (split; [done |]).
  all: match goal with
       | r := _handle_overload_logic ?o ?p ?n ?st |- _ =>
           exists wref1, p, st; cbv zeta;
           change (_handle_overload_logic o p n st) with r
       end.
  all: rewrite Er; cbn [fst snd]; st_simpl.
  all: rewrite ?Ew, ?Ep; cbn [fst snd].
  all: rewrite HboH; repeat split; reflexivity.
Qed.





(** X25.  Stale data.  When the controller is enabled, the call brings
    none of SMACH, WPU and OVERLOADED, and the last such measurement is
    older than [max_stale_s], [update] returns the last command: block and
    both setpoints as they were, the filters and the overload timer
    untouched.  The reset output is only ever cleared on this path (once
    [time.time()] has passed the deadline): a reset requested meanwhile is
    not emitted. *)
Theorem stale_data_holds_last_command (s : DGController)
    (meas : DGMeasurements) (dt : Q) (now : option Q) (clock ts : Q) :
  0 <= dt ->
  enabled s = true ->
  _measurements_present meas = false ->
  _last_meas_ts s = Some ts ->
  max_stale_s (cfg s) < match now with Some t => t | None => clock end - ts ->
  exists out s',
    update meas dt now clock s = (Ok out, s') /\
    REM_BLOCKGEN out = REM_BLOCKGEN (_last_cmd s) /\
    REM_Wref out = REM_Wref (_last_cmd s) /\
    REM_PREF out = REM_PREF (_last_cmd s) /\
    REM_RESETGEN out
    = (if q_ge clock (_reset_until_ts s) then 0%Z
       else REM_RESETGEN (_last_cmd s)) /\
    _f_wpu s' = _f_wpu s /\ _f_smach s' = _f_smach s /\
    _f_vpu s' = _f_vpu s /\
    _overload_start_ts s' = _overload_start_ts s /\
    _last_cmd s' = out.
Proof.
  intros Hdt Hen Hpres Hts Hold.
  destruct (update_paths s meas dt now clock Hdt)
    as (out & s' & Hu & _ & (Hlc & _) & _ & _ & Hpath).
  exists out, s'. split; [exact Hu |].
  cbv zeta in Hpath. rewrite Hpres in Hpath.
  assert (Hst : _is_stale match now with Some t => t | None => clock end s
                = true).
  { unfold _is_stale. rewrite Hts. unfold q_gt, q_lt.
    destruct (Qlt_le_dec _ _); [reflexivity | lra]. }
  destruct Hpath as [(He & _) | [H | (_ & Hns & _)]]; [congruence | |
    congruence].
  destruct H as (_ & _ & Hb & Hw & Hp & Hr & Hfw & Hfs & Hfv & Hov & _).
  by repeat split.
Qed.

(** X26.  A sample that is present but not finite renews the freshness
    of the data although no filter takes it.  With SMACH being NaN or an
    infinity and nothing else measured, an enabled controller never goes
    to the hold of stale data, however old its last usable measurement
    is: it notes the time of the call, leaves the filters alone, and sends
    both setpoints toward the (saturated) base setpoints. *)
Theorem non_finite_sample_counts_as_fresh (s : DGController)
    (meas : DGMeasurements) (dt : Q) (now : option Q) (clock : Q) :
  enabled s = true ->
  0 <= max_stale_s (cfg s) ->
  SMACH meas = Some NonFinite ->
  WPU meas = None -> GENRMSPU meas = None -> OVERLOADED meas = None ->
  exists out s',
    update meas dt now clock s = (Ok out, s') /\
    _last_meas_ts s' = Some match now with Some t => t | None => clock end /\
    _f_smach s' = _f_smach s /\
    REM_Wref out
    = fst (RateLimiter.step
             (clamp (Wref_base (cfg s)) (Wref_min (cfg s)) (Wref_max (cfg s)))
             dt (_rl_wref s)) /\
    REM_PREF out
    = fst (RateLimiter.step
             (clamp (Pref_base (cfg s)) (Pref_min (cfg s)) (Pref_max (cfg s)))
             dt (_rl_pref s)).
Proof.
  intros Hen Hst Hsm Hw Hv Hov.
  unfold update, mbind, gets, modify, ret, lift, total.
  rewrite Hen. cbn [negb].
  unfold _measurements_present. rewrite Hsm. cbn [is_some orb].
  set (now' := match now with Some t => t | None => clock end).
  assert (Hfresh : _is_stale now' (set_last_meas_ts (Some now') s) = false).
  { unfold _is_stale. st_simpl. unfold q_gt, q_lt.
    destruct (Qlt_le_dec _ _); [lra | reflexivity]. }
  rewrite Hfresh.
  unfold filter_wpu, filter_smach, filter_vpu, _get_filtered.
  rewrite ?Hsm, ?Hw, ?Hv, ?Hov. st_simpl.
  unfold _handle_overload_logic. st_simpl.
  destruct (RateLimiter.step (clamp (Wref_base (cfg s)) _ _) dt (_rl_wref s))
    as [wo w] eqn:Ew.
  destruct (RateLimiter.step (clamp (Pref_base (cfg s)) _ _) dt (_rl_pref s))
    as [po p] eqn:Ep.
  eexists _, _. split; [reflexivity |]. st_simpl. by repeat split.
Qed.


(** The reset output on the computing path. *)
Lemma handle_overload_reset (ov : option Z) (pref_cmd now : Q)
    (s : DGController) :
  let r := _handle_overload_logic ov pref_cmd now s in
  (now < _reset_until_ts s -> snd (fst (fst r)) = 1%Z) /\
  (ov = None \/ ov = Some 0%Z ->
   _reset_until_ts s <= now -> snd (fst (fst r)) = 0%Z) /\
  (ov = None \/ ov = Some 0%Z -> _reset_until_ts (snd r) = _reset_until_ts s).
Proof.
  cbv zeta. unfold _handle_overload_logic.
  assert (H1 : now < _reset_until_ts s ->
               (if q_lt now (_reset_until_ts s) then 1 else 0)%Z = 1%Z).
  { intros H. unfold q_lt. destruct (Qlt_le_dec _ _); [done | lra]. }
  assert (H0 : _reset_until_ts s <= now ->
               (if q_lt now (_reset_until_ts s) then 1 else 0)%Z = 0%Z).
  { intros H. unfold q_lt. destruct (Qlt_le_dec _ _); [lra | done]. }
  split; [| split].
  - intros Hlt. destruct ov as [z |]; [| by apply H1].
    destruct (negb (z =? 0)%Z); [| by apply H1].
    cbn zeta. destruct (q_ge _ _); cbn [fst snd]; [| by apply H1].
    destruct (q_lt now (_reset_until_ts (request_reset _ _)));
      [done | by apply H1].
  - intros [-> | ->] Hle; simpl; by apply H0.
  - by intros [-> | ->].
Qed.

(** X28.  The reset pulse.  [request_reset(t)] never moves the deadline
    back.  On the computing path (enabled, data fresh) an [update] whose
    time is before [t + reset_pulse_s] answers with the reset output at 1;
    once the time has reached the deadline, and the overload flag is
    missing or zero, the output is back to 0. *)
Theorem reset_pulse_is_emitted (s : DGController) (meas : DGMeasurements)
    (dt : Q) (now : option Q) (clock t : Q) :
  0 <= dt ->
  enabled s = true ->
  _measurements_present meas = true ->
  0 <= max_stale_s (cfg s) ->
  let now' := match now with Some x => x | None => clock end in
  let s1 := request_reset t s in
  _reset_until_ts s <= _reset_until_ts s1 /\
  t + reset_pulse_s (cfg s) <= _reset_until_ts s1 /\
  exists out s',
    update meas dt now clock s1 = (Ok out, s') /\
    (now' < t + reset_pulse_s (cfg s) -> REM_RESETGEN out = 1%Z) /\
    (OVERLOADED meas = None \/ OVERLOADED meas = Some 0%Z ->
     _reset_until_ts s1 <= now' ->
     REM_RESETGEN out = 0%Z /\ _reset_until_ts s' = _reset_until_ts s1).
Proof.
  intros Hdt Hen Hpres Hst now' s1.
  assert (Hdl : _reset_until_ts s <= _reset_until_ts s1 /\
                t + reset_pulse_s (cfg s) <= _reset_until_ts s1).
  { subst s1. unfold request_reset. st_simpl. q_cases; lra. }
  destruct Hdl as [Hd1 Hd2]. do 2 (split; [done |]).
  destruct (update_paths s1 meas dt now clock Hdt)
    as (out & s' & Hu & _ & _ & _ & _ & Hpath).
  exists out, s'. split; [exact Hu |].
  cbv zeta in Hpath. fold now' in Hpath. rewrite Hpres in Hpath.
  assert (Hfresh : _is_stale now' (set_last_meas_ts (Some now') s1) = false).
  { unfold _is_stale. st_simpl. unfold q_gt, q_lt.
    destruct (Qlt_le_dec _ _); [| reflexivity].
    subst s1. unfold request_reset in *. st_simpl_all. lra. }
  destruct Hpath as [(He & _) | [(_ & Hs & _) | (_ & _ & H)]];
    [subst s1; unfold request_reset in He; st_simpl_all; congruence
    | congruence |].
  destruct H as (wt & pt & sF & Hru & _ & _ & _ & Hr & _ & _ & _ & Hru').
  destruct (handle_overload_reset (OVERLOADED meas) pt now' sF)
    as (H1 & H0 & Hk).
  cbv zeta in H1, H0, Hk. rewrite Hru in H1, H0, Hk.
  split.
  - intros Hlt. rewrite Hr. apply H1. lra.
  - intros Hov Hle. rewrite Hr, Hru', (Hk Hov). split; [by apply H0 | done].
Qed.


End ControllerExtra.



(** The default controller measured at time 0 and called with nothing at
    time 10: it answers with its last command. *)
Lemma stale_data_holds_last_command_witness :
  let s := Samples.controller1 in
  (0 <= 5 # 100)%Q /\ DG.enabled s = true /\
  DG._last_meas_ts s = Some 0%Q /\
  (DG.max_stale_s (DG.cfg s) < 10 - 0)%Q /\
  exists out s',
    DG.update Samples.meas_none (5 # 100) (Some 10%Q) 10 s = (Ok out, s') /\
    DG.REM_BLOCKGEN out = DG.REM_BLOCKGEN (DG._last_cmd s) /\
    DG.REM_Wref out = DG.REM_Wref (DG._last_cmd s) /\
    DG.REM_PREF out = DG.REM_PREF (DG._last_cmd s).
Proof.
  intros s.
  assert (Hdt : (0 <= 5 # 100)%Q) by (vm_compute; discriminate).
  assert (Hen : DG.enabled s = true) by (vm_compute; reflexivity).
  assert (Hts : DG._last_meas_ts s = Some 0%Q) by (vm_compute; reflexivity).
  assert (Hold : (DG.max_stale_s (DG.cfg s) < 10 - 0)%Q)
    by (vm_compute; reflexivity).
  split; [exact Hdt |]. split; [exact Hen |]. split; [exact Hts |].
  split; [exact Hold |].
  destruct (stale_data_holds_last_command s Samples.meas_none (5 # 100)%Q
              (Some 10%Q) 10%Q 0%Q Hdt Hen eq_refl Hts Hold)
    as (out & s' & Hu & Hb & Hw & Hp & _).
  exists out, s'. split; [exact Hu |]. split; [exact Hb |].
  split; [exact Hw | exact Hp].
Defined.

(** The default controller measured at time 0 and called with a NaN
    loading at time 10: the data count as fresh. *)
Lemma non_finite_sample_counts_as_fresh_witness :
  let s := Samples.controller1 in
  DG.enabled s = true /\ (0 <= DG.max_stale_s (DG.cfg s))%Q /\
  DG._last_meas_ts s = Some 0%Q /\
  exists out s',
    DG.update Samples.meas_nan (5 # 100) (Some 10%Q) 10 s = (Ok out, s') /\
    DG._last_meas_ts s' = Some 10%Q /\
    DG._f_smach s' = DG._f_smach s.
Proof.
  intros s.
  assert (Hen : DG.enabled s = true) by (vm_compute; reflexivity).
  assert (Hst : (0 <= DG.max_stale_s (DG.cfg s))%Q)
    by (vm_compute; discriminate).
  split; [exact Hen |]. split; [exact Hst |].
  split; [vm_compute; reflexivity |].
  destruct (non_finite_sample_counts_as_fresh s Samples.meas_nan (5 # 100)%Q
              (Some 10%Q) 10%Q Hen Hst eq_refl eq_refl eq_refl eq_refl)
    as (out & s' & Hu & Hts & Hf & _).
  exists out, s'. split; [exact Hu |]. split; [exact Hts | exact Hf].
Defined.

(** The default controller, a reset requested at time 0: an update 50 ms
    later, within the 100 ms pulse, answers with the reset output at 1. *)
Lemma reset_pulse_is_emitted_witness :
  let s := Specs.controller0 in
  (0 <= 5 # 100)%Q /\ DG.enabled s = true /\
  DG._measurements_present Specs.meas_overloaded = true /\
  (0 <= DG.max_stale_s (DG.cfg s))%Q /\
  exists out s',
    DG.update Specs.meas_overloaded (5 # 100) (Some (5 # 100)%Q) 0
      (DG.request_reset 0 s) = (Ok out, s') /\
    DG.REM_RESETGEN out = 1.
Proof.
  intros s.
  assert (Hdt : (0 <= 5 # 100)%Q) by (vm_compute; discriminate).
  assert (Hst : (0 <= DG.max_stale_s (DG.cfg s))%Q)
    by (vm_compute; discriminate).
  split; [exact Hdt |]. split; [reflexivity |]. split; [reflexivity |].
  split; [exact Hst |].
  destruct (reset_pulse_is_emitted s Specs.meas_overloaded (5 # 100)%Q
              (Some (5 # 100)%Q) 0%Q 0%Q Hdt eq_refl eq_refl Hst)
    as (_ & _ & out & s' & Hu & H1 & _).
  exists out, s'. split; [exact Hu |]. apply H1. vm_compute. reflexivity.
Defined.

(* --------------------------------------------------------------------- *)
(** ** The stability check: what a stable window guarantees               *)
(* --------------------------------------------------------------------- *)

Section StabilityExtra.

Import Stability.
Local Open Scope Q_scope.

Implicit Type samples : list (gmap string (option value)).






End StabilityExtra.


